(** * rcv-tracker: the collection pipeline of [rcv_votes]

    A shallow embedding of [rcv_votes/models.py], [rcv_votes/web_scraper.py]
    and [rcv_votes/vote_collector.py].

    Conventions of the embedding.
    - A Python [str] is a [string]: a sequence of code points below 256.
      On that range [\d] is [0-9], [\s] and [str.strip] use the code points
      for which [str.isspace] holds, and [str.lower] is the one of Python.
      [str.upper] is the one of Python but for the three letters whose upper
      case is not one code point below 256 (sharp s, micro sign, y with
      diaeresis), which are left alone.
    - A Python [int] is a [Z]; [len] is [Z.of_nat (length _)].
    - A call either returns or raises: [outcome A].  The [while] loop of the
      session scan is bounded by fuel: [option (outcome A)], where [None]
      means that the fuel ran out before the loop ended.
    - The remote services are parameters: the Congress API is a function of
      the key [(congress, session, vote_number)], the clerk's site a function
      of the page address.  Logging and [time.sleep] are left out. *)

From Stdlib Require Import String Ascii List ZArith Lia Bool Arith DecimalString.
Import ListNotations.

Local Open Scope string_scope.
Local Open Scope Z_scope.

(** ** Exceptions ([rcv_votes/exceptions.py]) and the outcome of a call *)

Inductive exn : Type :=
| APIError (message : string) (status_code : option Z)
| ValidationError (message : string)
| ValueError (message : string)
| RequestException (message : string).

Inductive outcome (A : Type) : Type :=
| Return (a : A)
| Raise (e : exn).

Arguments Return {A} a.
Arguments Raise {A} e.

Definition bind {A B : Type} (m : outcome A) (k : A -> outcome B) : outcome B :=
  match m with
  | Return a => k a
  | Raise e => Raise e
  end.

(** [try: body  except Exception as e: handler e] *)
Definition try_except {A : Type} (body : outcome A) (handler : exn -> outcome A)
  : outcome A :=
  match body with
  | Return a => Return a
  | Raise e => handler e
  end.

Declare Scope outcome_scope.
Delimit Scope outcome_scope with outcome.
Notation "x <- m ;; k" := (bind m (fun x => k))
  (at level 61, m at next level, right associativity) : outcome_scope.
Local Open Scope outcome_scope.

Definition is_APIError (e : exn) : bool :=
  match e with
  | APIError _ _ => true
  | _ => false
  end.

(** ** Characters and strings *)

Module Str.

Definition code (c : ascii) : N := N_of_ascii c.

Definition between (lo hi : N) (c : ascii) : bool :=
  ((lo <=? code c) && (code c <=? hi))%N.

Definition is_digit (c : ascii) : bool := between 48 57 c.
Definition is_upper (c : ascii) : bool := between 65 90 c.
Definition is_lower (c : ascii) : bool := between 97 122 c.
Definition is_alpha (c : ascii) : bool := is_upper c || is_lower c.

(** [str.isspace] on the code points below 256. *)
Definition is_space (c : ascii) : bool :=
  between 9 13 c || between 28 32 c || (code c =? 133)%N || (code c =? 160)%N.

(** The letters of Latin-1 above the ASCII range that have a case. *)
Definition is_upper_latin (c : ascii) : bool := between 192 214 c || between 216 222 c.
Definition is_lower_latin (c : ascii) : bool := between 224 246 c || between 248 254 c.

Definition lower_char (c : ascii) : ascii :=
  if is_upper c || is_upper_latin c then ascii_of_N (code c + 32) else c.

Definition upper_char (c : ascii) : ascii :=
  if is_lower c || is_lower_latin c then ascii_of_N (code c - 32) else c.

Fixpoint map (f : ascii -> ascii) (s : string) : string :=
  match s with
  | EmptyString => EmptyString
  | String c s' => String (f c) (map f s')
  end.

Definition lower : string -> string := map lower_char.
Definition upper : string -> string := map upper_char.

Fixpoint forallb (p : ascii -> bool) (s : string) : bool :=
  match s with
  | EmptyString => true
  | String c s' => p c && forallb p s'
  end.

Fixpoint take (n : nat) (s : string) : string :=
  match n, s with
  | S n', String c s' => String c (take n' s')
  | _, _ => EmptyString
  end.

Fixpoint drop (n : nat) (s : string) : string :=
  match n, s with
  | S n', String _ s' => drop n' s'
  | _, _ => s
  end.

Fixpoint repeat (c : ascii) (n : nat) : string :=
  match n with
  | O => EmptyString
  | S n' => String c (repeat c n')
  end.

Fixpoint rev_onto (s acc : string) : string :=
  match s with
  | EmptyString => acc
  | String c s' => rev_onto s' (String c acc)
  end.

Definition rev (s : string) : string := rev_onto s EmptyString.

Fixpoint lstrip (s : string) : string :=
  match s with
  | String c s' => if is_space c then lstrip s' else s
  | EmptyString => EmptyString
  end.

(** [str.strip()] *)
Definition strip (s : string) : string := rev (lstrip (rev (lstrip s))).

(** [str.zfill(width)]: zeros go after a leading sign. *)
Definition zfill (width : nat) (s : string) : string :=
  let pad := repeat "0"%char (width - String.length s) in
  match s with
  | String c s' =>
      if ((c =? "+") || (c =? "-"))%char then String c (pad ++ s') else pad ++ s
  | EmptyString => pad
  end.

(** [s.split(sep)[0]] for a one-character separator. *)
Fixpoint split_head (sep : ascii) (s : string) : string :=
  match s with
  | EmptyString => EmptyString
  | String c s' => if (c =? sep)%char then EmptyString else String c (split_head sep s')
  end.

(** Truthiness of a [str]. *)
Definition nonempty (s : string) : bool :=
  match s with
  | EmptyString => false
  | String _ _ => true
  end.

Definition digit_val (c : ascii) : Z := Z.of_N (code c) - 48.

Fixpoint int_onto (acc : Z) (s : string) : Z :=
  match s with
  | EmptyString => acc
  | String c s' => int_onto (10 * acc + digit_val c) s'
  end.

(** [int(s)] for a string of decimal digits. *)
Definition to_int (s : string) : Z := int_onto 0 s.

End Str.

(** ** Regular expressions

    Every pattern of the sources is a concatenation of single-character
    items, each under a greedy quantifier, some of them captured as groups.
    [match_here] is the backtracking matcher of Python's [re] on such
    patterns: an item first takes as many characters as it can and gives
    them back one at a time while the rest of the pattern fails. *)

Module Re.

Inductive cclass : Type :=
| Chr (c : ascii)            (* a literal character *)
| ChrI (c : ascii)           (* a literal character under re.IGNORECASE *)
| Digit                      (* \d *)
| Alpha                      (* [A-Za-z] *)
| Space                      (* \s *)
| NoneOf (cs : list ascii).  (* [^...] *)

Definition in_class (k : cclass) (c : ascii) : bool :=
  match k with
  | Chr c' => (c =? c')%char
  | ChrI c' => (Str.lower_char c =? Str.lower_char c')%char
  | Digit => Str.is_digit c
  | Alpha => Str.is_alpha c
  | Space => Str.is_space c
  | NoneOf cs => negb (existsb (Ascii.eqb c) cs)
  end.

Record atom : Type := mk_atom {
  a_class : cclass;
  a_min : nat;
  a_max : option nat;   (* None: no upper bound *)
  a_group : bool        (* the item is a capturing group *)
}.

Definition pattern : Type := list atom.

Fixpoint lit (s : string) : pattern :=
  match s with
  | EmptyString => []
  | String c s' => mk_atom (Chr c) 1 (Some 1%nat) false :: lit s'
  end.

Fixpoint lit_i (s : string) : pattern :=
  match s with
  | EmptyString => []
  | String c s' => mk_atom (ChrI c) 1 (Some 1%nat) false :: lit_i s'
  end.

(** [(k{lo,hi})] and its variants *)
Definition group (k : cclass) (lo hi : nat) : pattern := [mk_atom k lo (Some hi) true].
Definition group_plus (k : cclass) : pattern := [mk_atom k 1 None true].
Definition star (k : cclass) : pattern := [mk_atom k 0 None false].

Fixpoint run_length (k : cclass) (s : string) : nat :=
  match s with
  | String c s' => if in_class k c then S (run_length k s') else O
  | EmptyString => O
  end.

Definition max_take (a : atom) (s : string) : nat :=
  match a_max a with
  | Some m => Nat.min m (run_length (a_class a) s)
  | None => run_length (a_class a) s
  end.

(** Try [k n], [k (n-1)], ..., [k lo] and keep the first success. *)
Fixpoint try_down {A : Type} (lo n : nat) (k : nat -> option A) : option A :=
  if (n <? lo)%nat then None
  else match k n with
       | Some r => Some r
       | None => match n with
                 | O => None
                 | S n' => try_down lo n' k
                 end
       end.

(** The groups of a match at the start of [s], and the text after it. *)
Fixpoint match_here (p : pattern) (s : string) : option (list string * string) :=
  match p with
  | [] => Some ([], s)
  | a :: p' =>
      try_down (a_min a) (max_take a s)
        (fun n =>
           match match_here p' (Str.drop n s) with
           | Some (gs, rest) =>
               Some (if a_group a then Str.take n s :: gs else gs, rest)
           | None => None
           end)
  end.

(** [re.search(p, s)]: the leftmost match; its groups. *)
Fixpoint search (p : pattern) (s : string) : option (list string) :=
  match match_here p s with
  | Some (gs, _) => Some gs
  | None => match s with
            | EmptyString => None
            | String _ s' => search p s'
            end
  end.

(** [re.match('^' + p + '$', s)]: [$] also matches before a final newline. *)
Definition match_whole (p : pattern) (s : string) : bool :=
  match match_here p s with
  | Some (_, rest) => (rest =? "")%string || (rest =? String "010"%char "")%string
  | None => false
  end.

End Re.

(** ** [datetime.strptime(s, '%Y-%m-%d')]

    The standard library's parser, from its documented behaviour: four
    digits of year, [-], a month [1[0-2]|0[1-9]|[1-9]], [-], a day
    [3[01]|[12]\d|0[1-9]|[1-9]| [1-9]], nothing after it, and the three
    numbers must be a date of the proleptic Gregorian calendar with a year
    from 1 to 9999.  Everything else raises [ValueError]. *)

Module Calendar.

Definition is_leap (y : Z) : bool :=
  (y mod 4 =? 0) && (negb (y mod 100 =? 0) || (y mod 400 =? 0)).

Definition days_in_month (y m : Z) : Z :=
  if m =? 2 then (if is_leap y then 29 else 28)
  else if (m =? 4) || (m =? 6) || (m =? 9) || (m =? 11) then 30
  else 31.

(** The checks of [datetime.date(y, m, d)]. *)
Definition is_date (y m d : Z) : bool :=
  (1 <=? y) && (y <=? 9999) && (1 <=? m) && (m <=? 12)
  && (1 <=? d) && (d <=? days_in_month y m).

Definition parse_month (s : string) : option (Z * string) :=
  match s with
  | String a (String b r) =>
      if (a =? "1")%char && Str.between 48 50 b then Some (10 + Str.digit_val b, r)
      else if (a =? "0")%char && Str.between 49 57 b then Some (Str.digit_val b, r)
      else if Str.between 49 57 a then Some (Str.digit_val a, String b r)
      else None
  | String a r =>
      if Str.between 49 57 a then Some (Str.digit_val a, r) else None
  | EmptyString => None
  end.

Definition parse_day (s : string) : option (Z * string) :=
  match s with
  | String a (String b r) =>
      if (a =? "3")%char && Str.between 48 49 b then Some (30 + Str.digit_val b, r)
      else if Str.between 49 50 a && Str.is_digit b
           then Some (10 * Str.digit_val a + Str.digit_val b, r)
      else if (a =? "0")%char && Str.between 49 57 b then Some (Str.digit_val b, r)
      else if Str.between 49 57 a then Some (Str.digit_val a, String b r)
      else if (a =? " ")%char && Str.between 49 57 b then Some (Str.digit_val b, r)
      else None
  | String a r =>
      if Str.between 49 57 a then Some (Str.digit_val a, r) else None
  | EmptyString => None
  end.

Definition strptime_Ymd (s : string) : outcome (Z * Z * Z) :=
  let bad := Raise (ValueError "time data does not match format '%Y-%m-%d'") in
  if Str.forallb Str.is_digit (Str.take 4 s) && (4 <=? String.length s)%nat then
    let y := Str.to_int (Str.take 4 s) in
    match Str.drop 4 s with
    | String "-" r =>
        match parse_month r with
        | Some (m, String "-" r') =>
            match parse_day r' with
            | Some (d, EmptyString) =>
                if is_date y m d then Return (y, m, d)
                else Raise (ValueError "day is out of range for month")
            | Some (_, String _ _) => Raise (ValueError "unconverted data remains")
            | None => bad
            end
        | _ => bad
        end
    | _ => bad
    end
  else bad.

End Calendar.

(** ** Data models ([rcv_votes/models.py]) *)

(** [^\d{4}-\d{2}-\d{2}$] *)
Definition date_format : Re.pattern :=
  ([Re.mk_atom Re.Digit 4 (Some 4%nat) false] ++ Re.lit "-" ++
   [Re.mk_atom Re.Digit 2 (Some 2%nat) false] ++ Re.lit "-" ++
   [Re.mk_atom Re.Digit 2 (Some 2%nat) false])%list.

Module VoteRecord.

Record t : Type := mk {
  congress : Z;
  date : string;
  roll_call_number : Z;
  legislation : string;
  vote_cast : string;
  question : string;
  bill_title : string;
  roll_call_vote_url : string
}.

(** [validate], the checks that do not hold by typing. *)
Definition validate (r : t) : outcome unit :=
  if congress r <? 1
  then Raise (ValidationError "Congress number must be a positive integer")
  else if negb (Re.match_whole date_format (date r))
  then Raise (ValidationError "Date must be in YYYY-MM-DD format")
  else if roll_call_number r <? 1
  then Raise (ValidationError "Roll call number must be a positive integer")
  else if negb (Str.nonempty (vote_cast r))
  then Raise (ValidationError "Vote cast must be a non-empty string")
  else Return tt.

(** The constructor: the dataclass's [__init__] followed by [__post_init__]. *)
Definition new (r : t) : outcome t := _ <- validate r ;; Return r.

End VoteRecord.

Module APIVoteData.

Record t : Type := mk {
  congress : Z;
  identifier : Z;
  legislation_number : string;
  legislation_type : string;
  legislation_url : string;
  bio_guide_id : string;
  first_name : string;
  last_name : string;
  vote_cast : string;
  vote_party : string;
  vote_state : string;
  result : string;
  roll_call_number : Z;
  session_number : Z;
  source_data_url : string;
  start_date : string;
  update_date : string;
  vote_question : string;
  vote_type : string
}.

Definition legislation (self : t) : string :=
  if Str.nonempty (legislation_type self) && Str.nonempty (legislation_number self)
  then legislation_type self ++ legislation_number self
  else "Non-Legislative".

Definition validate_for_member (self : t) (target_last_name target_state : string)
  : bool :=
  (Str.lower (last_name self) =? Str.lower target_last_name)%string
  && (Str.upper (vote_state self) =? Str.upper target_state)%string.

End APIVoteData.

Module ScrapedVoteDetails.

Record t : Type := mk {
  question : string;
  bill_title : string;
  date : string
}.

Definition new (r : t) : outcome t :=
  if negb (Re.match_whole date_format (date r))
  then Raise (ValidationError "Date must be in YYYY-MM-DD format")
  else Return r.

End ScrapedVoteDetails.

Module MemberSearchCriteria.

Record t : Type := mk {
  last_name : string;
  state : string;
  congress_numbers : list Z
}.

(** [__post_init__]: the checks, then the clean-up of the two strings. *)
Definition new (last_name state : string) (congress_numbers : list Z) : outcome t :=
  if negb (Str.nonempty last_name)
  then Raise (ValidationError "Last name must be a non-empty string")
  else if negb (Str.nonempty state) || negb (String.length state =? 2)%nat
  then Raise (ValidationError "State must be a 2-letter abbreviation")
  else if match congress_numbers with [] => true | _ => false end
  then Raise (ValidationError "Congress numbers must be a non-empty list")
  else if existsb (fun congress => congress <? 1) congress_numbers
  then Raise (ValidationError "All congress numbers must be positive integers")
  else Return (mk (Str.strip last_name) (Str.upper (Str.strip state)) congress_numbers).

End MemberSearchCriteria.


(** ** The detail enricher ([rcv_votes/web_scraper.py]) *)

(** [match.group(i)], [i] from 1. *)
Definition group (i : nat) (gs : list string) : string := nth (i - 1) gs "".

(** [https://clerk\.house\.gov/evs/(\d{4})/roll(\d+)\.xml] *)
Definition source_url_pattern : Re.pattern :=
  (Re.lit "https://clerk.house.gov/evs/" ++ Re.group Re.Digit 4 4 ++
   Re.lit "/roll" ++ Re.group_plus Re.Digit ++ Re.lit ".xml")%list.

Definition _generate_rcv_url (source_data_url : string) : outcome string :=
  if negb (Str.nonempty source_data_url)
  then Raise (ValidationError "Source data URL must be a non-empty string")
  else
    match Re.search source_url_pattern source_data_url with
    | None =>
        Raise (ValidationError ("Invalid source data URL format: " ++ source_data_url))
    | Some gs =>
        let year := group 1 gs in
        let roll_number := Str.zfill 3 (group 2 gs) in
        Return ("https://clerk.house.gov/Votes/" ++ year ++ roll_number)
    end.

Definition not_eol : Re.cclass := Re.NoneOf ["010"; "013"; "<"]%char.

(** [head\s*([^\n\r<]+)] under [re.IGNORECASE] *)
Definition labelled (head : string) : Re.pattern :=
  (Re.lit_i head ++ Re.star Re.Space ++ Re.group_plus not_eol)%list.

Definition question_patterns : list Re.pattern :=
  [labelled "QUESTION:"; labelled "<b>QUESTION:</b>"; labelled "Question:";
   labelled "QUESTION"].

Definition bill_title_patterns : list Re.pattern :=
  [labelled "BILL TITLE:"; labelled "<b>BILL TITLE:</b>"; labelled "Bill Title:";
   labelled "BILL TITLE"; labelled "Title:"].

(** The loop shared by [_extract_question] and [_extract_bill_title]: the
    first pattern whose first group, stripped, is not empty. *)
Fixpoint first_stripped_group (patterns : list Re.pattern) (html_content : string)
  : string :=
  match patterns with
  | [] => ""
  | pattern :: rest =>
      match Re.search pattern html_content with
      | Some gs =>
          let found := Str.strip (group 1 gs) in
          if Str.nonempty found then found else first_stripped_group rest html_content
      | None => first_stripped_group rest html_content
      end
  end.

Definition _extract_question : string -> string :=
  first_stripped_group question_patterns.

Definition _extract_bill_title : string -> string :=
  first_stripped_group bill_title_patterns.

Definition date_patterns : list Re.pattern :=
  [ (Re.group Re.Digit 1 2 ++ Re.lit "-" ++ Re.group Re.Alpha 3 3 ++ Re.lit "-" ++
     Re.group Re.Digit 4 4)%list;                       (* 3-Mar-2025 *)
    (Re.group Re.Digit 1 2 ++ Re.lit "/" ++ Re.group Re.Digit 1 2 ++ Re.lit "/" ++
     Re.group Re.Digit 4 4)%list;                       (* 3/15/2025 *)
    (Re.group Re.Digit 4 4 ++ Re.lit "-" ++ Re.group Re.Digit 1 2 ++ Re.lit "-" ++
     Re.group Re.Digit 1 2)%list ].                     (* 2025-03-15 *)

Definition month_map : list (string * string) :=
  [("jan", "01"); ("feb", "02"); ("mar", "03"); ("apr", "04");
   ("may", "05"); ("jun", "06"); ("jul", "07"); ("aug", "08");
   ("sep", "09"); ("oct", "10"); ("nov", "11"); ("dec", "12")].

(** [dict.get] *)
Fixpoint dict_get (key : string) (d : list (string * string)) : option string :=
  match d with
  | [] => None
  | (k, v) :: d' => if (k =? key)%string then Some v else dict_get key d'
  end.

Definition validated (formatted_date : string) : outcome (option string) :=
  _ <- Calendar.strptime_Ymd formatted_date ;; Return (Some formatted_date).

(** The body of the [try] for the pattern of index [i]: [Return (Some d)]
    when the function returns [d], [Return None] when the body ends without
    a [return] (an unknown month name). *)
Definition format_candidate (i : nat) (gs : list string) : outcome (option string) :=
  match i with
  | 0%nat =>
      let day := Str.zfill 2 (group 1 gs) in
      let month_abbr := group 2 gs in
      let year := group 3 gs in
      match dict_get (Str.lower month_abbr) month_map with
      | Some month_num => validated (year ++ "-" ++ month_num ++ "-" ++ day)
      | None => Return None
      end
  | 1%nat =>
      let month := Str.zfill 2 (group 1 gs) in
      let day := Str.zfill 2 (group 2 gs) in
      let year := group 3 gs in
      validated (year ++ "-" ++ month ++ "-" ++ day)
  | 2%nat =>
      let year := group 1 gs in
      let month := Str.zfill 2 (group 2 gs) in
      let day := Str.zfill 2 (group 3 gs) in
      validated (year ++ "-" ++ month ++ "-" ++ day)
  | _ => Return None
  end.

(** [for i, pattern in enumerate(date_patterns)], from index [i] on. *)
Fixpoint extract_date_from (i : nat) (patterns : list Re.pattern) (html_content : string)
  : outcome string :=
  match patterns with
  | [] => Return ""
  | pattern :: rest =>
      match Re.search pattern html_content with
      | Some gs =>
          match format_candidate i gs with
          | Return (Some formatted_date) => Return formatted_date
          | Return None => extract_date_from (S i) rest html_content
          | Raise (ValueError _) => extract_date_from (S i) rest html_content
          | Raise e => Raise e
          end
      | None => extract_date_from (S i) rest html_content
      end
  end.

Definition _extract_date (html_content : string) : outcome string :=
  extract_date_from 0 date_patterns html_content.

Definition fallback_date : string := "1900-01-01".

Section Scraper.

(** [self.session.get(url, timeout=30)], [raise_for_status()] and [.text]. *)
Variable http_get : string -> outcome string.

(** The three variables at the end of the [try] statement; both [except]
    clauses only log. *)
Definition scrape (source_data_url : string) : string * string * string :=
  match _generate_rcv_url source_data_url with
  | Raise _ => ("", "", "")
  | Return rcv_url =>
      match http_get rcv_url with
      | Raise _ => ("", "", "")
      | Return text =>
          let question := _extract_question text in
          let bill_title := _extract_bill_title text in
          match _extract_date text with
          | Return date => (question, bill_title, date)
          | Raise _ => (question, bill_title, "")
          end
      end
  end.

Definition extract_vote_details (source_data_url : string)
  : outcome ScrapedVoteDetails.t :=
  let '(question, bill_title, date) := scrape source_data_url in
  let date := if Str.nonempty date then date else fallback_date in
  ScrapedVoteDetails.new (ScrapedVoteDetails.mk question bill_title date).

End Scraper.

(** ** The collection orchestrator ([rcv_votes/vote_collector.py]) *)

Definition len {A : Type} (l : list A) : Z := Z.of_nat (length l).

(** Truthiness of [max_votes]: [None] and [0] are false. *)
Definition truthy (max_votes : option Z) : bool :=
  match max_votes with
  | Some m => negb (m =? 0)
  | None => false
  end.

(** [max_votes and len(votes) >= max_votes] *)
Definition cap_reached {A : Type} (max_votes : option Z) (votes : list A) : bool :=
  match max_votes with
  | Some m => negb (m =? 0) && (m <=? len votes)
  | None => false
  end.

(** [max_votes - len(votes) if max_votes else None] *)
Definition remaining {A : Type} (max_votes : option Z) (votes : list A) : option Z :=
  match max_votes with
  | Some m => if negb (m =? 0) then Some (m - len votes) else None
  | None => None
  end.

(** [votes[:m]] *)
Definition slice_to {A : Type} (m : Z) (votes : list A) : list A :=
  if m <? 0 then firstn (Z.to_nat (len votes + m)) votes
  else firstn (Z.to_nat m) votes.

Definition _generate_roll_call_url (source_data_url : string) : outcome string :=
  try_except
    (match Re.search source_url_pattern source_data_url with
     | Some gs =>
         let year := group 1 gs in
         let roll_number := Str.zfill 3 (group 2 gs) in
         Return ("https://clerk.house.gov/Votes/" ++ year ++ roll_number)
     | None => Return source_data_url   (* Fallback: return the source URL *)
     end)
    (fun _ => Return source_data_url).

Definition _find_member_vote (api_vote_data : list APIVoteData.t)
  (last_name state : string) : option APIVoteData.t :=
  find (fun vote_data => APIVoteData.validate_for_member vote_data last_name state)
       api_vote_data.

(** The date of the finished record: the scraped one unless it is the
    fallback and the API's [start_date] starts with a date. *)
Definition merged_date (scraped_date start_date : string) : string :=
  if (scraped_date =? fallback_date)%string then
    let api_date := Str.split_head "T" start_date in
    if Re.match_whole date_format api_date then api_date else scraped_date
  else scraped_date.

Definition merged_question (scraped_question vote_question : string) : string :=
  if Str.nonempty scraped_question then scraped_question else vote_question.

(** The state of one session scan: the three local variables of
    [_collect_session_votes]. *)
Record scan : Type := mk_scan {
  session_votes : list VoteRecord.t;
  vote_number : Z;
  consecutive_failures : Z
}.

Definition max_consecutive_failures : Z := 5.

(** What one pass through the body of the [while] loop does. *)
Inductive pass : Type :=
| Continue (s : scan)    (* back to the loop's test *)
| Break (s : scan)       (* [break] *)
| Abort (e : exn).       (* an exception leaves the function *)

Section Collector.

Variable get_house_vote_members : Z -> Z -> Z -> outcome (list APIVoteData.t).
Variable http_get : string -> outcome string.

(** The [if member_vote:] block: the finished record of a matched member. *)
Definition finished_record (member_vote : APIVoteData.t) : outcome VoteRecord.t :=
  scraped_details <- extract_vote_details http_get (APIVoteData.source_data_url member_vote) ;;
  let question :=
    merged_question (ScrapedVoteDetails.question scraped_details)
                    (APIVoteData.vote_question member_vote) in
  let date :=
    merged_date (ScrapedVoteDetails.date scraped_details)
                (APIVoteData.start_date member_vote) in
  roll_call_vote_url <- _generate_roll_call_url (APIVoteData.source_data_url member_vote) ;;
  VoteRecord.new
    (VoteRecord.mk (APIVoteData.congress member_vote)
                   date
                   (APIVoteData.roll_call_number member_vote)
                   (APIVoteData.legislation member_vote)
                   (APIVoteData.vote_cast member_vote)
                   question
                   (ScrapedVoteDetails.bill_title scraped_details)
                   roll_call_vote_url).

(** The [except APIError] clause: both branches count the failure, move on
    to the next vote number and leave the loop at the fifth in a row. *)
Definition on_api_error (s : scan) : pass :=
  let s' := mk_scan (session_votes s) (vote_number s + 1) (consecutive_failures s + 1) in
  if max_consecutive_failures <=? consecutive_failures s' then Break s' else Continue s'.

Definition loop_body (congress session : Z) (last_name state : string) (s : scan)
  : pass :=
  match get_house_vote_members congress session (vote_number s) with
  | Return api_vote_data =>
      match _find_member_vote api_vote_data last_name state with
      | Some member_vote =>
          match finished_record member_vote with
          | Return vote_record =>
              Continue (mk_scan (session_votes s ++ [vote_record]) (vote_number s + 1) 0)
          | Raise e => if is_APIError e then on_api_error s else Abort e
          end
      | None => Continue (mk_scan (session_votes s) (vote_number s + 1) 0)
      end
  | Raise e => if is_APIError e then on_api_error s else Abort e
  end.

(** [while consecutive_failures < max_consecutive_failures:], the state it
    ends in. *)
Fixpoint while_loop (fuel : nat) (congress session : Z) (last_name state : string)
  (max_votes : option Z) (s : scan) : option (outcome scan) :=
  match fuel with
  | O => None
  | S fuel' =>
      if consecutive_failures s <? max_consecutive_failures then
        if cap_reached max_votes (session_votes s) then Some (Return s)
        else
          match loop_body congress session last_name state s with
          | Continue s' => while_loop fuel' congress session last_name state max_votes s'
          | Break s' => Some (Return s')
          | Abort e => Some (Raise e)
          end
      else Some (Return s)
  end.

Definition scan_start : scan := mk_scan [] 1 0.

Definition lift {A B : Type} (f : A -> B) (r : option (outcome A)) : option (outcome B) :=
  match r with
  | Some (Return a) => Some (Return (f a))
  | Some (Raise e) => Some (Raise e)
  | None => None
  end.

Definition _collect_session_votes (fuel : nat) (congress session : Z)
  (last_name state : string) (max_votes : option Z)
  : option (outcome (list VoteRecord.t)) :=
  lift session_votes
       (while_loop fuel congress session last_name state max_votes scan_start).

(** [for session in sessions:] with [congress_votes] collected so far. *)
Fixpoint session_loop (fuel : nat) (congress : Z) (last_name state : string)
  (max_votes : option Z) (sessions : list Z) (congress_votes : list VoteRecord.t)
  : option (outcome (list VoteRecord.t)) :=
  match sessions with
  | [] => Some (Return congress_votes)
  | session :: rest =>
      if cap_reached max_votes congress_votes then Some (Return congress_votes)
      else
        match _collect_session_votes fuel congress session last_name state
                (remaining max_votes congress_votes) with
        | Some (Return session_votes) =>
            session_loop fuel congress last_name state max_votes rest
                         (congress_votes ++ session_votes)
        | Some (Raise e) => Some (Raise e)
        | None => None
        end
  end.

Definition _collect_congress_votes (fuel : nat) (congress : Z)
  (last_name state : string) (max_votes : option Z)
  : option (outcome (list VoteRecord.t)) :=
  session_loop fuel congress last_name state max_votes [1; 2] [].

(** [for congress in search_criteria.congress_numbers:] with [all_votes]
    collected so far. *)
Fixpoint congress_loop (fuel : nat) (last_name state : string)
  (max_votes : option Z) (congresses : list Z) (all_votes : list VoteRecord.t)
  : option (outcome (list VoteRecord.t)) :=
  match congresses with
  | [] => Some (Return all_votes)
  | congress :: rest =>
      if cap_reached max_votes all_votes then Some (Return all_votes)
      else
        match _collect_congress_votes fuel congress last_name state
                (remaining max_votes all_votes) with
        | Some (Return congress_votes) =>
            let all_votes := (all_votes ++ congress_votes)%list in
            if cap_reached max_votes all_votes
            then Some (Return (match max_votes with
                               | Some m => slice_to m all_votes
                               | None => all_votes
                               end))
            else congress_loop fuel last_name state max_votes rest all_votes
        | Some (Raise e) => Some (Raise e)
        | None => None
        end
  end.

(** The [except Exception] clause logs and raises the exception again. *)
Definition collect_member_votes (fuel : nat) (search_criteria : MemberSearchCriteria.t)
  (max_votes : option Z) : option (outcome (list VoteRecord.t)) :=
  match congress_loop fuel
          (MemberSearchCriteria.last_name search_criteria)
          (MemberSearchCriteria.state search_criteria)
          max_votes
          (MemberSearchCriteria.congress_numbers search_criteria) [] with
  | Some body => Some (try_except body (fun e => Raise e))
  | None => None
  end.

End Collector.

(** ** The remote record fetcher ([rcv_votes/congress_api.py])

    The requests of one call of [get_house_vote_members].  The HTTP session
    is a parameter: the reply to each request of the call, in the order of
    the requests.  The waits between the attempts are left out. *)

Module Fetcher.

(** What the fetcher reads of a response. *)
Record response : Type := mk_response {
  status_code : Z;
  (** [int(response.headers.get('Retry-After', 60))], which raises when the
      header is not an integer *)
  retry_after : outcome Z;
  (** [response.json() if response.content else None], which raises when the
      content is not JSON: the text of the ['error'] entry of an object that
      has one *)
  error_data : outcome (option string)
}.

(** What [session.get] does: it answers, or it raises. *)
Inductive reply : Type :=
| Answer (r : response)
| Timeout (message : string)            (* requests.exceptions.Timeout *)
| ConnectionError (message : string)    (* requests.exceptions.ConnectionError *)
| Fails (e : exn).                      (* any other exception *)

(** [str(n)] *)
Definition str_int (n : Z) : string := NilZero.string_of_int (Z.to_int n).

Definition status_message (r : response) (data : option string) : string :=
  "API request failed with status " ++ str_int (status_code r)
    ++ match data with
       | Some text => ": " ++ text
       | None => ""
       end.

Section Requests.

(** The reply to the request of each attempt, counted from 0. *)
Variable session_get : nat -> reply.

(** [attempt < max_retries - 1] *)
Definition may_retry (max_retries attempt : nat) : bool :=
  (attempt <? max_retries - 1)%nat.

(** [for attempt in range(max_retries):] from [attempt] on, with [left]
    passes to go, and the [raise] after the loop. *)
Fixpoint attempts (max_retries attempt left : nat) : outcome response :=
  match left with
  | O => Raise (APIError "Unexpected error in request retry logic" None)
  | S left' =>
      match session_get attempt with
      | Answer r =>
          if status_code r =? 429 then
            _ <- retry_after r ;;
            if may_retry max_retries attempt then attempts max_retries (S attempt) left'
            else Raise (APIError "Rate limit exceeded after all retries"
                                 (Some (status_code r)))
          else if status_code r =? 404 then
            _ <- error_data r ;;
            Raise (APIError "Vote not found" (Some 404))
          else if 400 <=? status_code r then
            data <- error_data r ;;
            Raise (APIError (status_message r data) (Some (status_code r)))
          else Return r
      | Timeout _ =>
          if may_retry max_retries attempt then attempts max_retries (S attempt) left'
          else Raise (APIError ("Request timed out after "
                                  ++ str_int (Z.of_nat max_retries) ++ " attempts") None)
      | ConnectionError _ =>
          if may_retry max_retries attempt then attempts max_retries (S attempt) left'
          else Raise (APIError ("Connection failed after "
                                  ++ str_int (Z.of_nat max_retries) ++ " attempts") None)
      | Fails e => Raise e
      end
  end.

(** [max_retries] is a count: a negative one runs the loop as 0 does. *)
Definition _make_request_with_retry (max_retries : nat) : outcome response :=
  attempts max_retries 0 max_retries.

(** [max_retries: int = 3] *)
Definition default_max_retries : nat := 3.

(** [self._parse_vote_response(response.json())] *)
Variable parse : response -> outcome (list APIVoteData.t).

(** [except requests.exceptions.RequestException as e: raise APIError(...)] *)
Definition get_house_vote_members : outcome (list APIVoteData.t) :=
  match (response <- _make_request_with_retry default_max_retries ;; parse response) with
  | Raise (RequestException message) =>
      Raise (APIError ("Failed to retrieve vote data: " ++ message) None)
  | other => other
  end.

End Requests.

(** A reply after which the fetcher tries again, unless the attempt was the
    last one. *)
Definition retriable (r : reply) : Prop :=
  match r with
  | Answer r => status_code r = 429 /\ exists seconds, retry_after r = Return seconds
  | Timeout _ | ConnectionError _ => True
  | Fails _ => False
  end.

End Fetcher.

(** ** Sample data: a mocked fetcher and a mocked clerk's site *)

Module Sample.

Definition member_vote (last_name state : string) (congress session number : Z)
  : APIVoteData.t :=
  APIVoteData.mk congress 1181202355 "758" "HR" "https://www.congress.gov/bill/hr758"
    "D000001" "Jane" last_name "Yea" "D" state "Passed" number session
    "https://clerk.house.gov/evs/2023/roll055.xml"
    "2023-01-03T12:28:00-05:00" "2023-01-04T08:00:00-05:00"
    "Q_API" "YEA-AND-NAY".

Definition not_found : outcome (list APIVoteData.t) :=
  Raise (APIError "Vote not found" (Some 404)).

(** One roll call, in the first session of the 118th Congress; the member
    DOE of tx voted in it.  Every other key is not found. *)
Definition api_one (congress session number : Z) : outcome (list APIVoteData.t) :=
  if (congress =? 118) && (session =? 1) && (number =? 1)
  then Return [member_vote "Roe" "NY" congress session number;
               member_vote "DOE" "tx" congress session number]
  else not_found.

(** Two roll calls in each session of every congress. *)
Definition api_two (congress session number : Z) : outcome (list APIVoteData.t) :=
  if (1 <=? number) && (number <=? 2)
  then Return [member_vote "Doe" "TX" congress session number]
  else not_found.

(** As [api_one], but the answer for the second roll call is malformed. *)
Definition api_malformed (congress session number : Z) : outcome (list APIVoteData.t) :=
  if (congress =? 118) && (session =? 1) && (number =? 2)
  then Raise (ValidationError "Vote metadata missing required field: result")
  else api_one congress session number.

(** Every roll call lists the member DOE of TX, with no vote cast. *)
Definition api_blank (congress session number : Z) : outcome (list APIVoteData.t) :=
  Return [APIVoteData.mk congress 1181202355 "758" "HR"
            "https://www.congress.gov/bill/hr758"
            "D000001" "Jane" "Doe" "" "D" "TX" "Passed" number session
            "https://clerk.house.gov/evs/2023/roll055.xml"
            "2023-01-03T12:28:00-05:00" "2023-01-04T08:00:00-05:00"
            "Q_API" "YEA-AND-NAY"].

Definition site_down (url : string) : outcome string :=
  Raise (RequestException "connection refused").

Definition site_page (url : string) : outcome string :=
  Return "<p>QUESTION: Q_SCRAPED</p><p>BILL TITLE: Some Act</p><p>3-Mar-2023</p>".

Definition doe : MemberSearchCriteria.t := MemberSearchCriteria.mk "Doe" "TX" [118].

Definition doe_two : MemberSearchCriteria.t :=
  MemberSearchCriteria.mk "Doe" "TX" [118; 119].

End Sample.

(** * Properties *)

Local Open Scope list_scope.

(** ** Display-URL derivation *)

Lemma generate_rcv_url_no_match (s : string) :
  Re.search source_url_pattern s = None ->
  exists message, _generate_rcv_url s = Raise (ValidationError message).
Proof.
  intros Hs. unfold _generate_rcv_url.
  destruct (Str.nonempty s); cbn [negb]; rewrite ?Hs; eauto.
Qed.

Lemma generate_roll_call_url_no_match (s : string) :
  Re.search source_url_pattern s = None ->
  _generate_roll_call_url s = Return s.
Proof.
  intros Hs. unfold _generate_roll_call_url. now rewrite Hs.
Qed.

Lemma generate_roll_call_url_returns (s : string) :
  exists url, _generate_roll_call_url s = Return url.
Proof.
  unfold _generate_roll_call_url.
  destruct (Re.search source_url_pattern s); cbn; eauto.
Qed.

Definition empty_details : ScrapedVoteDetails.t :=
  ScrapedVoteDetails.mk "" "" fallback_date.

Lemma extract_vote_details_of_scrape (http_get : string -> outcome string) (s : string) :
  scrape http_get s = ("", "", "") ->
  extract_vote_details http_get s = Return empty_details.
Proof.
  intros H. unfold extract_vote_details. rewrite H. reflexivity.
Qed.

(** C3: on the docstring's own example and on the claim's input the derived
    address carries the padded roll number, [2025055], and not [202555] as
    both docstrings say; the strict and the orchestrator's function agree. *)
Theorem generate_rcv_url_pads_roll_number :
  _generate_rcv_url "https://clerk.house.gov/evs/2025/roll55.xml"
    = Return "https://clerk.house.gov/Votes/2025055"
  /\ _generate_rcv_url "https://clerk.house.gov/evs/2025/roll055.xml"
    = Return "https://clerk.house.gov/Votes/2025055"
  /\ _generate_roll_call_url "https://clerk.house.gov/evs/2025/roll55.xml"
    = Return "https://clerk.house.gov/Votes/2025055"
  /\ _generate_roll_call_url "https://clerk.house.gov/evs/2025/roll055.xml"
    = Return "https://clerk.house.gov/Votes/2025055"
  /\ _generate_rcv_url "https://clerk.house.gov/evs/2025/roll055.xml"
    <> Return "https://clerk.house.gov/Votes/202555".
Proof.
  repeat split; try reflexivity.
  vm_compute. discriminate.
Qed.

(** C4, as the claim states it, fails: the orchestrator's derivation hands a
    reference that does not match back unchanged and raises nothing. *)
Lemma orchestrator_url_no_validation_fault :
  ~ (forall s : string,
        Re.search source_url_pattern s = None ->
        exists message, _generate_roll_call_url s = Raise (ValidationError message)).
Proof.
  intros H. destruct (H "https://host/evs/2025/roll55.xml" eq_refl) as [message Hm].
  vm_compute in Hm. discriminate.
Qed.

(** C4, amended: for a reference that does not match the pattern, the
    orchestrator's derivation returns the reference itself, the enricher's
    strict derivation raises a [ValidationError], and the enrichment swallows
    it and returns the empty details, whatever the site answers. *)
Theorem url_derivation_on_mismatch (http_get : string -> outcome string) (s : string) :
  Re.search source_url_pattern s = None ->
  _generate_roll_call_url s = Return s
  /\ (exists message, _generate_rcv_url s = Raise (ValidationError message))
  /\ extract_vote_details http_get s = Return empty_details.
Proof.
  intros Hs. split; [|split].
  - now apply generate_roll_call_url_no_match.
  - now apply generate_rcv_url_no_match.
  - apply extract_vote_details_of_scrape. unfold scrape.
    destruct (generate_rcv_url_no_match s Hs) as [message ->]. reflexivity.
Qed.

Lemma url_derivation_on_mismatch_witness :
  Re.search source_url_pattern "https://host/evs/2025/roll55.xml" = None
  /\ _generate_roll_call_url "https://host/evs/2025/roll55.xml"
     = Return "https://host/evs/2025/roll55.xml"
  /\ extract_vote_details Sample.site_page "https://host/evs/2025/roll55.xml"
     = Return empty_details.
Proof.
  split; [reflexivity|].
  destruct (url_derivation_on_mismatch Sample.site_page
              "https://host/evs/2025/roll55.xml" eq_refl) as [H1 [_ H3]].
  split; [exact H1 | exact H3].
Defined.

(** ** Search criteria *)

(** C9: the length of [state] is checked before it is stripped, so a state
    of a letter and a blank is accepted and stored as one character. *)
Theorem search_criteria_state_stripped_after_check :
  exists search_criteria,
    MemberSearchCriteria.new "Doe" "a " [118] = Return search_criteria
    /\ MemberSearchCriteria.state search_criteria = "A"
    /\ String.length (MemberSearchCriteria.state search_criteria) = 1%nat.
Proof.
  eexists. repeat split.
Qed.

(** ** The finished record *)

Lemma VoteRecord_new_inv (r r' : VoteRecord.t) :
  VoteRecord.new r = Return r' -> r' = r.
Proof.
  unfold VoteRecord.new. destruct (VoteRecord.validate r) as [[]|e]; cbn.
  - now intros [= <-].
  - discriminate.
Qed.

Lemma finished_record_inv (http_get : string -> outcome string)
  (member_vote : APIVoteData.t) (vote_record : VoteRecord.t) :
  finished_record http_get member_vote = Return vote_record ->
  exists scraped_details roll_call_vote_url,
    extract_vote_details http_get (APIVoteData.source_data_url member_vote)
      = Return scraped_details
    /\ _generate_roll_call_url (APIVoteData.source_data_url member_vote)
      = Return roll_call_vote_url
    /\ vote_record =
         VoteRecord.mk (APIVoteData.congress member_vote)
           (merged_date (ScrapedVoteDetails.date scraped_details)
                        (APIVoteData.start_date member_vote))
           (APIVoteData.roll_call_number member_vote)
           (APIVoteData.legislation member_vote)
           (APIVoteData.vote_cast member_vote)
           (merged_question (ScrapedVoteDetails.question scraped_details)
                            (APIVoteData.vote_question member_vote))
           (ScrapedVoteDetails.bill_title scraped_details)
           roll_call_vote_url.
Proof.
  unfold finished_record.
  destruct (extract_vote_details _ _) as [scraped_details|e]; cbn [bind]; [|discriminate].
  destruct (_generate_roll_call_url _) as [url|e]; cbn [bind]; [|discriminate].
  intros H. apply VoteRecord_new_inv in H. eauto.
Qed.

(** C7: the finished record carries the scraped question when there is one
    and the API's question when the scraped one is empty. *)
Theorem merge_question_precedence (http_get : string -> outcome string)
  (member_vote : APIVoteData.t) (scraped_details : ScrapedVoteDetails.t)
  (vote_record : VoteRecord.t) :
  extract_vote_details http_get (APIVoteData.source_data_url member_vote)
    = Return scraped_details ->
  finished_record http_get member_vote = Return vote_record ->
  (ScrapedVoteDetails.question scraped_details = "" ->
   VoteRecord.question vote_record = APIVoteData.vote_question member_vote)
  /\ (ScrapedVoteDetails.question scraped_details <> "" ->
      VoteRecord.question vote_record = ScrapedVoteDetails.question scraped_details).
Proof.
  intros Hd Hr.
  destruct (finished_record_inv _ _ _ Hr) as (d & url & Hd' & _ & ->).
  rewrite Hd in Hd'. injection Hd' as <-. cbn [VoteRecord.question].
  unfold merged_question.
  destruct (ScrapedVoteDetails.question scraped_details); cbn; split; congruence.
Qed.

Lemma sample_details_down :
  extract_vote_details Sample.site_down
    (APIVoteData.source_data_url (Sample.member_vote "Doe" "TX" 118 1 1))
  = Return empty_details.
Proof. vm_compute. reflexivity. Qed.

Lemma sample_details_page :
  extract_vote_details Sample.site_page
    (APIVoteData.source_data_url (Sample.member_vote "Doe" "TX" 118 1 1))
  = Return (ScrapedVoteDetails.mk "Q_SCRAPED" "Some Act" "2023-03-03").
Proof. vm_compute. reflexivity. Qed.

Definition sample_record (date question bill_title : string) : VoteRecord.t :=
  VoteRecord.mk 118 date 1 "HR758" "Yea" question bill_title
    "https://clerk.house.gov/Votes/2023055".

Lemma sample_record_down :
  finished_record Sample.site_down (Sample.member_vote "Doe" "TX" 118 1 1)
  = Return (sample_record "2023-01-03" "Q_API" "").
Proof. vm_compute. reflexivity. Qed.

Lemma sample_record_page :
  finished_record Sample.site_page (Sample.member_vote "Doe" "TX" 118 1 1)
  = Return (sample_record "2023-03-03" "Q_SCRAPED" "Some Act").
Proof. vm_compute. reflexivity. Qed.

Lemma merge_question_precedence_witness :
  VoteRecord.question (sample_record "2023-01-03" "Q_API" "") = "Q_API"
  /\ VoteRecord.question (sample_record "2023-03-03" "Q_SCRAPED" "Some Act") = "Q_SCRAPED".
Proof.
  split.
  - apply (proj1 (merge_question_precedence Sample.site_down _ _ _
                    sample_details_down sample_record_down)).
    reflexivity.
  - apply (proj2 (merge_question_precedence Sample.site_page _ _ _
                    sample_details_page sample_record_page)).
    discriminate.
Defined.

(** ** The session scan *)

Section ScanFacts.

Variable get_house_vote_members : Z -> Z -> Z -> outcome (list APIVoteData.t).
Variable http_get : string -> outcome string.
Variables (congress session : Z) (last_name state : string).

Let body := loop_body get_house_vote_members http_get congress session last_name state.
Let loop (fuel : nat) :=
  while_loop get_house_vote_members http_get fuel congress session last_name state.

(** A finished record is only ever refused with a [ValidationError]. *)
Lemma finished_record_raises (member_vote : APIVoteData.t) (e : exn) :
  finished_record http_get member_vote = Raise e -> is_APIError e = false.
Proof.
  unfold finished_record, extract_vote_details, ScrapedVoteDetails.new, VoteRecord.new,
    VoteRecord.validate.
  destruct (scrape _ _) as [[q b] d].
  destruct (negb (Re.match_whole date_format _)); cbn [bind].
  - now intros [= <-].
  - destruct (generate_roll_call_url_returns (APIVoteData.source_data_url member_vote))
      as [url ->]; cbn [bind VoteRecord.congress VoteRecord.date
                         VoteRecord.roll_call_number VoteRecord.vote_cast].
    repeat match goal with
           | |- context [if ?c then _ else _] => destruct c; cbn [bind]
           end; try discriminate; now intros [= <-].
Qed.

(** More precisely, with the [ValidationError] of one of the two
    constructors. *)
Lemma finished_record_refused (member_vote : APIVoteData.t) (e : exn) :
  finished_record http_get member_vote = Raise e ->
  exists message : string, e = ValidationError message.
Proof.
  unfold finished_record, extract_vote_details, ScrapedVoteDetails.new, VoteRecord.new,
    VoteRecord.validate.
  destruct (scrape _ _) as [[q b] d].
  destruct (negb (Re.match_whole date_format _)); cbn [bind].
  - intros [= <-]. eauto.
  - destruct (generate_roll_call_url_returns (APIVoteData.source_data_url member_vote))
      as [url ->]; cbn [bind VoteRecord.congress VoteRecord.date
                         VoteRecord.roll_call_number VoteRecord.vote_cast].
    repeat match goal with
           | |- context [if ?c then _ else _] => destruct c; cbn [bind]
           end; try discriminate; intros [= <-]; eauto.
Qed.

Lemma body_api_error (s : scan) (message : string) (status_code : option Z) :
  get_house_vote_members congress session (vote_number s)
    = Raise (APIError message status_code) ->
  body s = on_api_error s.
Proof.
  intros H. unfold body, loop_body. now rewrite H.
Qed.

Lemma body_other_error (s : scan) (e : exn) :
  get_house_vote_members congress session (vote_number s) = Raise e ->
  is_APIError e = false ->
  body s = Abort e.
Proof.
  intros H He. unfold body, loop_body. now rewrite H, He.
Qed.

Lemma body_success (s : scan) (api_vote_data : list APIVoteData.t) :
  get_house_vote_members congress session (vote_number s) = Return api_vote_data ->
  body s =
    match _find_member_vote api_vote_data last_name state with
    | None => Continue (mk_scan (session_votes s) (vote_number s + 1) 0)
    | Some member_vote =>
        match finished_record http_get member_vote with
        | Return vote_record =>
            Continue (mk_scan (session_votes s ++ [vote_record]) (vote_number s + 1) 0)
        | Raise e => Abort e
        end
    end.
Proof.
  intros H. unfold body, loop_body. rewrite H.
  destruct (_find_member_vote _ _ _) as [member_vote|]; [|reflexivity].
  destruct (finished_record http_get member_vote) as [r|e] eqn:Hr; [reflexivity|].
  now rewrite (finished_record_raises _ _ Hr).
Qed.

(** One pass moves to the next vote number, and keeps the collected records
    or adds one to them. *)
Lemma body_step (s : scan) :
  match body s with
  | Continue s' =>
      vote_number s' = vote_number s + 1
      /\ (session_votes s' = session_votes s
          \/ exists r, session_votes s' = session_votes s ++ [r])
  | Break s' =>
      vote_number s' = vote_number s + 1 /\ session_votes s' = session_votes s
  | Abort e => is_APIError e = false
  end.
Proof.
  assert (Hf : match on_api_error s with
               | Continue s' =>
                   vote_number s' = vote_number s + 1
                   /\ (session_votes s' = session_votes s
                       \/ exists r, session_votes s' = session_votes s ++ [r])
               | Break s' =>
                   vote_number s' = vote_number s + 1
                   /\ session_votes s' = session_votes s
               | Abort e => is_APIError e = false
               end).
  { unfold on_api_error. destruct (_ <=? _); cbn; auto. }
  unfold body, loop_body.
  destruct (get_house_vote_members _ _ _) as [data|e].
  - destruct (_find_member_vote _ _ _) as [member_vote|].
    + destruct (finished_record http_get member_vote) as [r|e] eqn:Hr.
      * cbn. eauto.
      * rewrite (finished_record_raises _ _ Hr). exact (finished_record_raises _ _ Hr).
    + cbn. auto.
  - destruct (is_APIError e) eqn:He; [exact Hf | exact He].
Qed.

(** The counter stays between 0 and 5, and a [break] of the body is at 5. *)
Lemma body_counter (s : scan) :
  0 <= consecutive_failures s < max_consecutive_failures ->
  match body s with
  | Continue s' => 0 <= consecutive_failures s' < max_consecutive_failures
  | Break s' => consecutive_failures s' = max_consecutive_failures
  | Abort _ => True
  end.
Proof.
  unfold max_consecutive_failures. intros Hc.
  assert (Hf : match on_api_error s with
               | Continue s' => 0 <= consecutive_failures s' < 5
               | Break s' => consecutive_failures s' = 5
               | Abort _ => True
               end).
  { unfold on_api_error, max_consecutive_failures. cbn [consecutive_failures].
    destruct (Z.leb_spec 5 (consecutive_failures s + 1)); cbn; lia. }
  unfold body, loop_body.
  destruct (get_house_vote_members _ _ _) as [data|e].
  - destruct (_find_member_vote _ _ _) as [member_vote|].
    + destruct (finished_record http_get member_vote) as [r|e] eqn:Hr.
      * cbn. lia.
      * rewrite (finished_record_raises _ _ Hr). exact I.
    + cbn. lia.
  - destruct (is_APIError e); [exact Hf | exact I].
Qed.

(** The scan returns only through the loop's test, the cap's [break] or the
    fifth failure's [break]. *)
Lemma loop_returns (fuel : nat) :
  forall (max_votes : option Z) (s s_end : scan),
    loop fuel max_votes s = Some (Return s_end) ->
    0 <= consecutive_failures s <= max_consecutive_failures ->
    consecutive_failures s_end = max_consecutive_failures
    \/ cap_reached max_votes (session_votes s_end) = true.
Proof.
  unfold loop.
  induction fuel as [|fuel IH]; intros max_votes s s_end; cbn [while_loop]; [discriminate|].
  intros H Hc.
  destruct (Z.ltb_spec (consecutive_failures s) max_consecutive_failures) as [Hlt|Hge].
  - destruct (cap_reached max_votes (session_votes s)) eqn:Hcap.
    + injection H as <-. now right.
    + pose proof (body_counter s (conj (proj1 Hc) Hlt)) as Hs. unfold body in Hs.
      destruct (loop_body _ _ _ _ _ _ s) as [s'|s'|e].
      * apply (IH _ _ _ H). lia.
      * injection H as <-. now left.
      * discriminate.
  - injection H as <-. left. lia.
Qed.

(** The records of the state the scan ends in extend those it started from. *)
Lemma loop_extends (fuel : nat) :
  forall (max_votes : option Z) (s s_end : scan),
    loop fuel max_votes s = Some (Return s_end) ->
    exists more, session_votes s_end = session_votes s ++ more.
Proof.
  unfold loop.
  induction fuel as [|fuel IH]; intros max_votes s s_end; cbn [while_loop]; [discriminate|].
  intros H.
  assert (Hnil : exists more, session_votes s = session_votes s ++ more)
    by (exists []; now rewrite app_nil_r).
  destruct (consecutive_failures s <? max_consecutive_failures);
    [|injection H as <-; exact Hnil].
  destruct (cap_reached max_votes (session_votes s)); [injection H as <-; exact Hnil|].
  pose proof (body_step s) as Hs. unfold body in Hs.
  destruct (loop_body _ _ _ _ _ _ s) as [s'|s'|e]; [| |discriminate].
  - destruct (IH _ _ _ H) as [more Hm]. destruct Hs as [_ [Hv|[r Hv]]].
    + exists more. congruence.
    + exists (r :: more). rewrite Hm, Hv, <- app_assoc. reflexivity.
  - injection H as <-. destruct Hs as [_ ->]. exact Hnil.
Qed.


End ScanFacts.

Definition sample_scan_end (number failures : Z) : scan :=
  mk_scan [sample_record "2023-03-03" "Q_SCRAPED" "Some Act"] number failures.

Lemma sample_scan_uncapped :
  while_loop Sample.api_one Sample.site_page 20 118 1 "Doe" "TX" None scan_start
  = Some (Return (sample_scan_end 7 5)).
Proof. vm_compute. reflexivity. Qed.

Lemma sample_scan_capped :
  while_loop Sample.api_one Sample.site_page 20 118 1 "Doe" "TX" (Some 1) scan_start
  = Some (Return (sample_scan_end 2 0)).
Proof. vm_compute. reflexivity. Qed.


Lemma sample_blank_pass :
  loop_body Sample.api_blank Sample.site_page 118 1 "Doe" "TX" scan_start
  = Abort (ValidationError "Vote cast must be a non-empty string").
Proof. vm_compute. reflexivity. Qed.

Lemma sample_malformed_pass :
  loop_body Sample.api_malformed Sample.site_page 118 1 "Doe" "TX" (sample_scan_end 2 0)
  = Abort (ValidationError "Vote metadata missing required field: result").
Proof. vm_compute. reflexivity. Qed.


(** ** Lists cut at a cap *)

Lemma len_app {A : Type} (l l' : list A) : len (l ++ l') = len l + len l'.
Proof. unfold len. rewrite length_app. lia. Qed.

Lemma len_nonneg {A : Type} (l : list A) : 0 <= len l.
Proof. unfold len. lia. Qed.

Lemma firstn_whole {A : Type} (k : Z) (l : list A) :
  len l <= k -> firstn (Z.to_nat k) l = l.
Proof. unfold len. intros H. apply firstn_all2. lia. Qed.

Lemma firstn_past {A : Type} (k : Z) (l more : list A) :
  len l <= k ->
  firstn (Z.to_nat k) (l ++ more) = l ++ firstn (Z.to_nat (k - len l)) more.
Proof.
  unfold len. intros H. rewrite firstn_app, firstn_all2 by lia.
  do 2 f_equal. lia.
Qed.

Lemma firstn_exact {A : Type} (k : Z) (l more : list A) :
  len l = k -> firstn (Z.to_nat k) (l ++ more) = l.
Proof.
  intros H. rewrite firstn_past by lia.
  replace (k - len l) with 0 by lia. cbn. apply app_nil_r.
Qed.

Lemma len_firstn {A : Type} (k : Z) (l : list A) :
  0 <= k -> len (firstn (Z.to_nat k) l) = Z.min k (len l).
Proof. unfold len. intros H. rewrite length_firstn. lia. Qed.

Lemma cap_reached_true {A : Type} (k : Z) (l : list A) :
  0 < k -> cap_reached (Some k) l = true <-> k <= len l.
Proof.
  intros Hk. unfold cap_reached.
  destruct (Z.eqb_spec k 0); [lia|]. cbn. apply Z.leb_le.
Qed.

Lemma cap_reached_false {A : Type} (k : Z) (l : list A) :
  0 < k -> cap_reached (Some k) l = false <-> len l < k.
Proof.
  intros Hk. unfold cap_reached.
  destruct (Z.eqb_spec k 0); [lia|]. cbn. apply Z.leb_gt.
Qed.

Lemma remaining_positive {A : Type} (k : Z) (l : list A) :
  0 < k -> remaining (Some k) l = Some (k - len l).
Proof.
  intros Hk. unfold remaining. destruct (Z.eqb_spec k 0); [lia|reflexivity].
Qed.

Lemma slice_to_positive {A : Type} (k : Z) (l : list A) :
  0 < k -> slice_to k l = firstn (Z.to_nat k) l.
Proof.
  intros Hk. unfold slice_to. destruct (Z.ltb_spec k 0); [lia|reflexivity].
Qed.

(** ** The collection call *)

Section CollectionFacts.

Variable get_house_vote_members : Z -> Z -> Z -> outcome (list APIVoteData.t).
Variable http_get : string -> outcome string.

Let loop := while_loop get_house_vote_members http_get.
Let scan_session := _collect_session_votes get_house_vote_members http_get.
Let sessions_from := session_loop get_house_vote_members http_get.
Let scan_congress := _collect_congress_votes get_house_vote_members http_get.
Let congresses_from := congress_loop get_house_vote_members http_get.

(** *** The cap cuts the scan short at each of the three levels *)

Lemma loop_at_cap (fuel : nat) (congress session : Z) (last_name state : string)
  (max_votes : option Z) (s : scan) :
  cap_reached max_votes (session_votes s) = true ->
  loop (S fuel) congress session last_name state max_votes s = Some (Return s).
Proof.
  intros H. unfold loop. cbn [while_loop]. rewrite H. now destruct (_ <? _).
Qed.

Lemma sessions_at_cap (fuel : nat) (congress : Z) (last_name state : string)
  (max_votes : option Z) (sessions : list Z) (congress_votes : list VoteRecord.t) :
  cap_reached max_votes congress_votes = true ->
  sessions_from fuel congress last_name state max_votes sessions congress_votes
  = Some (Return congress_votes).
Proof.
  intros H. unfold sessions_from. destruct sessions; cbn [session_loop]; [|rewrite H];
    reflexivity.
Qed.

Lemma congresses_at_cap (fuel : nat) (last_name state : string)
  (max_votes : option Z) (congresses : list Z) (all_votes : list VoteRecord.t) :
  cap_reached max_votes all_votes = true ->
  congresses_from fuel last_name state max_votes congresses all_votes
  = Some (Return all_votes).
Proof.
  intros H. unfold congresses_from. destruct congresses; cbn [congress_loop]; [|rewrite H];
    reflexivity.
Qed.

Lemma collect_of_congresses (fuel : nat) (search_criteria : MemberSearchCriteria.t)
  (max_votes : option Z) (r : outcome (list VoteRecord.t)) :
  congresses_from fuel (MemberSearchCriteria.last_name search_criteria)
    (MemberSearchCriteria.state search_criteria) max_votes
    (MemberSearchCriteria.congress_numbers search_criteria) [] = Some r ->
  collect_member_votes get_house_vote_members http_get fuel search_criteria max_votes
  = Some r.
Proof.
  unfold congresses_from, collect_member_votes. intros ->. now destruct r.
Qed.

Lemma congresses_of_collect (fuel : nat) (search_criteria : MemberSearchCriteria.t)
  (max_votes : option Z) (r : outcome (list VoteRecord.t)) :
  collect_member_votes get_house_vote_members http_get fuel search_criteria max_votes
  = Some r ->
  congresses_from fuel (MemberSearchCriteria.last_name search_criteria)
    (MemberSearchCriteria.state search_criteria) max_votes
    (MemberSearchCriteria.congress_numbers search_criteria) [] = Some r.
Proof.
  unfold congresses_from, collect_member_votes.
  destruct (congress_loop _ _ _ _ _ _ _ _) as [[votes|e]|]; cbn; congruence.
Qed.

(** *** A cap of 0 *)

Lemma while_loop_zero_cap (fuel : nat) (congress session : Z) (last_name state : string) :
  forall s : scan,
    loop fuel congress session last_name state (Some 0) s
    = loop fuel congress session last_name state None s.
Proof.
  unfold loop. induction fuel as [|fuel IH]; intros s; cbn [while_loop]; [reflexivity|].
  change (cap_reached (Some 0) (session_votes s)) with false. cbn [cap_reached].
  destruct (_ <? _); [|reflexivity].
  destruct (loop_body _ _ _ _ _ _ s); auto.
Qed.

Lemma session_loop_zero_cap (fuel : nat) (congress : Z) (last_name state : string)
  (sessions : list Z) :
  forall congress_votes : list VoteRecord.t,
    sessions_from fuel congress last_name state (Some 0) sessions congress_votes
    = sessions_from fuel congress last_name state None sessions congress_votes.
Proof.
  unfold sessions_from.
  induction sessions as [|session rest IH]; intros congress_votes; cbn [session_loop];
    [reflexivity|].
  change (cap_reached (Some 0) congress_votes) with false.
  change (remaining (Some 0) congress_votes) with (@None Z).
  cbn [cap_reached remaining].
  destruct (_collect_session_votes _ _ _ _ _ _ _ _) as [[sv|e]|]; auto.
Qed.

Lemma congress_loop_zero_cap (fuel : nat) (last_name state : string)
  (congresses : list Z) :
  forall all_votes : list VoteRecord.t,
    congresses_from fuel last_name state (Some 0) congresses all_votes
    = congresses_from fuel last_name state None congresses all_votes.
Proof.
  unfold congresses_from.
  induction congresses as [|congress rest IH]; intros all_votes; cbn [congress_loop];
    [reflexivity|].
  change (cap_reached (Some 0) all_votes) with false.
  change (remaining (Some 0) all_votes) with (@None Z).
  cbn [cap_reached remaining].
  destruct (_collect_congress_votes _ _ _ _ _ _ _) as [[cv|e]|]; [|reflexivity..].
  change (cap_reached (Some 0) (all_votes ++ cv)) with false. cbn iota. apply IH.
Qed.

(** *** Faults that are not API faults *)

Lemma loop_raises (fuel : nat) (congress session : Z) (last_name state : string)
  (max_votes : option Z) :
  forall (s : scan) (e : exn),
    loop fuel congress session last_name state max_votes s = Some (Raise e) ->
    is_APIError e = false.
Proof.
  unfold loop. induction fuel as [|fuel IH]; intros s e; cbn [while_loop]; [discriminate|].
  destruct (_ <? _); [|discriminate].
  destruct (cap_reached _ _); [discriminate|].
  pose proof (body_step get_house_vote_members http_get congress session
                last_name state s) as Hs.
  destruct (loop_body _ _ _ _ _ _ s) as [s1|s1|e1].
  - apply IH.
  - discriminate.
  - now intros [= <-].
Qed.

Lemma sessions_raise (fuel : nat) (congress : Z) (last_name state : string)
  (max_votes : option Z) (sessions : list Z) :
  forall (congress_votes : list VoteRecord.t) (e : exn),
    sessions_from fuel congress last_name state max_votes sessions congress_votes
      = Some (Raise e) ->
    is_APIError e = false.
Proof.
  unfold sessions_from.
  induction sessions as [|session rest IH]; intros congress_votes e; cbn [session_loop];
    [discriminate|].
  destruct (cap_reached _ _); [discriminate|].
  unfold _collect_session_votes at 1.
  destruct (while_loop _ _ _ _ _ _ _ _ _) as [[s_end|e1]|] eqn:Hl; cbn [lift].
  - apply IH.
  - intros [= <-]. exact (loop_raises _ _ _ _ _ _ _ _ Hl).
  - discriminate.
Qed.

Lemma congresses_raise (fuel : nat) (last_name state : string)
  (max_votes : option Z) (congresses : list Z) :
  forall (all_votes : list VoteRecord.t) (e : exn),
    congresses_from fuel last_name state max_votes congresses all_votes
      = Some (Raise e) ->
    is_APIError e = false.
Proof.
  unfold congresses_from.
  induction congresses as [|congress rest IH]; intros all_votes e; cbn [congress_loop];
    [discriminate|].
  destruct (cap_reached _ all_votes); [discriminate|].
  destruct (_collect_congress_votes _ _ _ _ _ _ _) as [[cv|e1]|] eqn:Hc.
  - destruct (cap_reached _ _); [discriminate|apply IH].
  - intros [= <-]. exact (sessions_raise _ _ _ _ _ _ _ _ Hc).
  - discriminate.
Qed.

End CollectionFacts.

(** *** The sample runs *)

Definition sample_all_votes : list VoteRecord.t :=
  match collect_member_votes Sample.api_two Sample.site_page 20 Sample.doe_two None with
  | Some (Return votes) => votes
  | _ => []
  end.

Lemma sample_uncapped :
  collect_member_votes Sample.api_two Sample.site_page 20 Sample.doe_two None
  = Some (Return sample_all_votes).
Proof. vm_compute. reflexivity. Qed.

(** The spec's scenario: one matching record for vote 1 and nothing for the
    votes after it; the scan ends after vote 6 with that one record. *)
Example sample_end_to_end :
  collect_member_votes Sample.api_one Sample.site_page 20 Sample.doe None
  = Some (Return [sample_record "2023-03-03" "Q_SCRAPED" "Some Act"]).
Proof. vm_compute. reflexivity. Qed.

Example sample_zero_cap :
  lift (@length _)
    (collect_member_votes Sample.api_two Sample.site_page 20 Sample.doe_two (Some 0))
  = Some (Return 8%nat).
Proof. vm_compute. reflexivity. Qed.

Definition sample_fault : exn :=
  ValidationError "Vote metadata missing required field: result".

(** ** The matcher *)

Lemma try_down_some {A : Type} (lo : nat) (k : nat -> option A) (r : A) :
  forall n : nat,
    Re.try_down lo n k = Some r -> exists m : nat, (lo <= m <= n)%nat /\ k m = Some r.
Proof.
  induction n as [|n IH]; cbn [Re.try_down].
  - destruct (Nat.ltb_spec 0 lo); [discriminate|].
    destruct (k 0%nat) eqn:Hk; [|discriminate].
    intros [= <-]. exists 0%nat. split; [lia|exact Hk].
  - destruct (Nat.ltb_spec (S n) lo); [discriminate|].
    destruct (k (S n)) eqn:Hk.
    + intros [= <-]. exists (S n). split; [lia|exact Hk].
    + intros H'. destruct (IH H') as (m & Hm & Hkm). exists m. split; [lia|exact Hkm].
Qed.

Lemma try_down_none {A : Type} (lo : nat) (k : nat -> option A) :
  (forall m : nat, k m = None) -> forall n : nat, Re.try_down lo n k = None.
Proof.
  intros Hk. induction n as [|n IH]; cbn [Re.try_down]; rewrite Hk;
    destruct (_ <? _)%nat; auto.
Qed.

Lemma max_take_run (a : Re.atom) (s : string) :
  (Re.max_take a s <= Re.run_length (Re.a_class a) s)%nat.
Proof. unfold Re.max_take. destruct (Re.a_max a); lia. Qed.

Lemma max_take_max (a : Re.atom) (s : string) (hi : nat) :
  Re.a_max a = Some hi -> (Re.max_take a s <= hi)%nat.
Proof. unfold Re.max_take. intros ->. lia. Qed.

Lemma take_run (k : Re.cclass) :
  forall (s : string) (m : nat),
    (m <= Re.run_length k s)%nat ->
    Str.forallb (Re.in_class k) (Str.take m s) = true
    /\ String.length (Str.take m s) = m.
Proof.
  induction s as [|c s IH]; intros [|m]; cbn [Re.run_length Str.take Str.forallb String.length];
    auto; try lia.
  destruct (Re.in_class k c); [|lia].
  intros H. destruct (IH m ltac:(lia)) as [-> ->]. auto.
Qed.

(** A group of a match has a length within the bounds of its item and
    holds characters of its class only. *)
Definition group_ok (a : Re.atom) (g : string) : Prop :=
  (Re.a_min a <= String.length g)%nat
  /\ (forall hi, Re.a_max a = Some hi -> (String.length g <= hi)%nat)
  /\ Str.forallb (Re.in_class (Re.a_class a)) g = true.

Fixpoint groups_ok (p : Re.pattern) (gs : list string) : Prop :=
  match p with
  | [] => gs = []
  | a :: p' =>
      if Re.a_group a then
        match gs with
        | g :: gs' => group_ok a g /\ groups_ok p' gs'
        | [] => False
        end
      else groups_ok p' gs
  end.

Lemma match_here_groups (p : Re.pattern) :
  forall (s : string) (gs : list string) (rest : string),
    Re.match_here p s = Some (gs, rest) -> groups_ok p gs.
Proof.
  induction p as [|a p IH]; intros s gs rest; cbn [Re.match_here groups_ok].
  - now intros [= <- _].
  - intros H. apply try_down_some in H. destruct H as (m & Hm & H).
    destruct (Re.match_here p (Str.drop m s)) as [[gs' rest']|] eqn:Hp; [|discriminate].
    injection H as <- <-. specialize (IH _ _ _ Hp).
    destruct (Re.a_group a); [|exact IH].
    split; [|exact IH].
    destruct (take_run (Re.a_class a) s m) as [Hc Hl].
    { pose proof (max_take_run a s). lia. }
    unfold group_ok. rewrite Hl. repeat split; [lia| |exact Hc].
    intros hi Hhi. pose proof (max_take_max a s hi Hhi). lia.
Qed.

Lemma search_groups (p : Re.pattern) :
  forall (s : string) (gs : list string), Re.search p s = Some gs -> groups_ok p gs.
Proof.
  induction s as [|c s IH]; intros gs; cbn [Re.search];
    destruct (Re.match_here p _) as [[gs' rest]|] eqn:Hm;
    try discriminate; try (intros [= <-]; exact (match_here_groups _ _ _ _ Hm)).
  apply IH.
Qed.

(** Text without a digit, and patterns that need one. *)
Definition no_digit (s : string) : Prop :=
  Str.forallb (fun c => negb (Str.is_digit c)) s = true.

Definition is_digit_item (a : Re.atom) : bool :=
  match Re.a_class a with
  | Re.Digit => (1 <=? Re.a_min a)%nat
  | _ => false
  end.

Lemma no_digit_cons (c : ascii) (s : string) :
  no_digit (String c s) <-> Str.is_digit c = false /\ no_digit s.
Proof.
  unfold no_digit. cbn [Str.forallb]. rewrite andb_true_iff, negb_true_iff. tauto.
Qed.

Lemma no_digit_drop (n : nat) : forall s : string, no_digit s -> no_digit (Str.drop n s).
Proof.
  induction n as [|n IH]; intros [|c s]; cbn [Str.drop]; auto.
  intros H. apply no_digit_cons in H. now apply IH.
Qed.

Lemma run_length_no_digit (s : string) : no_digit s -> Re.run_length Re.Digit s = 0%nat.
Proof.
  destruct s as [|c s]; [reflexivity|].
  intros H. apply no_digit_cons in H. cbn. now rewrite (proj1 H).
Qed.

Lemma match_here_no_digit (p : Re.pattern) :
  existsb is_digit_item p = true ->
  forall s : string, no_digit s -> Re.match_here p s = None.
Proof.
  induction p as [|a p IH]; cbn [existsb Re.match_here]; [discriminate|].
  intros Hp s Hs. destruct (is_digit_item a) eqn:Ha.
  - unfold is_digit_item in Ha. unfold Re.max_take.
    destruct (Re.a_class a) eqn:Hk; try discriminate.
    apply Nat.leb_le in Ha. rewrite run_length_no_digit by exact Hs.
    destruct (Re.a_max a); rewrite ?Nat.min_0_r; cbn [Re.try_down];
      destruct (Nat.ltb_spec 0 (Re.a_min a)); auto; lia.
  - apply try_down_none. intros m.
    rewrite (IH Hp (Str.drop m s)); [reflexivity|]. now apply no_digit_drop.
Qed.

Lemma search_no_digit (p : Re.pattern) :
  existsb is_digit_item p = true ->
  forall s : string, no_digit s -> Re.search p s = None.
Proof.
  intros Hp. induction s as [|c s IH]; intros Hs; cbn [Re.search];
    rewrite (match_here_no_digit p Hp) by exact Hs; [reflexivity|].
  apply IH. now apply no_digit_cons in Hs.
Qed.

(** A pattern that starts with digits does not match where there is none,
    so the search goes past a text without digits. *)
Lemma search_skip (p : Re.pattern) (a : Re.atom) (p' : Re.pattern) :
  p = a :: p' -> is_digit_item a = true ->
  forall pre s : string, no_digit pre -> Re.search p (pre ++ s)%string = Re.search p s.
Proof.
  intros -> Ha. induction pre as [|c pre IH]; intros s Hpre; [reflexivity|].
  apply no_digit_cons in Hpre. destruct Hpre as [Hc Hpre].
  cbn [String.append Re.search].
  replace (Re.match_here (a :: p') (String c (pre ++ s)%string)) with
    (@None (list string * string)); [now apply IH|].
  cbn [Re.match_here]. unfold is_digit_item in Ha. unfold Re.max_take.
  destruct (Re.a_class a) eqn:Hk; try discriminate.
  apply Nat.leb_le in Ha. cbn [Re.run_length Re.in_class]. rewrite Hc.
  destruct (Re.a_max a); rewrite ?Nat.min_0_r; cbn [Re.try_down];
    destruct (Nat.ltb_spec 0 (Re.a_min a)); auto; lia.
Qed.

(** ** Digits, letters and canonical dates *)

Lemma digit_cases (c : ascii) :
  Str.is_digit c = true ->
  In c ["0"; "1"; "2"; "3"; "4"; "5"; "6"; "7"; "8"; "9"]%char.
Proof.
  destruct c as [[] [] [] [] [] [] [] []]; vm_compute; intros H; try discriminate H;
    tauto.
Qed.

Lemma digit_facts (c : ascii) :
  Str.is_digit c = true ->
  Str.is_alpha c = false /\ (c =? "-")%char = false /\ (c =? "/")%char = false
  /\ (c =? "+")%char = false.
Proof.
  destruct c as [[] [] [] [] [] [] [] []]; vm_compute; intros H; try discriminate H;
    auto.
Qed.

Lemma alpha_facts (c : ascii) :
  Str.is_alpha c = true ->
  Str.is_digit c = false /\ (c =? "-")%char = false /\ (c =? "/")%char = false.
Proof.
  destruct c as [[] [] [] [] [] [] [] []]; vm_compute; intros H; try discriminate H;
    auto.
Qed.

Lemma lower_alpha (c : ascii) :
  Str.is_alpha (Str.lower_char c) = true -> Str.is_alpha c = true.
Proof.
  destruct c as [[] [] [] [] [] [] [] []]; vm_compute; intros H; try discriminate H;
    reflexivity.
Qed.

(** [YYYY-MM-DD], character by character. *)
Definition ymd (y1 y2 y3 y4 m1 m2 d1 d2 : ascii) : string :=
  String y1 (String y2 (String y3 (String y4 (String "-"
    (String m1 (String m2 (String "-" (String d1 (String d2 ""))))))))).

Definition num2 (a b : ascii) : Z := Str.to_int (String a (String b "")).
Definition num4 (a b c d : ascii) : Z :=
  Str.to_int (String a (String b (String c (String d "")))).

(** The date that a zero-padded [YYYY-MM-DD] string denotes. *)
Definition read_canonical (r : string) : option (Z * Z * Z) :=
  match r with
  | String y1 (String y2 (String y3 (String y4 (String s1
      (String m1 (String m2 (String s2 (String d1 (String d2 EmptyString))))))))) =>
      if forallb Str.is_digit [y1; y2; y3; y4; m1; m2; d1; d2]
         && (s1 =? "-")%char && (s2 =? "-")%char
      then Some (num4 y1 y2 y3 y4, num2 m1 m2, num2 d1 d2)
      else None
  | _ => None
  end.

Definition month_ok (m : Z) : bool := (1 <=? m) && (m <=? 12).
Definition day_ok (d : Z) : bool := (1 <=? d) && (d <=? 31).

Ltac each_digit c H :=
  let H' := fresh in
  pose proof (digit_cases c H) as H'; cbn [In] in H';
  repeat (destruct H' as [H'|H']; [subst c|]); [..|contradiction H'].

Lemma parse_month_canon (m1 m2 : ascii) (r : string) :
  Str.is_digit m1 = true -> Str.is_digit m2 = true ->
  Calendar.parse_month (String m1 (String m2 (String "-" r))) =
    if month_ok (num2 m1 m2) then Some (num2 m1 m2, String "-" r)
    else if Str.between 49 57 m1 then Some (Str.digit_val m1, String m2 (String "-" r))
    else None.
Proof.
  intros H1 H2. each_digit m1 H1; each_digit m2 H2; vm_compute; reflexivity.
Qed.

Lemma parse_day_canon (d1 d2 : ascii) :
  Str.is_digit d1 = true -> Str.is_digit d2 = true ->
  Calendar.parse_day (String d1 (String d2 "")) =
    if day_ok (num2 d1 d2) then Some (num2 d1 d2, "")
    else if Str.between 49 57 d1 then Some (Str.digit_val d1, String d2 "")
    else None.
Proof.
  intros H1 H2. each_digit d1 H1; each_digit d2 H2; vm_compute; reflexivity.
Qed.

Lemma is_date_ranges (y m d : Z) :
  Calendar.is_date y m d = true -> month_ok m = true /\ day_ok d = true.
Proof.
  unfold Calendar.is_date, month_ok, day_ok, Calendar.days_in_month.
  rewrite !andb_true_iff, !Z.leb_le.
  intros (((((Hy1 & Hy2) & Hm1) & Hm2) & Hd1) & Hd2).
  repeat split; try assumption.
  repeat match type of Hd2 with
         | context [if ?c then _ else _] => destruct c
         end; lia.
Qed.

Section Canonical.

Variables y1 y2 y3 y4 m1 m2 d1 d2 : ascii.
Hypothesis Hy1 : Str.is_digit y1 = true.
Hypothesis Hy2 : Str.is_digit y2 = true.
Hypothesis Hy3 : Str.is_digit y3 = true.
Hypothesis Hy4 : Str.is_digit y4 = true.
Hypothesis Hm1 : Str.is_digit m1 = true.
Hypothesis Hm2 : Str.is_digit m2 = true.
Hypothesis Hd1 : Str.is_digit d1 = true.
Hypothesis Hd2 : Str.is_digit d2 = true.

Let s : string := ymd y1 y2 y3 y4 m1 m2 d1 d2.
Let Y : Z := num4 y1 y2 y3 y4.
Let M : Z := num2 m1 m2.
Let D : Z := num2 d1 d2.

Lemma read_canonical_ymd : read_canonical s = Some (Y, M, D).
Proof.
  unfold s, ymd, read_canonical. cbn [forallb].
  now rewrite Hy1, Hy2, Hy3, Hy4, Hm1, Hm2, Hd1, Hd2.
Qed.

Lemma strptime_canon_cases :
  Calendar.strptime_Ymd s = Return (Y, M, D) /\ Calendar.is_date Y M D = true
  \/ (exists message, Calendar.strptime_Ymd s = Raise (ValueError message))
     /\ Calendar.is_date Y M D = false.
Proof.
  unfold Calendar.strptime_Ymd, s, ymd.
  cbn [Str.take Str.drop Str.forallb String.length Nat.leb andb].
  rewrite Hy1, Hy2, Hy3, Hy4. cbn [andb].
  rewrite (parse_month_canon m1 m2 _ Hm1 Hm2). fold M.
  change (Str.to_int (String y1 (String y2 (String y3 (String y4 ""))))) with Y.
  destruct (month_ok M) eqn:HM.
  - rewrite (parse_day_canon d1 d2 Hd1 Hd2). fold D.
    destruct (day_ok D) eqn:HD.
    + destruct (Calendar.is_date Y M D); [left|right]; eauto.
    + right. split.
      * destruct (Str.between 49 57 d1); eauto.
      * destruct (Calendar.is_date Y M D) eqn:E; [|reflexivity].
        apply is_date_ranges in E. destruct E; congruence.
  - right. split.
    + destruct (Str.between 49 57 m1); [|eauto].
      clear HM. each_digit m2 Hm2; eauto.
    + destruct (Calendar.is_date Y M D) eqn:E; [|reflexivity].
      apply is_date_ranges in E. destruct E; congruence.
Qed.

Lemma strptime_canon :
  Calendar.is_date Y M D = true -> Calendar.strptime_Ymd s = Return (Y, M, D).
Proof.
  intros H. destruct strptime_canon_cases as [[H1 _]|[_ H2]]; [exact H1|congruence].
Qed.

Lemma strptime_canon_inv (v : Z * Z * Z) :
  Calendar.strptime_Ymd s = Return v -> v = (Y, M, D) /\ Calendar.is_date Y M D = true.
Proof.
  intros H. destruct strptime_canon_cases as [[H1 H2]|[[message H1] _]];
    rewrite H1 in H; [|discriminate].
  injection H as <-. auto.
Qed.

End Canonical.

(** ** Date extraction *)

#[local] Arguments Re.match_here !p !s.
#[local] Arguments Re.run_length k !s.
#[local] Arguments Re.search p !s.

(** Run the matcher as far as the known characters allow. *)
Ltac run_matcher :=
  cbn [Re.search Re.match_here Re.try_down Re.max_take Re.run_length Re.in_class
       Re.a_class Re.a_min Re.a_max Re.a_group Re.group Re.lit Re.group_plus
       Nat.min Nat.ltb Nat.leb Str.drop Str.take List.app String.append].

(** What is known of a digit and of a letter. *)
Ltac char_facts :=
  repeat match goal with
         | H : Str.is_digit ?c = true |- _ =>
             lazymatch goal with
             | _ : Str.is_alpha c = false |- _ => fail
             | _ => let A := fresh in let B := fresh in let C := fresh in
                    let E := fresh in
                    destruct (digit_facts c H) as (A & B & C & E)
             end
         | H : Str.is_alpha ?c = true |- _ =>
             lazymatch goal with
             | _ : Str.is_digit c = false |- _ => fail
             | _ => let A := fresh in let B := fresh in let C := fresh in
                    destruct (alpha_facts c H) as (A & B & C)
             end
         end.

Ltac use_chars :=
  repeat match goal with
         | H : Str.is_digit ?c = _ |- context [Str.is_digit ?c] => rewrite H
         | H : Str.is_alpha ?c = _ |- context [Str.is_alpha ?c] => rewrite H
         | H : (?c =? ?x)%char = _ |- context [(?c =? ?x)%char] => rewrite H
         end;
  change (Str.is_digit "-") with false;
  change (Str.is_digit "/") with false;
  change (Str.is_alpha "-") with false;
  change (Str.is_alpha "/") with false;
  change ("-" =? "-")%char with true;
  change ("/" =? "/")%char with true;
  change ("-" =? "/")%char with false;
  change ("/" =? "-")%char with false.

Ltac use_suffix :=
  repeat match goal with
         | |- context [Re.match_here [] ?s] =>
             change (Re.match_here [] s) with (Some (@nil string, s))
         | H : no_digit ?s |- context [Re.run_length Re.Digit ?s] =>
             rewrite (run_length_no_digit s H)
         | H : no_digit ?s |- context [Re.match_here ?p ?s] =>
             rewrite (match_here_no_digit p eq_refl s H)
         | H : no_digit ?s |- context [Re.search ?p ?s] =>
             rewrite (search_no_digit p eq_refl s H)
         end.

Ltac matcher := repeat (progress (run_matcher; use_chars; use_suffix)).

Definition date_pattern (i : nat) : Re.pattern := nth i date_patterns [].

Lemma extract_date_steps (html_content : string) :
  _extract_date html_content =
    let next2 :=
      match Re.search (date_pattern 2) html_content with
      | Some gs =>
          match format_candidate 2 gs with
          | Return (Some formatted_date) => Return formatted_date
          | Return None => Return ""
          | Raise (ValueError _) => Return ""
          | Raise e => Raise e
          end
      | None => Return ""
      end in
    let next1 :=
      match Re.search (date_pattern 1) html_content with
      | Some gs =>
          match format_candidate 1 gs with
          | Return (Some formatted_date) => Return formatted_date
          | Return None => next2
          | Raise (ValueError _) => next2
          | Raise e => Raise e
          end
      | None => next2
      end in
    match Re.search (date_pattern 0) html_content with
    | Some gs =>
        match format_candidate 0 gs with
        | Return (Some formatted_date) => Return formatted_date
        | Return None => next1
        | Raise (ValueError _) => next1
        | Raise e => Raise e
        end
    | None => next1
    end.
Proof. reflexivity. Qed.

Lemma validated_cases (formatted_date : string) :
  (exists v, Calendar.strptime_Ymd formatted_date = Return v
             /\ validated formatted_date = Return (Some formatted_date))
  \/ (exists message, validated formatted_date = Raise (ValueError message)).
Proof.
  unfold validated, Calendar.strptime_Ymd.
  repeat match goal with
         | |- context [match ?x with _ => _ end] => destruct x
         end; cbn [bind]; eauto.
Qed.

(** A candidate is accepted as it stands or refused with a [ValueError]. *)
Lemma format_candidate_cases (i : nat) (gs : list string) :
  format_candidate i gs = Return None
  \/ (exists message, format_candidate i gs = Raise (ValueError message))
  \/ (exists formatted_date v,
         format_candidate i gs = Return (Some formatted_date)
         /\ Calendar.strptime_Ymd formatted_date = Return v).
Proof.
  destruct i as [|[|[|i]]]; cbn [format_candidate]; auto;
    try destruct (dict_get _ _); auto;
    match goal with
    | |- context [validated ?d] =>
        destruct (validated_cases d) as [(v & Hv & ->)|(message & ->)]; eauto 6
    end.
Qed.

Section CanonicalText.

Variables y1 y2 y3 y4 m1 m2 d1 d2 : ascii.
Hypothesis Hy1 : Str.is_digit y1 = true.
Hypothesis Hy2 : Str.is_digit y2 = true.
Hypothesis Hy3 : Str.is_digit y3 = true.
Hypothesis Hy4 : Str.is_digit y4 = true.
Hypothesis Hm1 : Str.is_digit m1 = true.
Hypothesis Hm2 : Str.is_digit m2 = true.
Hypothesis Hd1 : Str.is_digit d1 = true.
Hypothesis Hd2 : Str.is_digit d2 = true.

(** On its own output the extraction finds the same string again. *)
Lemma extract_date_ymd (v : Z * Z * Z) :
  Calendar.strptime_Ymd (ymd y1 y2 y3 y4 m1 m2 d1 d2) = Return v ->
  _extract_date (ymd y1 y2 y3 y4 m1 m2 d1 d2) = Return (ymd y1 y2 y3 y4 m1 m2 d1 d2).
Proof.
  intros Hv. rewrite extract_date_steps. cbn zeta.
  pose proof Hy1 as Ky1. pose proof Hy2 as Ky2. pose proof Hy3 as Ky3.
  pose proof Hy4 as Ky4. pose proof Hm1 as Km1. pose proof Hm2 as Km2.
  pose proof Hd1 as Kd1. pose proof Hd2 as Kd2.
  char_facts.
  unfold date_pattern, date_patterns, ymd in *. cbn [nth].
  matcher.
  cbn [format_candidate group nth Nat.sub Str.zfill String.length Str.repeat
       String.append].
  use_chars. cbn [orb String.append].
  unfold validated. rewrite Hv. reflexivity.
Qed.

End CanonicalText.

(** Zero-padded [YYYY-MM-DD] strings. *)
Inductive canonical : string -> Prop :=
| canonical_ymd (y1 y2 y3 y4 m1 m2 d1 d2 : ascii) :
    Str.is_digit y1 = true -> Str.is_digit y2 = true ->
    Str.is_digit y3 = true -> Str.is_digit y4 = true ->
    Str.is_digit m1 = true -> Str.is_digit m2 = true ->
    Str.is_digit d1 = true -> Str.is_digit d2 = true ->
    canonical (ymd y1 y2 y3 y4 m1 m2 d1 d2).

Lemma digits_one_or_two (g : string) (captured : bool) :
  group_ok (Re.mk_atom Re.Digit 1 (Some 2%nat) captured) g ->
  exists a b, Str.is_digit a = true /\ Str.is_digit b = true
              /\ Str.zfill 2 g = String a (String b "").
Proof.
  intros (Hlo & Hhi & Hd). specialize (Hhi 2%nat eq_refl).
  cbn [Re.a_min Re.a_class Re.in_class] in *.
  destruct g as [|a [|b [|c g]]]; cbn [String.length] in *; try lia;
    cbn [Str.forallb] in Hd; rewrite ?andb_true_iff in Hd.
  - exists "0"%char, a. destruct Hd as [Ha _].
    destruct (digit_facts a Ha) as (_ & Hm & _ & Hp).
    cbn [Str.zfill String.length Nat.sub Str.repeat String.append].
    rewrite Hm, Hp. auto.
  - exists a, b. destruct Hd as (Ha & Hb & _).
    destruct (digit_facts a Ha) as (_ & Hm & _ & Hp).
    cbn [Str.zfill String.length Nat.sub Str.repeat String.append].
    rewrite Hm, Hp. auto.
Qed.

Lemma digits_four (g : string) (captured : bool) :
  group_ok (Re.mk_atom Re.Digit 4 (Some 4%nat) captured) g ->
  exists a b c d, Str.is_digit a = true /\ Str.is_digit b = true
                  /\ Str.is_digit c = true /\ Str.is_digit d = true
                  /\ g = String a (String b (String c (String d ""))).
Proof.
  intros (Hlo & Hhi & Hd). specialize (Hhi 4%nat eq_refl).
  cbn [Re.a_min Re.a_class Re.in_class] in *.
  destruct g as [|a [|b [|c [|d [|e g]]]]]; cbn [String.length] in *; try lia.
  cbn [Str.forallb] in Hd. rewrite !andb_true_iff in Hd.
  exists a, b, c, d. tauto.
Qed.

Lemma month_map_values (key month_num : string) :
  dict_get key month_map = Some month_num ->
  exists a b, Str.is_digit a = true /\ Str.is_digit b = true
              /\ month_num = String a (String b "").
Proof.
  unfold month_map. cbn [dict_get].
  repeat match goal with
         | |- context [if ?c then _ else _] => destruct c
         end; intros [= <-]; do 2 eexists; repeat split; reflexivity.
Qed.

Lemma validated_inv (formatted_date r : string) :
  validated formatted_date = Return (Some r) ->
  r = formatted_date /\ exists v, Calendar.strptime_Ymd formatted_date = Return v.
Proof.
  unfold validated. destruct (Calendar.strptime_Ymd formatted_date) as [v|e]; cbn [bind];
    [|discriminate].
  intros [= <-]. eauto.
Qed.

(** An accepted candidate of any of the three patterns is canonical. *)
Lemma candidate_canonical (i : nat) (gs : list string) (r : string) :
  groups_ok (date_pattern i) gs ->
  format_candidate i gs = Return (Some r) ->
  canonical r /\ exists v, Calendar.strptime_Ymd r = Return v.
Proof.
  destruct i as [|[|[|i]]]; unfold date_pattern, date_patterns; cbn [nth];
    [| | |discriminate];
    cbn [groups_ok Re.group Re.lit List.app Re.a_group];
    destruct gs as [|g1 [|g2 [|g3 gs]]]; try tauto;
    intros (H1 & H2 & H3 & _); cbn [format_candidate group nth Nat.sub].
  - destruct (dict_get _ _) as [month_num|] eqn:Hm; [|discriminate].
    intros Hv. apply validated_inv in Hv. destruct Hv as [-> Hv]. split; [|exact Hv].
    destruct (digits_one_or_two _ _ H1) as (a & b & Ha & Hb & ->).
    destruct (month_map_values _ _ Hm) as (m1 & m2 & Hm1 & Hm2 & ->).
    destruct (digits_four _ _ H3) as (y1 & y2 & y3 & y4 & ? & ? & ? & ? & ->).
    now apply (canonical_ymd y1 y2 y3 y4 m1 m2 a b).
  - intros Hv. apply validated_inv in Hv. destruct Hv as [-> Hv]. split; [|exact Hv].
    destruct (digits_one_or_two _ _ H1) as (m1 & m2 & Hm1 & Hm2 & ->).
    destruct (digits_one_or_two _ _ H2) as (a & b & Ha & Hb & ->).
    destruct (digits_four _ _ H3) as (y1 & y2 & y3 & y4 & ? & ? & ? & ? & ->).
    now apply (canonical_ymd y1 y2 y3 y4 m1 m2 a b).
  - intros Hv. apply validated_inv in Hv. destruct Hv as [-> Hv]. split; [|exact Hv].
    destruct (digits_four _ _ H1) as (y1 & y2 & y3 & y4 & ? & ? & ? & ? & ->).
    destruct (digits_one_or_two _ _ H2) as (m1 & m2 & Hm1 & Hm2 & ->).
    destruct (digits_one_or_two _ _ H3) as (a & b & Ha & Hb & ->).
    now apply (canonical_ymd y1 y2 y3 y4 m1 m2 a b).
Qed.

(** The extraction never raises; it returns the empty string or a canonical
    string that [strptime] accepts. *)
Lemma extract_date_total (html_content : string) :
  exists r, _extract_date html_content = Return r
            /\ (r = "" \/ canonical r /\ exists v, Calendar.strptime_Ymd r = Return v).
Proof.
  rewrite extract_date_steps. cbn zeta.
  assert (Hstep : forall (i : nat) (next : outcome string),
    (exists r, next = Return r
               /\ (r = "" \/ canonical r /\ exists v, Calendar.strptime_Ymd r = Return v)) ->
    exists r,
      match Re.search (date_pattern i) html_content with
      | Some gs =>
          match format_candidate i gs with
          | Return (Some formatted_date) => Return formatted_date
          | Return None => next
          | Raise (ValueError _) => next
          | Raise e => Raise e
          end
      | None => next
      end = Return r
      /\ (r = "" \/ canonical r /\ exists v, Calendar.strptime_Ymd r = Return v)).
  { intros i next Hnext.
    destruct (Re.search (date_pattern i) html_content) as [gs|] eqn:Hs; [|exact Hnext].
    apply search_groups in Hs.
    destruct (format_candidate_cases i gs) as [->|[[message ->]|(d & v & Hd & Hv)]];
      [exact Hnext..|].
    rewrite Hd. exists d. split; [reflexivity|]. right.
    exact (candidate_canonical i gs d Hs Hd). }
  apply Hstep, Hstep.
  destruct (Re.search (date_pattern 2) html_content) as [gs|] eqn:Hs; [|eauto].
  apply search_groups in Hs.
  destruct (format_candidate_cases 2 gs) as [->|[[message ->]|(d & v & Hd & Hv)]];
    [eauto..|].
  rewrite Hd. exists d. split; [reflexivity|]. right.
  exact (candidate_canonical 2 gs d Hs Hd).
Qed.

Lemma extract_date_idempotent (html_content r : string) :
  _extract_date html_content = Return r -> _extract_date r = Return r.
Proof.
  intros H. destruct (extract_date_total html_content) as (r' & Hr' & Hshape).
  rewrite H in Hr'. injection Hr' as <-.
  destruct Hshape as [->|[Hc [v Hv]]]; [reflexivity|].
  destruct Hc. now apply (extract_date_ymd _ _ _ _ _ _ _ _) with (v := v).
Qed.

(** ** The enrichment never raises *)

Lemma canonical_date_format (r : string) :
  canonical r -> Re.match_whole date_format r = true.
Proof.
  intros []. char_facts. unfold Re.match_whole, date_format, ymd.
  matcher. reflexivity.
Qed.

Lemma first_stripped_group_none (patterns : list Re.pattern) (html_content : string) :
  (forall p, In p patterns -> Re.search p html_content = None) ->
  first_stripped_group patterns html_content = "".
Proof.
  induction patterns as [|p patterns IH]; intros H; cbn [first_stripped_group];
    [reflexivity|].
  rewrite (H p (or_introl eq_refl)). apply IH. intros q Hq. apply H. now right.
Qed.

Lemma extract_date_none (html_content : string) :
  (forall p, In p date_patterns -> Re.search p html_content = None) ->
  _extract_date html_content = Return "".
Proof.
  intros H. rewrite extract_date_steps. cbn zeta. unfold date_pattern.
  rewrite !H; [reflexivity|cbn; auto..].
Qed.

Section Enrichment.

Variable http_get : string -> outcome string.

Lemma scrape_date (source_data_url : string) :
  let date := snd (scrape http_get source_data_url) in
  date = "" \/ canonical date.
Proof.
  unfold scrape.
  destruct (_generate_rcv_url source_data_url) as [rcv_url|e]; [|now left].
  destruct (http_get rcv_url) as [text|e]; [|now left].
  destruct (extract_date_total text) as (r & -> & [->|[Hc _]]); cbn; auto.
Qed.

(** C6: for every source reference the enrichment returns details, whose
    date is the fallback or a canonical date; and when the address cannot be
    derived, when the site fails, or when no pattern matches the page, the
    details are the empty ones: empty question, empty bill title and the
    date [1900-01-01]. *)
Theorem enrichment_never_raises (source_data_url : string) :
  exists details,
    extract_vote_details http_get source_data_url = Return details
    /\ (ScrapedVoteDetails.date details = fallback_date
        \/ canonical (ScrapedVoteDetails.date details))
    /\ (forall e, _generate_rcv_url source_data_url = Raise e ->
        details = empty_details)
    /\ (forall rcv_url e,
        _generate_rcv_url source_data_url = Return rcv_url ->
        http_get rcv_url = Raise e ->
        details = empty_details)
    /\ (forall rcv_url text,
        _generate_rcv_url source_data_url = Return rcv_url ->
        http_get rcv_url = Return text ->
        (forall p, In p (question_patterns ++ bill_title_patterns ++ date_patterns) ->
                   Re.search p text = None) ->
        details = empty_details).
Proof.
  pose proof (scrape_date source_data_url) as Hdate. cbn zeta in Hdate.
  unfold extract_vote_details.
  destruct (scrape http_get source_data_url) as [[question bill_title] date] eqn:Hs.
  cbn [snd] in Hdate.
  set (date' := if Str.nonempty date then date else fallback_date).
  assert (Hdate' : date' = fallback_date /\ date = "" \/ canonical date' /\ date' = date).
  { subst date'. destruct Hdate as [->|Hc]; [now left|].
    right. destruct Hc. cbn. split; [now constructor|reflexivity]. }
  assert (Hnew : ScrapedVoteDetails.new (ScrapedVoteDetails.mk question bill_title date')
                 = Return (ScrapedVoteDetails.mk question bill_title date')).
  { unfold ScrapedVoteDetails.new. cbn [ScrapedVoteDetails.date].
    destruct Hdate' as [[-> _]|[Hc _]]; [reflexivity|].
    now rewrite (canonical_date_format _ Hc). }
  exists (ScrapedVoteDetails.mk question bill_title date').
  split; [exact Hnew|]. split; [|split; [|split]].
  - cbn [ScrapedVoteDetails.date]. tauto.
  - intros e He. unfold scrape in Hs. rewrite He in Hs.
    injection Hs as <- <- <-. reflexivity.
  - intros rcv_url e Hu He. unfold scrape in Hs. rewrite Hu, He in Hs.
    injection Hs as <- <- <-. reflexivity.
  - intros rcv_url text Hu Ht Hnone. unfold scrape in Hs. rewrite Hu, Ht in Hs.
    unfold _extract_question, _extract_bill_title in Hs.
    rewrite !first_stripped_group_none, extract_date_none in Hs.
    + injection Hs as <- <- <-. reflexivity.
    + intros p Hp. apply Hnone. rewrite !in_app_iff. auto.
    + intros p Hp. apply Hnone. rewrite !in_app_iff. auto.
    + intros p Hp. apply Hnone. rewrite !in_app_iff. auto.
Qed.

End Enrichment.

Lemma enrichment_never_raises_witness :
  exists details,
    extract_vote_details Sample.site_down "https://clerk.house.gov/evs/2023/roll055.xml"
    = Return details.
Proof.
  destruct (enrichment_never_raises Sample.site_down
              "https://clerk.house.gov/evs/2023/roll055.xml") as (details & H & _).
  exists details. exact H.
Defined.

(** ** The three accepted formats

    The formats as the specification words them: a day or a month is a
    number of one or two digits, a year a number of four digits, a month
    name one of the twelve three-letter abbreviations in any letter case. *)

Definition numeral (s : string) (n : Z) : Prop :=
  (String.length s = 1 \/ String.length s = 2)%nat
  /\ Str.forallb Str.is_digit s = true /\ Str.to_int s = n.

Definition year_numeral (s : string) (y : Z) : Prop :=
  String.length s = 4%nat /\ Str.forallb Str.is_digit s = true /\ Str.to_int s = y.

Definition month_names : list string :=
  ["jan"; "feb"; "mar"; "apr"; "may"; "jun"; "jul"; "aug"; "sep"; "oct"; "nov"; "dec"].

Definition month_abbreviation (s : string) (m : Z) : Prop :=
  1 <= m <= 12 /\ Str.lower s = nth (Z.to_nat (m - 1)) month_names "".

(** [written y m d text]: [text] is the date in one of the three formats. *)
Inductive written (y m d : Z) : string -> Prop :=
| written_D_Mon_Y (ds ms ys : string) :
    numeral ds d -> month_abbreviation ms m -> year_numeral ys y ->
    written y m d (ds ++ "-" ++ ms ++ "-" ++ ys)%string
| written_M_D_Y (ms ds ys : string) :
    numeral ms m -> numeral ds d -> year_numeral ys y ->
    written y m d (ms ++ "/" ++ ds ++ "/" ++ ys)%string
| written_Y_M_D (ys ms ds : string) :
    year_numeral ys y -> numeral ms m -> numeral ds d ->
    written y m d (ys ++ "-" ++ ms ++ "-" ++ ds)%string.

Lemma num2_zero (a : ascii) : num2 "0" a = Str.to_int (String a "").
Proof.
  unfold num2, Str.to_int. cbn [Str.int_onto].
  change (Str.digit_val "0") with 0. lia.
Qed.

(** A numeral, zero-padded: its two digits. *)
Lemma numeral_cases (s : string) (n : Z) :
  numeral s n ->
  exists a b, Str.is_digit a = true /\ Str.is_digit b = true /\ n = num2 a b
              /\ (s = String b "" /\ a = "0"%char \/ s = String a (String b "")).
Proof.
  intros (Hl & Hd & <-).
  destruct s as [|a [|b [|c s]]]; cbn [String.length] in Hl; try lia;
    cbn [Str.forallb] in Hd; rewrite ?andb_true_iff in Hd.
  - exists "0"%char, a. rewrite num2_zero. intuition.
  - exists a, b. intuition.
Qed.

Lemma year_numeral_cases (s : string) (y : Z) :
  year_numeral s y ->
  exists a b c d, Str.is_digit a = true /\ Str.is_digit b = true
                  /\ Str.is_digit c = true /\ Str.is_digit d = true
                  /\ y = num4 a b c d
                  /\ s = String a (String b (String c (String d ""))).
Proof.
  intros (Hl & Hd & <-).
  destruct s as [|a [|b [|c [|d [|e s]]]]]; cbn [String.length] in Hl; try lia.
  cbn [Str.forallb] in Hd. rewrite !andb_true_iff in Hd.
  exists a, b, c, d. intuition.
Qed.

Lemma lower_three (s : string) (a b c : ascii) :
  Str.lower s = String a (String b (String c "")) ->
  Str.is_alpha a = true -> Str.is_alpha b = true -> Str.is_alpha c = true ->
  exists l1 l2 l3, s = String l1 (String l2 (String l3 ""))
                   /\ Str.is_alpha l1 = true /\ Str.is_alpha l2 = true
                   /\ Str.is_alpha l3 = true.
Proof.
  destruct s as [|l1 [|l2 [|l3 [|l4 s]]]]; cbn; try discriminate.
  intros [= <- <- <-] H1 H2 H3. exists l1, l2, l3.
  repeat split; now apply lower_alpha.
Qed.

Lemma month_abbreviation_cases (s : string) (m : Z) :
  month_abbreviation s m ->
  exists l1 l2 l3 m1 m2,
    s = String l1 (String l2 (String l3 ""))
    /\ Str.is_alpha l1 = true /\ Str.is_alpha l2 = true /\ Str.is_alpha l3 = true
    /\ dict_get (Str.lower s) month_map = Some (String m1 (String m2 ""))
    /\ Str.is_digit m1 = true /\ Str.is_digit m2 = true /\ m = num2 m1 m2.
Proof.
  intros [Hm Hs].
  assert (Hcases : In m [1; 2; 3; 4; 5; 6; 7; 8; 9; 10; 11; 12]) by (cbn; lia).
  cbn [In] in Hcases.
  repeat (destruct Hcases as [<-|Hcases]);
    try contradiction;
    cbn in Hs;
    (destruct (lower_three s _ _ _ Hs eq_refl eq_refl eq_refl)
       as (l1 & l2 & l3 & -> & H1 & H2 & H3);
     exists l1, l2, l3; rewrite Hs; do 2 eexists;
     repeat split; try eassumption; reflexivity).
Qed.

Lemma date_search_skip (i : nat) (pre s : string) :
  no_digit pre ->
  Re.search (date_pattern i) (pre ++ s)%string = Re.search (date_pattern i) s.
Proof.
  intros Hpre.
  destruct i as [|[|[|i]]]; unfold date_pattern, date_patterns; cbn [nth].
  1-3: eapply search_skip; [reflexivity | reflexivity | exact Hpre].
  destruct i; cbn [nth]; now destruct (pre ++ s)%string, s.
Qed.

(** The steps shared by the three formats once the matcher has found the
    groups: the candidate is the canonical string and [strptime] accepts it. *)
Lemma accept_canonical (y1 y2 y3 y4 m1 m2 d1 d2 : ascii) :
  Str.is_digit y1 = true -> Str.is_digit y2 = true ->
  Str.is_digit y3 = true -> Str.is_digit y4 = true ->
  Str.is_digit m1 = true -> Str.is_digit m2 = true ->
  Str.is_digit d1 = true -> Str.is_digit d2 = true ->
  Calendar.is_date (num4 y1 y2 y3 y4) (num2 m1 m2) (num2 d1 d2) = true ->
  validated (ymd y1 y2 y3 y4 m1 m2 d1 d2) = Return (Some (ymd y1 y2 y3 y4 m1 m2 d1 d2)).
Proof.
  intros. unfold validated. rewrite strptime_canon by assumption. reflexivity.
Qed.

Ltac candidate :=
  cbn [format_candidate group nth Nat.sub Str.zfill String.length Str.repeat
       String.append];
  use_chars; cbn [orb String.append].

Section Written.

Variables (y m d : Z) (pre suf : string).
Hypothesis Hdate : Calendar.is_date y m d = true.
Hypothesis Hpre : no_digit pre.
Hypothesis Hsuf : no_digit suf.

Variables y1 y2 y3 y4 m1 m2 d1 d2 : ascii.
Hypothesis Hy1 : Str.is_digit y1 = true.
Hypothesis Hy2 : Str.is_digit y2 = true.
Hypothesis Hy3 : Str.is_digit y3 = true.
Hypothesis Hy4 : Str.is_digit y4 = true.
Hypothesis Hm1 : Str.is_digit m1 = true.
Hypothesis Hm2 : Str.is_digit m2 = true.
Hypothesis Hd1 : Str.is_digit d1 = true.
Hypothesis Hd2 : Str.is_digit d2 = true.
Hypothesis Hy : y = num4 y1 y2 y3 y4.
Hypothesis Hm : m = num2 m1 m2.
Hypothesis Hd : d = num2 d1 d2.

Let ys : string := String y1 (String y2 (String y3 (String y4 ""))).
Let r : string := ymd y1 y2 y3 y4 m1 m2 d1 d2.

Lemma accept_r : validated r = Return (Some r).
Proof.
  apply accept_canonical; try assumption. now rewrite <- Hy, <- Hm, <- Hd.
Qed.

Lemma accept_r' :
  validated (String y1 (String y2 (String y3 (String y4 (String "-"
    (String m1 (String m2 (String "-" (String d1 (String d2 ""))))))))))
  = Return (Some r).
Proof. exact accept_r. Qed.

(** One search of a date pattern in a text between [pre] and [suf]. *)
Ltac search_text :=
  rewrite date_search_skip by exact Hpre;
  pose proof Hy1 as Ky1; pose proof Hy2 as Ky2; pose proof Hy3 as Ky3;
  pose proof Hy4 as Ky4; pose proof Hm1 as Km1; pose proof Hm2 as Km2;
  pose proof Hd1 as Kd1; pose proof Hd2 as Kd2;
  char_facts;
  unfold date_pattern, date_patterns, ys; cbn [nth];
  matcher; reflexivity.

Section D_Mon_Y.

Variables l1 l2 l3 : ascii.
Hypothesis Hl1 : Str.is_alpha l1 = true.
Hypothesis Hl2 : Str.is_alpha l2 = true.
Hypothesis Hl3 : Str.is_alpha l3 = true.
Hypothesis Hmap :
  dict_get (Str.lower (String l1 (String l2 (String l3 "")))) month_map
  = Some (String m1 (String m2 "")).

Let ms : string := String l1 (String l2 (String l3 "")).

Lemma search_D_Mon_Y (ds : string) :
  ds = String d2 "" \/ ds = String d1 (String d2 "") ->
  Re.search (date_pattern 0) (pre ++ (ds ++ "-" ++ ms ++ "-" ++ ys) ++ suf)%string
  = Some [ds; ms; ys].
Proof.
  pose proof Hl1 as Kl1. pose proof Hl2 as Kl2. pose proof Hl3 as Kl3.
  unfold ms. intros [->| ->]; search_text.
Qed.

Lemma extract_D_Mon_Y (ds : string) :
  ds = String d2 "" /\ d1 = "0"%char \/ ds = String d1 (String d2 "") ->
  _extract_date (pre ++ (ds ++ "-" ++ ms ++ "-" ++ ys) ++ suf)%string = Return r.
Proof.
  intros Hds. rewrite extract_date_steps. cbn zeta.
  rewrite search_D_Mon_Y by tauto. unfold ms, ys.
  pose proof Hd1 as Kd1. pose proof Hd2 as Kd2. char_facts.
  pose proof accept_r' as Hr. unfold r, ymd in Hr |- *.
  destruct Hds as [[-> Hz]| ->]; candidate; rewrite Hmap; cbn [String.append];
    try rewrite Hz in Hr; try rewrite Hz; rewrite Hr; reflexivity.
Qed.

End D_Mon_Y.

Ltac two_numerals Hms Hds :=
  pose proof Hm1 as Km1; pose proof Hm2 as Km2;
  pose proof Hd1 as Kd1; pose proof Hd2 as Kd2; char_facts;
  pose proof accept_r' as Hr; unfold r, ymd in Hr |- *;
  destruct Hms as [[-> Hzm]| ->]; destruct Hds as [[-> Hzd]| ->];
  candidate;
  try rewrite Hzm in Hr; try rewrite Hzm; try rewrite Hzd in Hr; try rewrite Hzd;
  rewrite Hr; reflexivity.

Lemma search_M_D_Y (i : nat) (ms ds : string) :
  ms = String m2 "" \/ ms = String m1 (String m2 "") ->
  ds = String d2 "" \/ ds = String d1 (String d2 "") ->
  Re.search (date_pattern i) (pre ++ (ms ++ "/" ++ ds ++ "/" ++ ys) ++ suf)%string
  = match i with
    | 0%nat => None
    | 1%nat => Some [ms; ds; ys]
    | _ => Re.search (date_pattern i) (pre ++ (ms ++ "/" ++ ds ++ "/" ++ ys) ++ suf)%string
    end.
Proof.
  destruct i as [|[|i]]; [| |reflexivity]; intros [->| ->] [->| ->]; search_text.
Qed.

Lemma extract_M_D_Y (ms ds : string) :
  ms = String m2 "" /\ m1 = "0"%char \/ ms = String m1 (String m2 "") ->
  ds = String d2 "" /\ d1 = "0"%char \/ ds = String d1 (String d2 "") ->
  _extract_date (pre ++ (ms ++ "/" ++ ds ++ "/" ++ ys) ++ suf)%string = Return r.
Proof.
  intros Hms Hds. rewrite extract_date_steps. cbn zeta.
  rewrite (search_M_D_Y 0), (search_M_D_Y 1) by tauto. unfold ys.
  two_numerals Hms Hds.
Qed.

Lemma search_Y_M_D (i : nat) (ms ds : string) :
  ms = String m2 "" \/ ms = String m1 (String m2 "") ->
  ds = String d2 "" \/ ds = String d1 (String d2 "") ->
  Re.search (date_pattern i) (pre ++ (ys ++ "-" ++ ms ++ "-" ++ ds) ++ suf)%string
  = match i with
    | 0%nat | 1%nat => None
    | 2%nat => Some [ys; ms; ds]
    | _ => Re.search (date_pattern i) (pre ++ (ys ++ "-" ++ ms ++ "-" ++ ds) ++ suf)%string
    end.
Proof.
  destruct i as [|[|[|i]]]; [| | |reflexivity]; intros [->| ->] [->| ->]; search_text.
Qed.

Lemma extract_Y_M_D (ms ds : string) :
  ms = String m2 "" /\ m1 = "0"%char \/ ms = String m1 (String m2 "") ->
  ds = String d2 "" /\ d1 = "0"%char \/ ds = String d1 (String d2 "") ->
  _extract_date (pre ++ (ys ++ "-" ++ ms ++ "-" ++ ds) ++ suf)%string = Return r.
Proof.
  intros Hms Hds. rewrite extract_date_steps. cbn zeta.
  rewrite (search_Y_M_D 0), (search_Y_M_D 1), (search_Y_M_D 2) by tauto. unfold ys.
  two_numerals Hms Hds.
Qed.

End Written.

(** A date written in one of the three formats, with no digit around it, is
    extracted as the canonical string of the same date. *)
Lemma extract_written (y m d : Z) (text pre suf : string) :
  Calendar.is_date y m d = true -> written y m d text ->
  no_digit pre -> no_digit suf ->
  exists r, _extract_date (pre ++ text ++ suf)%string = Return r
            /\ canonical r /\ read_canonical r = Some (y, m, d).
Proof.
  intros Hdate Hw Hpre Hsuf.
  destruct Hw as [ds ms ys Hd Hm Hy | ms ds ys Hm Hd Hy | ys ms ds Hy Hm Hd];
    destruct (numeral_cases ds d Hd) as (d1 & d2 & Hd1 & Hd2 & Ed & Hds);
    destruct (year_numeral_cases ys y Hy)
      as (y1 & y2 & y3 & y4 & Hy1 & Hy2 & Hy3 & Hy4 & Ey & ->).
  - destruct (month_abbreviation_cases ms m Hm)
      as (l1 & l2 & l3 & m1 & m2 & -> & Hl1 & Hl2 & Hl3 & Hmap & Hm1 & Hm2 & Em).
    exists (ymd y1 y2 y3 y4 m1 m2 d1 d2). split; [|split].
    + now apply (extract_D_Mon_Y y m d pre suf Hdate Hpre Hsuf
                   y1 y2 y3 y4 m1 m2 d1 d2).
    + now constructor.
    + rewrite Ey, Em, Ed. now apply read_canonical_ymd.
  - destruct (numeral_cases ms m Hm) as (m1 & m2 & Hm1 & Hm2 & Em & Hms).
    exists (ymd y1 y2 y3 y4 m1 m2 d1 d2). split; [|split].
    + now apply (extract_M_D_Y y m d pre suf Hdate Hpre Hsuf
                   y1 y2 y3 y4 m1 m2 d1 d2).
    + now constructor.
    + rewrite Ey, Em, Ed. now apply read_canonical_ymd.
  - destruct (numeral_cases ms m Hm) as (m1 & m2 & Hm1 & Hm2 & Em & Hms).
    exists (ymd y1 y2 y3 y4 m1 m2 d1 d2). split; [|split].
    + now apply (extract_Y_M_D y m d pre suf Hdate Hpre Hsuf
                   y1 y2 y3 y4 m1 m2 d1 d2).
    + now constructor.
    + rewrite Ey, Em, Ed. now apply read_canonical_ymd.
Qed.

Lemma canonical_accepted (r : string) (v : Z * Z * Z) :
  canonical r -> Calendar.strptime_Ymd r = Return v ->
  exists y m d, read_canonical r = Some (y, m, d) /\ Calendar.is_date y m d = true.
Proof.
  intros Hc Hv. destruct Hc as [y1 y2 y3 y4 m1 m2 d1 d2].
  apply strptime_canon_inv in Hv; try assumption. destruct Hv as [_ Hv].
  do 3 eexists. split; [now apply read_canonical_ymd | exact Hv].
Qed.

Lemma candidate_rejected (i : nat) (pattern : Re.pattern) (rest : list Re.pattern)
  (html_content : string) (gs : list string) :
  Re.search pattern html_content = Some gs ->
  (forall r, format_candidate i gs <> Return (Some r)) ->
  extract_date_from i (pattern :: rest) html_content
  = extract_date_from (S i) rest html_content.
Proof.
  intros Hs Hno. cbn [extract_date_from]. rewrite Hs.
  destruct (format_candidate_cases i gs) as [->|[[message ->]|(r & v & Hr & _)]];
    [reflexivity..|].
  now destruct (Hno r).
Qed.




(** * Further properties of the collection *)

(** ** The scan ends *)

Section ScanEnds.

Variable get_house_vote_members : Z -> Z -> Z -> outcome (list APIVoteData.t).
Variable http_get : string -> outcome string.
Variables (congress session : Z) (last_name state : string).

Let loop := while_loop get_house_vote_members http_get.

(** More fuel than the loop needs changes nothing. *)
Lemma loop_more_fuel (max_votes : option Z) (fuel : nat) :
  forall (s : scan) (r : outcome scan),
    loop fuel congress session last_name state max_votes s = Some r ->
    loop (S fuel) congress session last_name state max_votes s = Some r.
Proof.
  unfold loop. induction fuel as [|fuel IH]; intros s r; [discriminate|].
  intros H. cbn [while_loop] in H. cbn [while_loop].
  destruct (_ <? _); [|exact H].
  destruct (cap_reached _ _); [exact H|].
  destruct (loop_body _ _ _ _ _ _ s) as [s1|s1|e]; [|exact H..].
  apply IH in H. exact H.
Qed.

Lemma loop_fuel_le (max_votes : option Z) (fuel fuel' : nat) (s : scan)
  (r : outcome scan) :
  (fuel <= fuel')%nat ->
  loop fuel congress session last_name state max_votes s = Some r ->
  loop fuel' congress session last_name state max_votes s = Some r.
Proof.
  induction 1 as [|fuel' _ IH]; [auto|].
  intros H. now apply loop_more_fuel, IH.
Qed.

(** From vote number [N] on, every answer is an API fault. *)
Variable N : Z.
Hypothesis Hend :
  forall n : Z, N <= n ->
    exists message status_code,
      get_house_vote_members congress session n = Raise (APIError message status_code).

(** Passes still to come, at most. *)
Definition passes_left (s : scan) : Z :=
  if vote_number s <? N then N - vote_number s + 5 else 5 - consecutive_failures s.

(** The vote number the scan ends at, at most. *)
Definition last_number (s : scan) : Z :=
  if vote_number s <? N then N + 5 else vote_number s + 5 - consecutive_failures s.

Lemma pass_progress (s : scan) :
  0 <= consecutive_failures s < 5 ->
  match loop_body get_house_vote_members http_get congress session last_name state s with
  | Continue s' =>
      passes_left s' < passes_left s /\ last_number s' <= last_number s
      /\ 0 <= consecutive_failures s' < 5
  | Break s' => vote_number s' <= last_number s
  | Abort _ => True
  end.
Proof.
  intros Hc. unfold passes_left, last_number.
  pose proof (body_step get_house_vote_members http_get congress session
                last_name state s) as Hs.
  pose proof (body_counter get_house_vote_members http_get congress session
                last_name state s) as Hk.
  unfold max_consecutive_failures in Hk. specialize (Hk Hc).
  destruct (Z.ltb_spec (vote_number s) N) as [Hlt|Hge].
  - destruct (loop_body _ _ _ _ _ _ s) as [s1|s1|e]; [| |exact I].
    + destruct Hs as [-> _].
      destruct (Z.ltb_spec (vote_number s + 1) N); lia.
    + destruct Hs as [-> _]. lia.
  - destruct (Hend _ Hge) as (message & status_code & Hf).
    unfold loop_body in *. rewrite Hf in *. cbn [is_APIError] in *.
    unfold on_api_error, max_consecutive_failures in *.
    cbn [consecutive_failures vote_number] in *.
    destruct (Z.leb_spec 5 (consecutive_failures s + 1));
      cbn [consecutive_failures vote_number].
    + lia.
    + destruct (Z.ltb_spec (vote_number s + 1) N); lia.
Qed.

Lemma number_le_last (s : scan) :
  consecutive_failures s <= 5 -> vote_number s <= last_number s.
Proof.
  unfold last_number. destruct (Z.ltb_spec (vote_number s) N); lia.
Qed.

Lemma loop_ends (max_votes : option Z) (fuel : nat) :
  forall s : scan,
    0 <= consecutive_failures s <= 5 ->
    passes_left s < Z.of_nat fuel ->
    exists r, loop fuel congress session last_name state max_votes s = Some r
              /\ forall s_end, r = Return s_end -> vote_number s_end <= last_number s.
Proof.
  unfold loop. induction fuel as [|fuel IH]; intros s Hc Hfuel.
  - exfalso. unfold passes_left in Hfuel.
    destruct (Z.ltb_spec (vote_number s) N); lia.
  - pose proof (number_le_last s ltac:(lia)) as Hn.
    cbn [while_loop]. unfold max_consecutive_failures.
    destruct (Z.ltb_spec (consecutive_failures s) 5) as [Hlt|Hge].
    + destruct (cap_reached max_votes (session_votes s)).
      * eexists. split; [reflexivity|]. now intros s_end [= <-].
      * pose proof (pass_progress s ltac:(lia)) as Hp.
        destruct (loop_body _ _ _ _ _ _ s) as [s1|s1|e].
        -- destruct Hp as (Hp1 & Hp2 & Hp3).
           destruct (IH s1 ltac:(lia) ltac:(lia)) as (r & Hr & Hv).
           exists r. split; [exact Hr|]. intros s_end Hs. specialize (Hv s_end Hs). lia.
        -- eexists. split; [reflexivity|]. now intros s_end [= <-].
        -- eexists. split; [reflexivity|]. discriminate.
    + eexists. split; [reflexivity|]. now intros s_end [= <-].
Qed.

Lemma scan_start_ends (max_votes : option Z) :
  exists r,
    (forall fuel : nat,
        Z.max N 1 + 5 <= Z.of_nat fuel ->
        loop fuel congress session last_name state max_votes scan_start = Some r)
    /\ forall s_end, r = Return s_end -> vote_number s_end <= Z.max N 1 + 5.
Proof.
  destruct (loop_ends max_votes (Z.to_nat (Z.max N 1 + 5)) scan_start)
    as (r & Hr & Hv).
  - cbn. lia.
  - unfold passes_left. cbn [vote_number consecutive_failures scan_start].
    destruct (Z.ltb_spec 1 N); lia.
  - exists r. split.
    + intros fuel Hfuel. apply (loop_fuel_le max_votes (Z.to_nat (Z.max N 1 + 5)) fuel);
        [lia | exact Hr].
    + intros s_end Hs. specialize (Hv s_end Hs). unfold last_number in Hv.
      cbn [vote_number consecutive_failures scan_start] in Hv.
      destruct (Z.ltb_spec 1 N); lia.
Qed.

(** X1: when every vote number from [N] on answers with an API fault, the
    scan of the session ends, whatever the cap: with [max N 1 + 5] units of
    fuel or more it gives one and the same outcome, and a scan that returns
    has not gone past vote number [max N 1 + 4]. *)
Theorem session_scan_ends (max_votes : option Z) :
  exists r,
    (forall fuel : nat,
        Z.max N 1 + 5 <= Z.of_nat fuel ->
        loop fuel congress session last_name state max_votes scan_start = Some r)
    /\ forall s_end, r = Return s_end -> vote_number s_end <= Z.max N 1 + 5.
Proof. exact (scan_start_ends max_votes). Qed.

End ScanEnds.

Lemma sample_api_one_ends (n : Z) :
  2 <= n ->
  exists message status_code,
    Sample.api_one 118 1 n = Raise (APIError message status_code).
Proof.
  intros Hn. unfold Sample.api_one, Sample.not_found.
  destruct (Z.eqb_spec n 1); [lia|]. cbn. eauto.
Qed.

Lemma session_scan_ends_witness :
  exists r,
    while_loop Sample.api_one Sample.site_page 7 118 1 "Doe" "TX" None scan_start
    = Some r.
Proof.
  destruct (session_scan_ends Sample.api_one Sample.site_page 118 1 "Doe" "TX" 2
              sample_api_one_ends None) as (r & Hr & _).
  exists r. apply Hr. cbn. lia.
Defined.

(** ** The collection call ends, is cut at the cap, and composes *)

Definition valid_record (r : VoteRecord.t) : Prop :=
  1 <= VoteRecord.congress r
  /\ Re.match_whole date_format (VoteRecord.date r) = true
  /\ 1 <= VoteRecord.roll_call_number r
  /\ VoteRecord.vote_cast r <> "".

Lemma VoteRecord_new_valid (r r' : VoteRecord.t) :
  VoteRecord.new r = Return r' -> valid_record r'.
Proof.
  intros H. pose proof (VoteRecord_new_inv _ _ H) as ->. revert H.
  unfold VoteRecord.new, VoteRecord.validate, valid_record.
  destruct (Z.ltb_spec (VoteRecord.congress r) 1); [discriminate|].
  destruct (Re.match_whole date_format (VoteRecord.date r)); [|discriminate].
  destruct (Z.ltb_spec (VoteRecord.roll_call_number r) 1); [discriminate|].
  destruct (VoteRecord.vote_cast r); [discriminate|].
  intros _. repeat split; try lia. discriminate.
Qed.

Lemma Forall_firstn {A : Type} (P : A -> Prop) (n : nat) :
  forall l : list A, Forall P l -> Forall P (firstn n l).
Proof.
  induction n as [|n IH]; intros [|a l] H; cbn [firstn]; auto.
  inversion H; subst. constructor; auto.
Qed.

Lemma Forall_slice_to {A : Type} (P : A -> Prop) (m : Z) (l : list A) :
  Forall P l -> Forall P (slice_to m l).
Proof.
  intros H. unfold slice_to. destruct (m <? 0); now apply Forall_firstn.
Qed.

Lemma len_slice_to {A : Type} (k : Z) (l : list A) :
  0 < k -> len (slice_to k l) <= k.
Proof.
  intros Hk. rewrite slice_to_positive, len_firstn by lia. lia.
Qed.

Section CollectionBounds.

Variable get_house_vote_members : Z -> Z -> Z -> outcome (list APIVoteData.t).
Variable http_get : string -> outcome string.

Let loop := while_loop get_house_vote_members http_get.
Let scan_session := _collect_session_votes get_house_vote_members http_get.
Let sessions_from := session_loop get_house_vote_members http_get.
Let scan_congress := _collect_congress_votes get_house_vote_members http_get.
Let congresses_from := congress_loop get_house_vote_members http_get.

(** *** Every record is a valid record *)

Lemma finished_record_valid (member_vote : APIVoteData.t) (r : VoteRecord.t) :
  finished_record http_get member_vote = Return r -> valid_record r.
Proof.
  unfold finished_record.
  destruct (extract_vote_details _ _) as [d|e]; cbn [bind]; [|discriminate].
  destruct (_generate_roll_call_url _) as [url|e]; cbn [bind]; [|discriminate].
  apply VoteRecord_new_valid.
Qed.

Lemma body_valid (congress session : Z) (last_name state : string) (s : scan) :
  Forall valid_record (session_votes s) ->
  match loop_body get_house_vote_members http_get congress session last_name state s with
  | Continue s' | Break s' => Forall valid_record (session_votes s')
  | Abort _ => True
  end.
Proof.
  intros Hs. unfold loop_body.
  assert (Hf : match on_api_error s with
               | Continue s' | Break s' => Forall valid_record (session_votes s')
               | Abort _ => True
               end)
    by (unfold on_api_error; destruct (_ <=? _); exact Hs).
  destruct (get_house_vote_members _ _ _) as [data|e].
  - destruct (_find_member_vote _ _ _) as [member_vote|]; [|exact Hs].
    destruct (finished_record http_get member_vote) as [r|e] eqn:Hr.
    + cbn [session_votes]. apply Forall_app. split; [exact Hs|].
      constructor; [exact (finished_record_valid _ _ Hr)|constructor].
    + destruct (is_APIError e); [exact Hf|exact I].
  - destruct (is_APIError e); [exact Hf|exact I].
Qed.

Lemma loop_valid (congress session : Z) (last_name state : string)
  (max_votes : option Z) (fuel : nat) :
  forall s s_end : scan,
    Forall valid_record (session_votes s) ->
    loop fuel congress session last_name state max_votes s = Some (Return s_end) ->
    Forall valid_record (session_votes s_end).
Proof.
  unfold loop. induction fuel as [|fuel IH]; intros s s_end Hs; cbn [while_loop];
    [discriminate|].
  destruct (_ <? _); [|now intros [= <-]].
  destruct (cap_reached _ _); [now intros [= <-]|].
  pose proof (body_valid congress session last_name state s Hs) as Hb.
  destruct (loop_body _ _ _ _ _ _ s) as [s1|s1|e]; [| |discriminate].
  - now apply IH.
  - now intros [= <-].
Qed.

Lemma scan_session_valid (congress session : Z) (last_name state : string)
  (max_votes : option Z) (fuel : nat) (votes : list VoteRecord.t) :
  scan_session fuel congress session last_name state max_votes = Some (Return votes) ->
  Forall valid_record votes.
Proof.
  unfold scan_session, _collect_session_votes.
  destruct (while_loop _ _ _ _ _ _ _ _ _) as [[s_end|e]|] eqn:H; cbn [lift];
    try discriminate.
  intros [= <-].
  apply (loop_valid congress session last_name state max_votes fuel scan_start s_end);
    [constructor | exact H].
Qed.

Lemma sessions_valid (congress : Z) (last_name state : string)
  (max_votes : option Z) (fuel : nat) (sessions : list Z) :
  forall congress_votes votes : list VoteRecord.t,
    Forall valid_record congress_votes ->
    sessions_from fuel congress last_name state max_votes sessions congress_votes
      = Some (Return votes) ->
    Forall valid_record votes.
Proof.
  unfold sessions_from.
  induction sessions as [|session rest IH]; intros congress_votes votes Hv;
    cbn [session_loop]; [now intros [= <-]|].
  destruct (cap_reached _ _); [now intros [= <-]|].
  destruct (_collect_session_votes _ _ _ _ _ _ _ _) as [[sv|e]|] eqn:Hs;
    try discriminate.
  apply IH. apply Forall_app. split; [exact Hv|].
  exact (scan_session_valid _ _ _ _ _ _ _ Hs).
Qed.

Lemma congresses_valid (last_name state : string) (max_votes : option Z) (fuel : nat)
  (congresses : list Z) :
  forall all_votes votes : list VoteRecord.t,
    Forall valid_record all_votes ->
    congresses_from fuel last_name state max_votes congresses all_votes
      = Some (Return votes) ->
    Forall valid_record votes.
Proof.
  unfold congresses_from.
  induction congresses as [|congress rest IH]; intros all_votes votes Hv;
    cbn [congress_loop]; [now intros [= <-]|].
  destruct (cap_reached _ all_votes); [now intros [= <-]|].
  destruct (_collect_congress_votes _ _ _ _ _ _ _) as [[cv|e]|] eqn:Hc;
    try discriminate.
  assert (Hall : Forall valid_record (all_votes ++ cv)).
  { apply Forall_app. split; [exact Hv|].
    apply (sessions_valid congress last_name state (remaining max_votes all_votes)
             fuel [1; 2] [] cv); [constructor | exact Hc]. }
  destruct (cap_reached _ _).
  - intros [= <-]. destruct max_votes; [now apply Forall_slice_to|exact Hall].
  - now apply IH.
Qed.

(** X2: every record of a list that the collection call returns passed the
    checks of [VoteRecord]: a congress and a roll call number of at least 1,
    a date that the date pattern accepts, a vote cast that is not empty. *)
Theorem collected_records_are_valid (fuel : nat)
  (search_criteria : MemberSearchCriteria.t) (max_votes : option Z)
  (votes : list VoteRecord.t) :
  collect_member_votes get_house_vote_members http_get fuel search_criteria max_votes
    = Some (Return votes) ->
  Forall valid_record votes.
Proof.
  intros H. apply congresses_of_collect in H.
  eapply (congresses_valid) with (all_votes := []); [constructor | exact H].
Qed.

(** *** Never more records than the cap *)

Lemma loop_within_cap (congress session : Z) (last_name state : string) (k : Z)
  (fuel : nat) :
  0 < k ->
  forall s s_end : scan,
    len (session_votes s) <= k ->
    loop fuel congress session last_name state (Some k) s = Some (Return s_end) ->
    len (session_votes s_end) <= k.
Proof.
  intros Hk. unfold loop.
  induction fuel as [|fuel IH]; intros s s_end Hlen; cbn [while_loop]; [discriminate|].
  destruct (_ <? _); [|now intros [= <-]].
  destruct (cap_reached (Some k) (session_votes s)) eqn:Hcap; [now intros [= <-]|].
  apply cap_reached_false in Hcap; [|exact Hk].
  pose proof (body_step get_house_vote_members http_get congress session
                last_name state s) as Hs.
  destruct (loop_body _ _ _ _ _ _ s) as [s1|s1|e]; [| |discriminate].
  - apply IH. destruct Hs as [_ [->|[r ->]]]; [lia|]. rewrite len_app. cbn. lia.
  - intros [= <-]. destruct Hs as [_ ->]. lia.
Qed.

Lemma sessions_within_cap (congress : Z) (last_name state : string) (k : Z)
  (fuel : nat) (sessions : list Z) :
  0 < k ->
  forall congress_votes votes : list VoteRecord.t,
    len congress_votes <= k ->
    sessions_from fuel congress last_name state (Some k) sessions congress_votes
      = Some (Return votes) ->
    len votes <= k.
Proof.
  intros Hk. unfold sessions_from.
  induction sessions as [|session rest IH]; intros congress_votes votes Hlen;
    cbn [session_loop]; [now intros [= <-]|].
  destruct (cap_reached (Some k) congress_votes) eqn:Hcap; [now intros [= <-]|].
  apply cap_reached_false in Hcap; [|exact Hk].
  rewrite remaining_positive by exact Hk.
  unfold _collect_session_votes at 1.
  destruct (while_loop _ _ _ _ _ _ _ _ _) as [[s_end|e]|] eqn:Hl; cbn [lift];
    try discriminate.
  apply IH. rewrite len_app.
  pose proof (loop_within_cap congress session last_name state
                (k - len congress_votes) fuel ltac:(lia) scan_start s_end) as Hb.
  unfold loop in Hb. specialize (Hb ltac:(cbn; lia) Hl). lia.
Qed.

Lemma congresses_within_cap (last_name state : string) (k : Z) (fuel : nat)
  (congresses : list Z) :
  0 < k ->
  forall all_votes votes : list VoteRecord.t,
    len all_votes <= k ->
    congresses_from fuel last_name state (Some k) congresses all_votes
      = Some (Return votes) ->
    len votes <= k.
Proof.
  intros Hk. unfold congresses_from.
  induction congresses as [|congress rest IH]; intros all_votes votes Hlen;
    cbn [congress_loop]; [now intros [= <-]|].
  destruct (cap_reached (Some k) all_votes) eqn:Hcap; [now intros [= <-]|].
  destruct (_collect_congress_votes _ _ _ _ _ _ _) as [[cv|e]|]; try discriminate.
  destruct (cap_reached (Some k) (all_votes ++ cv)) eqn:Hcap'.
  - intros [= <-]. now apply len_slice_to.
  - apply cap_reached_false in Hcap'; [|exact Hk]. apply IH. lia.
Qed.

(** X3: with a positive cap the collection call never returns more records
    than the cap. *)
Theorem collection_within_cap (fuel : nat) (search_criteria : MemberSearchCriteria.t)
  (max_votes : Z) (votes : list VoteRecord.t) :
  0 < max_votes ->
  collect_member_votes get_house_vote_members http_get fuel search_criteria
    (Some max_votes) = Some (Return votes) ->
  len votes <= max_votes.
Proof.
  intros Hk H. apply congresses_of_collect in H.
  eapply (congresses_within_cap) with (all_votes := []);
    [exact Hk | cbn; lia | exact H].
Qed.

(** X4: with a negative cap the collection call returns the empty list
    without a single request, whatever the criteria. *)
Theorem negative_cap_collects_nothing (fuel : nat)
  (search_criteria : MemberSearchCriteria.t) (max_votes : Z) :
  max_votes < 0 ->
  collect_member_votes get_house_vote_members http_get fuel search_criteria
    (Some max_votes) = Some (Return []).
Proof.
  intros Hk. apply collect_of_congresses. unfold congresses_from.
  destruct (MemberSearchCriteria.congress_numbers search_criteria) as [|congress rest];
    cbn [congress_loop]; [reflexivity|].
  replace (cap_reached (Some max_votes) (@nil VoteRecord.t)) with true; [reflexivity|].
  unfold cap_reached. cbn [len length Z.of_nat].
  destruct (Z.eqb_spec max_votes 0); [lia|].
  destruct (Z.leb_spec max_votes 0); [reflexivity|lia].
Qed.

(** *** The congresses one after the other *)

Lemma congresses_from_votes (last_name state : string) (fuel : nat)
  (congresses : list Z) :
  forall all_votes : list VoteRecord.t,
    congresses_from fuel last_name state None congresses all_votes
    = lift (app all_votes) (congresses_from fuel last_name state None congresses []).
Proof.
  unfold congresses_from.
  induction congresses as [|congress rest IH]; intros all_votes;
    cbn [congress_loop cap_reached remaining lift].
  - now rewrite app_nil_r.
  - destruct (_collect_congress_votes _ _ _ _ _ _ _) as [[cv|e]|]; cbn [lift];
      [|reflexivity..].
    rewrite (IH (all_votes ++ cv)), (IH ([] ++ cv)). cbn [app].
    destruct (congress_loop _ _ _ _ _ _ rest []) as [[v|e]|]; cbn [lift];
      [|reflexivity..].
    now rewrite app_assoc.
Qed.

Lemma congresses_from_app (last_name state : string) (fuel : nat)
  (first second : list Z) :
  forall all_votes : list VoteRecord.t,
    congresses_from fuel last_name state None (first ++ second) all_votes
    = match congresses_from fuel last_name state None first all_votes with
      | Some (Return votes) => congresses_from fuel last_name state None second votes
      | other => other
      end.
Proof.
  unfold congresses_from.
  induction first as [|congress rest IH]; intros all_votes;
    cbn [app congress_loop cap_reached remaining]; [reflexivity|].
  destruct (_collect_congress_votes _ _ _ _ _ _ _) as [[cv|e]|]; [|reflexivity..].
  apply IH.
Qed.

(** X5: without a cap, collecting for a list of congresses followed by a
    second list gives the records of the first list followed by those of the
    second, when both calls return; and a fault of the call for the first
    list is the fault of the whole call. *)
Theorem collection_of_appended_congresses (fuel : nat) (last_name state : string)
  (first second : list Z) :
  let collect congresses :=
    collect_member_votes get_house_vote_members http_get fuel
      (MemberSearchCriteria.mk last_name state congresses) None in
  (forall votes votes',
      collect first = Some (Return votes) ->
      collect second = Some (Return votes') ->
      collect (first ++ second) = Some (Return (votes ++ votes')))
  /\ (forall e, collect first = Some (Raise e) ->
                collect (first ++ second) = Some (Raise e)).
Proof.
  cbn zeta. split.
  - intros votes votes' H1 H2.
    apply congresses_of_collect in H1, H2. apply collect_of_congresses.
    cbn [MemberSearchCriteria.last_name MemberSearchCriteria.state
         MemberSearchCriteria.congress_numbers] in *.
    pose proof (congresses_from_app last_name state fuel first second []) as Happ.
    pose proof (congresses_from_votes last_name state fuel second votes) as Hacc.
    unfold congresses_from in Happ, Hacc.
    rewrite Happ, H1, Hacc, H2. reflexivity.
  - intros e H1.
    apply congresses_of_collect in H1. apply collect_of_congresses.
    cbn [MemberSearchCriteria.last_name MemberSearchCriteria.state
         MemberSearchCriteria.congress_numbers] in *.
    pose proof (congresses_from_app last_name state fuel first second []) as Happ.
    unfold congresses_from in Happ. now rewrite Happ, H1.
Qed.

End CollectionBounds.

Lemma sample_capped_three :
  collect_member_votes Sample.api_two Sample.site_page 20 Sample.doe_two (Some 3)
  = Some (Return (firstn 3 sample_all_votes)).
Proof. vm_compute. reflexivity. Qed.

Lemma collected_records_are_valid_witness : Forall valid_record sample_all_votes.
Proof.
  exact (collected_records_are_valid Sample.api_two Sample.site_page 20
           Sample.doe_two None sample_all_votes sample_uncapped).
Defined.

Lemma collection_within_cap_witness : len (firstn 3 sample_all_votes) <= 3.
Proof.
  apply (collection_within_cap Sample.api_two Sample.site_page 20 Sample.doe_two 3).
  - lia.
  - exact sample_capped_three.
Defined.

Lemma negative_cap_collects_nothing_witness :
  collect_member_votes Sample.api_two Sample.site_page 20 Sample.doe_two (Some (-1))
  = Some (Return []).
Proof.
  apply negative_cap_collects_nothing. lia.
Defined.

(** ** The collection call ends *)

Section CollectionEnds.

Variable get_house_vote_members : Z -> Z -> Z -> outcome (list APIVoteData.t).
Variable http_get : string -> outcome string.
Variables (last_name state : string) (congresses : list Z).

(** In both sessions of every requested congress, every vote number from
    [N] on answers with an API fault. *)
Variable N : Z.
Hypothesis Hend :
  forall congress session n : Z,
    In congress congresses -> In session [1; 2] -> N <= n ->
    exists message status_code,
      get_house_vote_members congress session n = Raise (APIError message status_code).

Let enough : nat := Z.to_nat (Z.max N 1 + 5).

Lemma scan_session_same (congress session : Z) (max_votes : option Z) (fuel : nat) :
  In congress congresses -> In session [1; 2] -> (enough <= fuel)%nat ->
  exists r,
    _collect_session_votes get_house_vote_members http_get fuel congress session
      last_name state max_votes = Some r
    /\ _collect_session_votes get_house_vote_members http_get enough congress session
      last_name state max_votes = Some r.
Proof.
  intros Hc Hs Hfuel.
  destruct (scan_start_ends get_house_vote_members http_get congress session
              last_name state N (fun n Hn => Hend congress session n Hc Hs Hn)
              max_votes) as (r & Hr & _).
  unfold _collect_session_votes.
  rewrite (Hr fuel), (Hr enough) by (unfold enough in *; lia).
  destruct r; cbn [lift]; eauto.
Qed.

Lemma sessions_same (congress : Z) (max_votes : option Z) (fuel : nat)
  (sessions : list Z) :
  In congress congresses -> incl sessions [1; 2] -> (enough <= fuel)%nat ->
  forall congress_votes : list VoteRecord.t,
    exists r,
      session_loop get_house_vote_members http_get fuel congress last_name state
        max_votes sessions congress_votes = Some r
      /\ session_loop get_house_vote_members http_get enough congress last_name state
        max_votes sessions congress_votes = Some r.
Proof.
  intros Hc Hs Hfuel.
  induction sessions as [|session rest IH]; intros congress_votes; cbn [session_loop];
    [eauto|].
  destruct (cap_reached _ _); [eauto|].
  destruct (scan_session_same congress session (remaining max_votes congress_votes)
              fuel Hc (Hs session (or_introl eq_refl)) Hfuel) as (r & -> & ->).
  destruct r as [sv|e]; [|eauto].
  apply IH. intros x Hx. apply Hs. now right.
Qed.

Lemma congresses_same (max_votes : option Z) (fuel : nat) (requested : list Z) :
  incl requested congresses -> (enough <= fuel)%nat ->
  forall all_votes : list VoteRecord.t,
    exists r,
      congress_loop get_house_vote_members http_get fuel last_name state
        max_votes requested all_votes = Some r
      /\ congress_loop get_house_vote_members http_get enough last_name state
        max_votes requested all_votes = Some r.
Proof.
  intros Hc Hfuel.
  induction requested as [|congress rest IH]; intros all_votes; cbn [congress_loop];
    [eauto|].
  destruct (cap_reached _ all_votes); [eauto|].
  unfold _collect_congress_votes.
  destruct (sessions_same congress (remaining max_votes all_votes) fuel [1; 2]
              (Hc congress (or_introl eq_refl)) (incl_refl _) Hfuel [])
    as (r & -> & ->).
  destruct r as [cv|e]; [|eauto].
  destruct (cap_reached _ _); [eauto|].
  apply IH. intros x Hx. apply Hc. now right.
Qed.

(** X6: when, in both sessions of every requested congress, every vote
    number from [N] on answers with an API fault, the collection call ends
    for every cap: with [max N 1 + 5] units of fuel or more it gives one and
    the same outcome. *)
Theorem collection_ends (max_votes : option Z) :
  exists r,
    forall fuel : nat,
      Z.max N 1 + 5 <= Z.of_nat fuel ->
      collect_member_votes get_house_vote_members http_get fuel
        (MemberSearchCriteria.mk last_name state congresses) max_votes = Some r.
Proof.
  destruct (congresses_same max_votes enough congresses (incl_refl _) (le_n _) [])
    as (r0 & H0 & _).
  exists (try_except r0 (fun e => Raise e)).
  intros fuel Hfuel.
  destruct (congresses_same max_votes fuel congresses (incl_refl _)
              ltac:(unfold enough; lia) []) as (r & Hr & Hr').
  rewrite H0 in Hr'. injection Hr' as <-.
  unfold collect_member_votes.
  cbn [MemberSearchCriteria.last_name MemberSearchCriteria.state
       MemberSearchCriteria.congress_numbers].
  now rewrite Hr.
Qed.

End CollectionEnds.

Lemma sample_api_two_ends (congress session n : Z) :
  In congress [118; 119] -> In session [1; 2] -> 3 <= n ->
  exists message status_code,
    Sample.api_two congress session n = Raise (APIError message status_code).
Proof.
  intros _ _ Hn. unfold Sample.api_two, Sample.not_found.
  destruct (Z.leb_spec n 2); [lia|]. rewrite andb_false_r. eauto.
Qed.

Lemma collection_ends_witness :
  exists r,
    collect_member_votes Sample.api_two Sample.site_page 8
      (MemberSearchCriteria.mk "Doe" "TX" [118; 119]) (Some 3) = Some r.
Proof.
  destruct (collection_ends Sample.api_two Sample.site_page "Doe" "TX" [118; 119] 3
              sample_api_two_ends (Some 3)) as (r & Hr).
  exists r. apply Hr. cbn. lia.
Defined.

(** * The collection against the records in scan order *)

(** [run] ends in [r]: it gives [r] whenever it has fuel enough. *)
Definition ends_in {A : Type} (run : nat -> option (outcome A)) (r : outcome A) : Prop :=
  exists enough : nat, forall fuel : nat, (enough <= fuel)%nat -> run fuel = Some r.

Lemma cap_prefix {A : Type} (max_votes : option Z) (l more : list A) :
  cap_reached max_votes (l ++ more) = false -> cap_reached max_votes l = false.
Proof.
  destruct max_votes as [m|]; [|reflexivity]. unfold cap_reached.
  rewrite len_app. pose proof (len_nonneg more).
  destruct (Z.eqb_spec m 0); cbn [negb andb]; [reflexivity|].
  rewrite !Z.leb_gt. lia.
Qed.

(** The cap handed down is reached by [l] when the cap is reached by the
    records at hand followed by [l]. *)
Lemma cap_remaining {A : Type} (max_votes : option Z) (votes l : list A) :
  cap_reached max_votes votes = false ->
  cap_reached (remaining max_votes votes) l = cap_reached max_votes (votes ++ l).
Proof.
  destruct max_votes as [m|]; [|reflexivity]. unfold cap_reached, remaining.
  rewrite len_app. destruct (Z.eqb_spec m 0); cbn [negb andb]; [reflexivity|].
  rewrite Z.leb_gt. intros H.
  destruct (Z.eqb_spec (m - len votes) 0); [lia|]. cbn [negb andb].
  destruct (Z.leb_spec (m - len votes) (len l)), (Z.leb_spec m (len votes + len l));
    reflexivity || lia.
Qed.

Lemma is_APIError_inv (e : exn) :
  is_APIError e = true -> exists message status_code, e = APIError message status_code.
Proof. destruct e; try discriminate. eauto. Qed.

Section ScanOrder.

Variable get_house_vote_members : Z -> Z -> Z -> outcome (list APIVoteData.t).
Variable http_get : string -> outcome string.
Variables (last_name state : string).

(** ** The records in scan order

    What the scan of one session finds when no cap stops it, told without
    the loop: [scanned congress session number failures records] says that
    the vote numbers from 1 up to [number], [number] left out, give
    [records], and that the last [failures] of them were API faults. *)
Inductive scanned (congress session : Z) : Z -> Z -> list VoteRecord.t -> Prop :=
| scanned_start : scanned congress session 1 0 []
| scanned_record (number failures : Z) (records : list VoteRecord.t)
    (api_vote_data : list APIVoteData.t) (member_vote : APIVoteData.t)
    (vote_record : VoteRecord.t) :
    scanned congress session number failures records -> failures < 5 ->
    get_house_vote_members congress session number = Return api_vote_data ->
    _find_member_vote api_vote_data last_name state = Some member_vote ->
    finished_record http_get member_vote = Return vote_record ->
    scanned congress session (number + 1) 0 (records ++ [vote_record])
| scanned_no_member (number failures : Z) (records : list VoteRecord.t)
    (api_vote_data : list APIVoteData.t) :
    scanned congress session number failures records -> failures < 5 ->
    get_house_vote_members congress session number = Return api_vote_data ->
    _find_member_vote api_vote_data last_name state = None ->
    scanned congress session (number + 1) 0 records
| scanned_failure (number failures : Z) (records : list VoteRecord.t)
    (message : string) (status_code : option Z) :
    scanned congress session number failures records -> failures < 5 ->
    get_house_vote_members congress session number
      = Raise (APIError message status_code) ->
    scanned congress session (number + 1) (failures + 1) records.

(** The sessions of the requested congresses, in the order of the scan. *)
Definition scan_order (congresses : list Z) : list (Z * Z) :=
  flat_map (fun congress => [(congress, 1); (congress, 2)]) congresses.

(** [scan_of sessions records place]: the sessions, scanned in order with
    no cap, give [records] up to [place].  A session is left for the next
    one at its fifth failure in a row.  [place] is [None] when every session
    has been left, and [Some (congress, session, number, failures)] when the
    scan is in a session, about to ask for the vote [number]. *)
Inductive scan_of :
  list (Z * Z) -> list VoteRecord.t -> option (Z * Z * Z * Z) -> Prop :=
| scan_all : scan_of [] [] None
| scan_within (congress session : Z) (rest : list (Z * Z)) (number failures : Z)
    (records : list VoteRecord.t) :
    scanned congress session number failures records ->
    scan_of ((congress, session) :: rest) records
            (Some (congress, session, number, failures))
| scan_next (congress session : Z) (rest : list (Z * Z)) (number : Z)
    (records more : list VoteRecord.t) (place : option (Z * Z * Z * Z)) :
    scanned congress session number 5 records ->
    scan_of rest more place ->
    scan_of ((congress, session) :: rest) (records ++ more) place.

Lemma scan_of_app (first second : list (Z * Z)) :
  forall (records : list VoteRecord.t) (place : option (Z * Z * Z * Z)),
    scan_of (first ++ second) records place ->
    (exists p, place = Some p /\ scan_of first records place)
    \/ (exists l l', scan_of first l None /\ scan_of second l' place
                     /\ records = l ++ l').
Proof.
  induction first as [|[congress session] first IH]; intros records place H.
  - right. exists [], records. repeat split; [constructor | exact H].
  - cbn [app] in H. inversion H as [|? ? ? number failures ? Hs|? ? ? number l more ? Hs Hrest];
      subst.
    + left. eexists. split; [reflexivity|]. now constructor.
    + destruct (IH _ _ Hrest) as [(p & Hp & Hin)|(l1 & l2 & H1 & H2 & ->)].
      * left. exists p. split; [exact Hp|]. now apply scan_next with (number := number).
      * right. exists (l ++ l1), l2. repeat split.
        -- now apply scan_next with (number := number).
        -- exact H2.
        -- now rewrite app_assoc.
Qed.

(** ** The scan of one session *)

Local Abbreviation loop := (while_loop get_house_vote_members http_get).
Local Abbreviation body := (loop_body get_house_vote_members http_get).
Local Abbreviation scan_session := (_collect_session_votes get_house_vote_members http_get).
Local Abbreviation sessions_from := (session_loop get_house_vote_members http_get).
Local Abbreviation scan_congress := (_collect_congress_votes get_house_vote_members http_get).
Local Abbreviation congresses_from := (congress_loop get_house_vote_members http_get).

Lemma loop_pass (fuel : nat) (congress session : Z) (max_votes : option Z) (s : scan) :
  consecutive_failures s < 5 ->
  cap_reached max_votes (session_votes s) = false ->
  loop (S fuel) congress session last_name state max_votes s =
    match body congress session last_name state s with
    | Continue s' => loop fuel congress session last_name state max_votes s'
    | Break s' => Some (Return s')
    | Abort e => Some (Raise e)
    end.
Proof.
  intros Hc Hcap. cbn [while_loop]. rewrite Hcap. unfold max_consecutive_failures.
  destruct (Z.ltb_spec (consecutive_failures s) 5); [reflexivity|lia].
Qed.

Lemma loop_done (fuel : nat) (congress session : Z) (max_votes : option Z) (s : scan) :
  5 <= consecutive_failures s ->
  loop (S fuel) congress session last_name state max_votes s = Some (Return s).
Proof.
  intros Hc. cbn [while_loop]. unfold max_consecutive_failures.
  destruct (Z.ltb_spec (consecutive_failures s) 5); [lia|reflexivity].
Qed.

(** With the cap not reached by [records], the loop comes to the state that
    [scanned] tells. *)
Lemma scan_reaches (congress session : Z) (max_votes : option Z)
  (number failures : Z) (records : list VoteRecord.t) :
  scanned congress session number failures records ->
  cap_reached max_votes records = false ->
  exists passes : nat,
    forall fuel : nat,
      loop (passes + S fuel) congress session last_name state max_votes scan_start
      = loop (S fuel) congress session last_name state max_votes
          (mk_scan records number failures).
Proof.
  induction 1 as [|number failures records data member_vote vote_record _ IH Hf Hget Hfind Hrec
                  |number failures records data _ IH Hf Hget Hfind
                  |number failures records message status_code _ IH Hf Hget];
    intros Hcap.
  - exists 0%nat. reflexivity.
  - destruct (IH (cap_prefix _ _ _ Hcap)) as [passes Hp]. exists (S passes). intros fuel.
    replace (S passes + S fuel)%nat with (passes + S (S fuel))%nat by lia.
    rewrite Hp, loop_pass; [|exact Hf|exact (cap_prefix _ _ _ Hcap)].
    unfold loop_body. cbn [vote_number session_votes consecutive_failures].
    now rewrite Hget, Hfind, Hrec.
  - destruct (IH Hcap) as [passes Hp]. exists (S passes). intros fuel.
    replace (S passes + S fuel)%nat with (passes + S (S fuel))%nat by lia.
    rewrite Hp, loop_pass; [|exact Hf|exact Hcap].
    unfold loop_body. cbn [vote_number session_votes consecutive_failures].
    now rewrite Hget, Hfind.
  - destruct (IH Hcap) as [passes Hp]. exists (S passes). intros fuel.
    replace (S passes + S fuel)%nat with (passes + S (S fuel))%nat by lia.
    rewrite Hp, loop_pass; [|exact Hf|exact Hcap].
    unfold loop_body. cbn [vote_number session_votes consecutive_failures].
    rewrite Hget. cbn [is_APIError]. unfold on_api_error, max_consecutive_failures.
    cbn [vote_number session_votes consecutive_failures].
    destruct (Z.leb_spec 5 (failures + 1)); [|reflexivity].
    now rewrite loop_done.
Qed.

(** With a cap that [records] reach, the loop stops at the first of them
    that reaches it. *)
Lemma scan_cut (congress session : Z) (k : Z) (number failures : Z)
  (records : list VoteRecord.t) :
  scanned congress session number failures records ->
  0 < k -> k <= len records ->
  exists (passes : nat) (s_end : scan),
    (forall fuel : nat,
        loop (passes + S fuel) congress session last_name state (Some k) scan_start
        = Some (Return s_end))
    /\ session_votes s_end = firstn (Z.to_nat k) records.
Proof.
  intros Hs Hk.
  induction Hs as [|number failures records data member_vote vote_record Hs IH Hf Hget Hfind Hrec
                   |number failures records data _ IH Hf Hget Hfind
                   |number failures records message status_code _ IH Hf Hget];
    intros Hlen; try (exact (IH Hlen)).
  - cbn in Hlen. lia.
  - destruct (Z_le_gt_dec k (len records)) as [Hle|Hgt].
    + destruct (IH Hle) as (passes & s_end & Hp & Hv). exists passes, s_end.
      split; [exact Hp|]. rewrite Hv, firstn_app.
      replace (Z.to_nat k - length records)%nat with 0%nat by (unfold len in Hle; lia).
      cbn [firstn]. now rewrite app_nil_r.
    + assert (Hcap : cap_reached (Some k) records = false)
        by (apply cap_reached_false; lia).
      destruct (scan_reaches congress session (Some k) number failures records Hs Hcap)
        as [passes Hp].
      rewrite len_app in Hlen. cbn in Hlen.
      exists (S passes), (mk_scan (records ++ [vote_record]) (number + 1) 0). split.
      * intros fuel.
        replace (S passes + S fuel)%nat with (passes + S (S fuel))%nat by lia.
        rewrite Hp, loop_pass; [|exact Hf|exact Hcap].
        unfold loop_body. cbn [vote_number session_votes consecutive_failures].
        rewrite Hget, Hfind, Hrec.
        apply (loop_at_cap get_house_vote_members http_get).
        cbn [session_votes]. apply cap_reached_true; [exact Hk|].
        rewrite len_app. cbn. lia.
      * cbn [session_votes]. symmetry. apply firstn_whole. rewrite len_app. cbn. lia.
Qed.

Lemma enough_fuel (passes fuel : nat) :
  (S passes <= fuel)%nat -> exists fuel' : nat, fuel = (passes + S fuel')%nat.
Proof. intros H. exists (fuel - S passes)%nat. lia. Qed.

Lemma session_whole (congress session : Z) (max_votes : option Z) (number : Z)
  (records : list VoteRecord.t) :
  scanned congress session number 5 records ->
  cap_reached max_votes records = false ->
  ends_in (fun fuel => scan_session fuel congress session last_name state max_votes)
          (Return records).
Proof.
  intros Hs Hcap. destruct (scan_reaches _ _ max_votes _ _ _ Hs Hcap) as [passes Hp].
  exists (S passes). intros fuel Hfuel. destruct (enough_fuel _ _ Hfuel) as [fuel' ->].
  unfold _collect_session_votes. rewrite Hp, loop_done by (cbn; lia). reflexivity.
Qed.

Lemma session_cut (congress session : Z) (k : Z) (number failures : Z)
  (records : list VoteRecord.t) :
  scanned congress session number failures records ->
  0 < k -> k <= len records ->
  ends_in (fun fuel => scan_session fuel congress session last_name state (Some k))
          (Return (firstn (Z.to_nat k) records)).
Proof.
  intros Hs Hk Hlen. destruct (scan_cut _ _ k _ _ _ Hs Hk Hlen) as (passes & s_end & Hp & Hv).
  exists (S passes). intros fuel Hfuel. destruct (enough_fuel _ _ Hfuel) as [fuel' ->].
  unfold _collect_session_votes. rewrite Hp. cbn [lift]. now rewrite Hv.
Qed.

Lemma session_fault (congress session : Z) (max_votes : option Z) (number failures : Z)
  (records : list VoteRecord.t) (e : exn) :
  scanned congress session number failures records -> failures < 5 ->
  cap_reached max_votes records = false ->
  get_house_vote_members congress session number = Raise e ->
  is_APIError e = false ->
  ends_in (fun fuel => scan_session fuel congress session last_name state max_votes)
          (Raise e).
Proof.
  intros Hs Hf Hcap Hget He.
  destruct (scan_reaches _ _ max_votes _ _ _ Hs Hcap) as [passes Hp].
  exists (S passes). intros fuel Hfuel. destruct (enough_fuel _ _ Hfuel) as [fuel' ->].
  unfold _collect_session_votes. rewrite Hp, loop_pass; [|exact Hf|exact Hcap].
  unfold loop_body. cbn [vote_number]. now rewrite Hget, He.
Qed.

(** The state a scan returns is one that [scanned] tells. *)
Lemma loop_scanned (congress session : Z) (max_votes : option Z) (fuel : nat) :
  forall s s_end : scan,
    scanned congress session (vote_number s) (consecutive_failures s) (session_votes s) ->
    loop fuel congress session last_name state max_votes s = Some (Return s_end) ->
    scanned congress session (vote_number s_end) (consecutive_failures s_end)
            (session_votes s_end).
Proof.
  induction fuel as [|fuel IH]; intros s s_end Hs H; [discriminate|].
  cbn [while_loop] in H. unfold max_consecutive_failures in H.
  destruct (Z.ltb_spec (consecutive_failures s) 5) as [Hf|_];
    [|injection H as <-; exact Hs].
  destruct (cap_reached max_votes (session_votes s)); [injection H as <-; exact Hs|].
  assert (Hfault : forall e, get_house_vote_members congress session (vote_number s) = Raise e ->
            is_APIError e = true ->
            match on_api_error s with
            | Continue s' => loop fuel congress session last_name state max_votes s'
            | Break s' => Some (Return s')
            | Abort e => Some (Raise e)
            end = Some (Return s_end) ->
            scanned congress session (vote_number s_end) (consecutive_failures s_end)
                    (session_votes s_end)).
  { intros e Hget He H'. apply is_APIError_inv in He. destruct He as (message & code & ->).
    pose proof (scanned_failure _ _ _ _ _ _ _ Hs Hf Hget) as Hs'.
    unfold on_api_error in H'. destruct (_ <=? _).
    - injection H' as <-. exact Hs'.
    - exact (IH (mk_scan (session_votes s) (vote_number s + 1)
                         (consecutive_failures s + 1)) s_end Hs' H'). }
  unfold loop_body in H.
  destruct (get_house_vote_members congress session (vote_number s)) as [data|e] eqn:Hget.
  - destruct (_find_member_vote data last_name state) as [member_vote|] eqn:Hfind.
    + destruct (finished_record http_get member_vote) as [r|e] eqn:Hrec.
      * exact (IH (mk_scan (session_votes s ++ [r]) (vote_number s + 1) 0) s_end
                 (scanned_record _ _ _ _ _ _ _ _ Hs Hf Hget Hfind Hrec) H).
      * rewrite (finished_record_raises _ _ _ Hrec) in H. discriminate.
    + exact (IH (mk_scan (session_votes s) (vote_number s + 1) 0) s_end
               (scanned_no_member _ _ _ _ _ _ Hs Hf Hget Hfind) H).
  - destruct (is_APIError e) eqn:He; [|discriminate].
    exact (Hfault e eq_refl He H).
Qed.

Lemma scan_session_scanned (congress session : Z) (max_votes : option Z) (fuel : nat)
  (s_end : scan) :
  loop fuel congress session last_name state max_votes scan_start = Some (Return s_end) ->
  scanned congress session (vote_number s_end) (consecutive_failures s_end)
          (session_votes s_end).
Proof. apply loop_scanned. constructor. Qed.

(** ** The loop over the sessions of a congress *)

Lemma sessions_past (congress : Z) (max_votes : option Z) (session : Z) (rest : list Z)
  (congress_votes : list VoteRecord.t) (number : Z) (records : list VoteRecord.t) :
  scanned congress session number 5 records ->
  cap_reached max_votes (congress_votes ++ records) = false ->
  exists enough : nat,
    forall fuel : nat,
      (enough <= fuel)%nat ->
      sessions_from fuel congress last_name state max_votes (session :: rest) congress_votes
      = sessions_from fuel congress last_name state max_votes rest
          (congress_votes ++ records).
Proof.
  intros Hs Hcap.
  destruct (session_whole congress session (remaining max_votes congress_votes)
              number records Hs) as [enough He].
  { rewrite cap_remaining; [exact Hcap | exact (cap_prefix _ _ _ Hcap)]. }
  exists enough. intros fuel Hfuel. cbn [session_loop].
  now rewrite (cap_prefix _ _ _ Hcap), (He fuel Hfuel).
Qed.

Lemma sessions_collected (congress : Z) (max_votes : option Z) (sessions : list Z) :
  forall congress_votes records : list VoteRecord.t,
    scan_of (map (pair congress) sessions) records None ->
    cap_reached max_votes (congress_votes ++ records) = false ->
    ends_in (fun fuel => sessions_from fuel congress last_name state max_votes sessions
                           congress_votes)
            (Return (congress_votes ++ records)).
Proof.
  induction sessions as [|session rest IH]; intros congress_votes records H Hcap;
    cbn [map] in H; inversion H as [| |? ? ? number l more ? Hs Hrest]; subst.
  - exists 0%nat. intros fuel _. cbn [session_loop]. now rewrite app_nil_r.
  - rewrite app_assoc in Hcap |- *.
    destruct (sessions_past congress max_votes session rest congress_votes number l Hs
                (cap_prefix _ _ _ Hcap)) as [e1 H1].
    destruct (IH _ _ Hrest Hcap) as [e2 H2].
    exists (Nat.max e1 e2). intros fuel Hfuel. rewrite H1, H2 by lia. reflexivity.
Qed.

Lemma sessions_cut (congress : Z) (k : Z) (sessions : list Z) :
  0 < k ->
  forall (congress_votes records : list VoteRecord.t) (place : option (Z * Z * Z * Z)),
    len congress_votes < k ->
    scan_of (map (pair congress) sessions) records place ->
    k <= len (congress_votes ++ records) ->
    ends_in (fun fuel => sessions_from fuel congress last_name state (Some k) sessions
                           congress_votes)
            (Return (firstn (Z.to_nat k) (congress_votes ++ records))).
Proof.
  intros Hk.
  assert (Hstop : forall (session : Z) (rest : list Z) (congress_votes l more : list VoteRecord.t)
                         (number failures : Z),
             len congress_votes < k ->
             scanned congress session number failures l ->
             k - len congress_votes <= len l ->
             ends_in (fun fuel => sessions_from fuel congress last_name state (Some k)
                                    (session :: rest) congress_votes)
                     (Return (firstn (Z.to_nat k) (congress_votes ++ l ++ more)))).
  { intros session rest congress_votes l more number failures Hacc Hs Hlen.
    destruct (session_cut congress session (k - len congress_votes) number failures l Hs)
      as [enough He]; [lia|exact Hlen|].
    exists enough. intros fuel Hfuel. cbn [session_loop].
    rewrite (proj2 (cap_reached_false k congress_votes Hk) Hacc).
    rewrite remaining_positive by exact Hk. rewrite (He fuel Hfuel).
    rewrite (sessions_at_cap get_house_vote_members http_get).
    - rewrite firstn_past by lia. do 2 f_equal. rewrite firstn_app.
      replace (Z.to_nat (k - len congress_votes) - length l)%nat with 0%nat
        by (unfold len in *; lia).
      cbn [firstn]. now rewrite app_nil_r.
    - apply cap_reached_true; [exact Hk|]. rewrite len_app, len_firstn by lia. lia. }
  induction sessions as [|session rest IH]; intros congress_votes records place Hacc H Hlen;
    cbn [map] in H;
    inversion H as [|? ? ? number failures ? Hs|? ? ? number l more ? Hs Hrest]; subst.
  - rewrite app_nil_r in Hlen. lia.
  - rewrite <- (app_nil_r records). rewrite len_app in Hlen.
    apply (Hstop session rest congress_votes records [] number failures Hacc Hs). lia.
  - destruct (Z_le_gt_dec (k - len congress_votes) (len l)) as [Hle|Hgt].
    + exact (Hstop session rest congress_votes l more number 5 Hacc Hs Hle).
    + assert (Hcap : cap_reached (Some k) (congress_votes ++ l) = false)
        by (apply cap_reached_false; [exact Hk|rewrite len_app; lia]).
      destruct (sessions_past congress (Some k) session rest congress_votes number l Hs Hcap)
        as [e1 H1].
      destruct (IH (congress_votes ++ l) more place) as [e2 H2].
      * rewrite len_app. lia.
      * exact Hrest.
      * now rewrite <- app_assoc.
      * exists (Nat.max e1 e2). intros fuel Hfuel. rewrite H1, H2 by lia.
        now rewrite app_assoc.
Qed.

Lemma sessions_fault (congress : Z) (max_votes : option Z) (e : exn)
  (congress' session' number failures : Z) (sessions : list Z) :
  failures < 5 ->
  get_house_vote_members congress' session' number = Raise e ->
  is_APIError e = false ->
  forall congress_votes records : list VoteRecord.t,
    scan_of (map (pair congress) sessions) records
            (Some (congress', session', number, failures)) ->
    cap_reached max_votes (congress_votes ++ records) = false ->
    ends_in (fun fuel => sessions_from fuel congress last_name state max_votes sessions
                           congress_votes)
            (Raise e).
Proof.
  intros Hf Hget He.
  induction sessions as [|session rest IH]; intros congress_votes records H Hcap;
    cbn [map] in H;
    inversion H as [|? ? ? ? ? ? Hs|? ? ? number' l more ? Hs Hrest]; subst.
  - destruct (session_fault congress' session' (remaining max_votes congress_votes)
                number failures records e Hs Hf) as [enough H1]; [|exact Hget|exact He|].
    { rewrite cap_remaining; [exact Hcap | exact (cap_prefix _ _ _ Hcap)]. }
    exists enough. intros fuel Hfuel. cbn [session_loop].
    now rewrite (cap_prefix _ _ _ Hcap), (H1 fuel Hfuel).
  - rewrite app_assoc in Hcap.
    destruct (sessions_past congress max_votes session rest congress_votes number' l Hs
                (cap_prefix _ _ _ Hcap)) as [e1 H1].
    destruct (IH _ _ Hrest Hcap) as [e2 H2].
    exists (Nat.max e1 e2). intros fuel Hfuel. rewrite H1, H2 by lia. reflexivity.
Qed.

(** ** The loop over the congresses *)

Lemma scan_order_cons (congress : Z) (rest : list Z) :
  scan_order (congress :: rest) = map (pair congress) [1; 2] ++ scan_order rest.
Proof. reflexivity. Qed.

Lemma congresses_past (max_votes : option Z) (congress : Z) (rest : list Z)
  (all_votes records : list VoteRecord.t) :
  scan_of (map (pair congress) [1; 2]) records None ->
  cap_reached max_votes (all_votes ++ records) = false ->
  exists enough : nat,
    forall fuel : nat,
      (enough <= fuel)%nat ->
      congresses_from fuel last_name state max_votes (congress :: rest) all_votes
      = congresses_from fuel last_name state max_votes rest (all_votes ++ records).
Proof.
  intros Hs Hcap.
  destruct (sessions_collected congress (remaining max_votes all_votes) [1; 2] [] records Hs)
    as [enough He].
  { cbn [app]. rewrite cap_remaining; [exact Hcap | exact (cap_prefix _ _ _ Hcap)]. }
  exists enough. intros fuel Hfuel. cbn [congress_loop].
  rewrite (cap_prefix _ _ _ Hcap). unfold _collect_congress_votes.
  rewrite (He fuel Hfuel). cbn [app]. now rewrite Hcap.
Qed.

Lemma congresses_collected (max_votes : option Z) (congresses : list Z) :
  forall all_votes records : list VoteRecord.t,
    scan_of (scan_order congresses) records None ->
    cap_reached max_votes (all_votes ++ records) = false ->
    ends_in (fun fuel => congresses_from fuel last_name state max_votes congresses all_votes)
            (Return (all_votes ++ records)).
Proof.
  induction congresses as [|congress rest IH]; intros all_votes records H Hcap.
  - inversion H; subst. exists 0%nat. intros fuel _. cbn [congress_loop].
    now rewrite app_nil_r.
  - rewrite scan_order_cons in H.
    destruct (scan_of_app _ _ _ _ H) as [(p & Hp & _)|(l & l' & H1 & H2 & ->)];
      [discriminate|].
    rewrite app_assoc in Hcap |- *.
    destruct (congresses_past max_votes congress rest all_votes l H1 (cap_prefix _ _ _ Hcap))
      as [e1 He1].
    destruct (IH _ _ H2 Hcap) as [e2 He2].
    exists (Nat.max e1 e2). intros fuel Hfuel. rewrite He1, He2 by lia. reflexivity.
Qed.

Lemma congresses_cut (k : Z) (congresses : list Z) :
  0 < k ->
  forall (all_votes records : list VoteRecord.t) (place : option (Z * Z * Z * Z)),
    len all_votes < k ->
    scan_of (scan_order congresses) records place ->
    k <= len (all_votes ++ records) ->
    ends_in (fun fuel => congresses_from fuel last_name state (Some k) congresses all_votes)
            (Return (firstn (Z.to_nat k) (all_votes ++ records))).
Proof.
  intros Hk.
  assert (Hstop : forall (congress : Z) (rest : list Z) (all_votes l more : list VoteRecord.t)
                         (place : option (Z * Z * Z * Z)),
             len all_votes < k ->
             scan_of (map (pair congress) [1; 2]) l place ->
             k - len all_votes <= len l ->
             ends_in (fun fuel => congresses_from fuel last_name state (Some k)
                                    (congress :: rest) all_votes)
                     (Return (firstn (Z.to_nat k) (all_votes ++ l ++ more)))).
  { intros congress rest all_votes l more place Hacc Hs Hlen.
    destruct (sessions_cut congress (k - len all_votes) [1; 2] ltac:(lia) [] l place)
      as [enough He]; [cbn; lia | exact Hs | cbn [app]; exact Hlen |].
    cbn [app] in He.
    exists enough. intros fuel Hfuel. cbn [congress_loop].
    rewrite (proj2 (cap_reached_false k all_votes Hk) Hacc).
    rewrite remaining_positive by exact Hk. unfold _collect_congress_votes.
    rewrite (He fuel Hfuel).
    assert (Hfull : len (all_votes ++ firstn (Z.to_nat (k - len all_votes)) l) = k)
      by (rewrite len_app, len_firstn by lia; lia).
    rewrite (proj2 (cap_reached_true k _ Hk)) by lia.
    rewrite slice_to_positive by exact Hk. rewrite (firstn_whole k) by lia.
    rewrite (firstn_past k all_votes) by lia. do 2 f_equal. rewrite firstn_app.
    replace (Z.to_nat (k - len all_votes) - length l)%nat with 0%nat
      by (unfold len in *; lia).
    cbn [firstn]. now rewrite app_nil_r. }
  induction congresses as [|congress rest IH]; intros all_votes records place Hacc H Hlen.
  - inversion H; subst. rewrite app_nil_r in Hlen. lia.
  - rewrite scan_order_cons in H. rewrite len_app in Hlen.
    destruct (scan_of_app _ _ _ _ H) as [(p & Hp & H1)|(l & l' & H1 & H2 & ->)].
    + rewrite <- (app_nil_r records).
      apply (Hstop congress rest all_votes records [] place Hacc H1). lia.
    + destruct (Z_le_gt_dec (k - len all_votes) (len l)) as [Hle|Hgt].
      * exact (Hstop congress rest all_votes l l' None Hacc H1 Hle).
      * assert (Hcap : cap_reached (Some k) (all_votes ++ l) = false)
          by (apply cap_reached_false; [exact Hk|rewrite len_app; lia]).
        destruct (congresses_past (Some k) congress rest all_votes l H1 Hcap) as [e1 He1].
        destruct (IH (all_votes ++ l) l' place) as [e2 He2].
        -- rewrite len_app. lia.
        -- exact H2.
        -- rewrite <- app_assoc, len_app. exact Hlen.
        -- exists (Nat.max e1 e2). intros fuel Hfuel. rewrite He1, He2 by lia.
           now rewrite app_assoc.
Qed.

Lemma congresses_fault (max_votes : option Z) (e : exn)
  (congress session number failures : Z) (congresses : list Z) :
  failures < 5 ->
  get_house_vote_members congress session number = Raise e ->
  is_APIError e = false ->
  forall all_votes records : list VoteRecord.t,
    scan_of (scan_order congresses) records (Some (congress, session, number, failures)) ->
    cap_reached max_votes (all_votes ++ records) = false ->
    ends_in (fun fuel => congresses_from fuel last_name state max_votes congresses all_votes)
            (Raise e).
Proof.
  intros Hf Hget He.
  induction congresses as [|c rest IH]; intros all_votes records H Hcap.
  - inversion H.
  - rewrite scan_order_cons in H.
    destruct (scan_of_app _ _ _ _ H) as [(p & Hp & H1)|(l & l' & H1 & H2 & ->)].
    + destruct (sessions_fault c (remaining max_votes all_votes) e congress session number
                  failures [1; 2] Hf Hget He [] records H1) as [enough H'].
      { cbn [app]. rewrite cap_remaining; [exact Hcap | exact (cap_prefix _ _ _ Hcap)]. }
      exists enough. intros fuel Hfuel. cbn [congress_loop].
      rewrite (cap_prefix _ _ _ Hcap). unfold _collect_congress_votes.
      now rewrite (H' fuel Hfuel).
    + rewrite app_assoc in Hcap.
      destruct (congresses_past max_votes c rest all_votes l H1 (cap_prefix _ _ _ Hcap))
        as [e1 He1].
      destruct (IH _ _ H2 Hcap) as [e2 He2].
      exists (Nat.max e1 e2). intros fuel Hfuel. rewrite He1, He2 by lia. reflexivity.
Qed.

End ScanOrder.

(** ** More fuel changes no outcome *)

Section Fuel.

Variable get_house_vote_members : Z -> Z -> Z -> outcome (list APIVoteData.t).
Variable http_get : string -> outcome string.

Lemma session_fuel_le (congress session : Z) (last_name state : string)
  (max_votes : option Z) (fuel fuel' : nat) (r : outcome (list VoteRecord.t)) :
  (fuel <= fuel')%nat ->
  _collect_session_votes get_house_vote_members http_get fuel congress session
    last_name state max_votes = Some r ->
  _collect_session_votes get_house_vote_members http_get fuel' congress session
    last_name state max_votes = Some r.
Proof.
  intros Hle. unfold _collect_session_votes.
  destruct (while_loop _ _ fuel _ _ _ _ _ _) as [r0|] eqn:H; [|discriminate].
  now rewrite (loop_fuel_le _ _ _ _ _ _ _ _ _ _ _ Hle H).
Qed.

Lemma sessions_fuel_le (congress : Z) (last_name state : string) (max_votes : option Z)
  (fuel fuel' : nat) (sessions : list Z) :
  (fuel <= fuel')%nat ->
  forall (congress_votes : list VoteRecord.t) (r : outcome (list VoteRecord.t)),
    session_loop get_house_vote_members http_get fuel congress last_name state
      max_votes sessions congress_votes = Some r ->
    session_loop get_house_vote_members http_get fuel' congress last_name state
      max_votes sessions congress_votes = Some r.
Proof.
  intros Hle. induction sessions as [|session rest IH]; intros congress_votes r;
    cbn [session_loop]; [auto|].
  destruct (cap_reached max_votes congress_votes); [auto|].
  destruct (_collect_session_votes _ _ fuel _ _ _ _ _) as [r0|] eqn:H; [|discriminate].
  rewrite (session_fuel_le _ _ _ _ _ _ _ _ Hle H). destruct r0; auto.
Qed.

Lemma congresses_fuel_le (last_name state : string) (max_votes : option Z)
  (fuel fuel' : nat) (congresses : list Z) :
  (fuel <= fuel')%nat ->
  forall (all_votes : list VoteRecord.t) (r : outcome (list VoteRecord.t)),
    congress_loop get_house_vote_members http_get fuel last_name state
      max_votes congresses all_votes = Some r ->
    congress_loop get_house_vote_members http_get fuel' last_name state
      max_votes congresses all_votes = Some r.
Proof.
  intros Hle. induction congresses as [|congress rest IH]; intros all_votes r;
    cbn [congress_loop]; [auto|].
  destruct (cap_reached max_votes all_votes); [auto|].
  unfold _collect_congress_votes.
  destruct (session_loop _ _ fuel _ _ _ _ _ _) as [r0|] eqn:H; [|discriminate].
  rewrite (sessions_fuel_le _ _ _ _ _ _ _ Hle _ _ H).
  destruct r0; [|auto]. destruct (cap_reached _ _); auto.
Qed.

Lemma collect_fuel_le (search_criteria : MemberSearchCriteria.t) (max_votes : option Z)
  (fuel fuel' : nat) (r : outcome (list VoteRecord.t)) :
  (fuel <= fuel')%nat ->
  collect_member_votes get_house_vote_members http_get fuel search_criteria max_votes
    = Some r ->
  collect_member_votes get_house_vote_members http_get fuel' search_criteria max_votes
    = Some r.
Proof.
  intros Hle. unfold collect_member_votes.
  destruct (congress_loop _ _ fuel _ _ _ _ _) as [r0|] eqn:H; [|discriminate].
  now rewrite (congresses_fuel_le _ _ _ _ _ _ Hle _ _ H).
Qed.

(** A call that ends in one outcome gives no other, whatever the fuel. *)
Lemma collect_one_outcome (search_criteria : MemberSearchCriteria.t)
  (max_votes : option Z) (r r' : outcome (list VoteRecord.t)) (fuel : nat) :
  ends_in (fun fuel => collect_member_votes get_house_vote_members http_get fuel
                         search_criteria max_votes) r ->
  collect_member_votes get_house_vote_members http_get fuel search_criteria max_votes
    = Some r' ->
  r' = r.
Proof.
  intros [enough He] H.
  pose proof (collect_fuel_le _ _ fuel (Nat.max fuel enough) _ ltac:(lia) H) as H'.
  rewrite He in H' by lia. congruence.
Qed.

Lemma collect_ends (search_criteria : MemberSearchCriteria.t) (max_votes : option Z)
  (r : outcome (list VoteRecord.t)) :
  ends_in (fun fuel => congress_loop get_house_vote_members http_get fuel
                         (MemberSearchCriteria.last_name search_criteria)
                         (MemberSearchCriteria.state search_criteria) max_votes
                         (MemberSearchCriteria.congress_numbers search_criteria) []) r ->
  ends_in (fun fuel => collect_member_votes get_house_vote_members http_get fuel
                         search_criteria max_votes) r.
Proof.
  intros [enough He]. exists enough. intros fuel Hfuel.
  now apply collect_of_congresses, He.
Qed.

End Fuel.

(** ** The collection call *)

(** C2: when the sessions of the requested congresses, scanned in order
    with no cap, give [max_votes] records or more up to some place, the
    call with the cap [max_votes] ends, whatever the services answer after
    that place, and returns exactly [max_votes] records, the first ones in
    the order of the scan; and once the records at hand have reached the
    cap, the [while] loop, the loop over the sessions and the loop over the
    congresses each return them at once. *)
Theorem capped_collection_returns_exactly_cap
  (get_house_vote_members : Z -> Z -> Z -> outcome (list APIVoteData.t))
  (http_get : string -> outcome string)
  (search_criteria : MemberSearchCriteria.t) (max_votes : Z)
  (records : list VoteRecord.t) (place : option (Z * Z * Z * Z)) :
  0 < max_votes ->
  scan_of get_house_vote_members http_get
    (MemberSearchCriteria.last_name search_criteria)
    (MemberSearchCriteria.state search_criteria)
    (scan_order (MemberSearchCriteria.congress_numbers search_criteria)) records place ->
  max_votes <= len records ->
  (exists votes : list VoteRecord.t,
      ends_in (fun fuel => collect_member_votes get_house_vote_members http_get fuel
                             search_criteria (Some max_votes))
              (Return votes)
      /\ len votes = max_votes
      /\ votes = firstn (Z.to_nat max_votes) records)
  /\ (forall (fuel : nat) (congress session : Z) (last_name state : string) (s : scan),
        cap_reached (Some max_votes) (session_votes s) = true ->
        while_loop get_house_vote_members http_get (S fuel) congress session
          last_name state (Some max_votes) s = Some (Return s))
  /\ (forall (fuel : nat) (congress : Z) (last_name state : string) (sessions : list Z)
             (congress_votes : list VoteRecord.t),
        cap_reached (Some max_votes) congress_votes = true ->
        session_loop get_house_vote_members http_get fuel congress last_name state
          (Some max_votes) sessions congress_votes = Some (Return congress_votes))
  /\ (forall (fuel : nat) (last_name state : string) (congresses : list Z)
             (votes : list VoteRecord.t),
        cap_reached (Some max_votes) votes = true ->
        congress_loop get_house_vote_members http_get fuel last_name state
          (Some max_votes) congresses votes = Some (Return votes)).
Proof.
  intros Hk Hscan Hlen. repeat apply conj.
  - exists (firstn (Z.to_nat max_votes) records). repeat apply conj.
    + apply collect_ends.
      apply (congresses_cut _ _ _ _ max_votes _ Hk [] records place); [cbn; lia| |exact Hlen].
      exact Hscan.
    + rewrite len_firstn; lia.
    + reflexivity.
  - intros. now apply loop_at_cap.
  - intros. now apply sessions_at_cap.
  - intros. now apply congresses_at_cap.
Qed.

(** C10: a cap of 0 is no cap.  At each level the call with
    [max_votes = 0] is the call with [max_votes = None]; and when every
    session of the requested congresses comes to its fifth failure in a row,
    both calls end and return every record of the scan, in its order. *)
Theorem zero_cap_is_no_cap
  (get_house_vote_members : Z -> Z -> Z -> outcome (list APIVoteData.t))
  (http_get : string -> outcome string)
  (search_criteria : MemberSearchCriteria.t) :
  (forall records : list VoteRecord.t,
      scan_of get_house_vote_members http_get
        (MemberSearchCriteria.last_name search_criteria)
        (MemberSearchCriteria.state search_criteria)
        (scan_order (MemberSearchCriteria.congress_numbers search_criteria)) records None ->
      ends_in (fun fuel => collect_member_votes get_house_vote_members http_get fuel
                             search_criteria (Some 0))
              (Return records)
      /\ ends_in (fun fuel => collect_member_votes get_house_vote_members http_get fuel
                                search_criteria None)
                 (Return records))
  /\ (forall fuel : nat,
        collect_member_votes get_house_vote_members http_get fuel search_criteria (Some 0)
        = collect_member_votes get_house_vote_members http_get fuel search_criteria None)
  /\ (forall (fuel : nat) (congress : Z) (last_name state : string),
        _collect_congress_votes get_house_vote_members http_get fuel congress
          last_name state (Some 0)
        = _collect_congress_votes get_house_vote_members http_get fuel congress
            last_name state None)
  /\ (forall (fuel : nat) (congress session : Z) (last_name state : string),
        _collect_session_votes get_house_vote_members http_get fuel congress session
          last_name state (Some 0)
        = _collect_session_votes get_house_vote_members http_get fuel congress session
            last_name state None).
Proof.
  repeat apply conj.
  - intros records Hscan. split; apply collect_ends.
    + now apply (congresses_collected _ _ _ _ (Some 0) _ [] records).
    + now apply (congresses_collected _ _ _ _ None _ [] records).
  - intros fuel. unfold collect_member_votes.
    now rewrite (congress_loop_zero_cap get_house_vote_members http_get).
  - intros. apply (session_loop_zero_cap get_house_vote_members http_get).
  - intros. unfold _collect_session_votes.
    now rewrite (while_loop_zero_cap get_house_vote_members http_get).
Qed.

(** C8: when the scan of the requested congresses, with whatever it has
    collected on the way, comes to a vote for which the fetcher raises a
    fault that is not an API fault, the collection call ends with that
    fault: no fuel makes it return a list.  And whatever the services, a
    call that ends with a fault does not end with an API fault. *)
Theorem collection_failure_atomicity
  (get_house_vote_members : Z -> Z -> Z -> outcome (list APIVoteData.t))
  (http_get : string -> outcome string)
  (search_criteria : MemberSearchCriteria.t) (max_votes : option Z)
  (records : list VoteRecord.t) (congress session number failures : Z) (e : exn) :
  scan_of get_house_vote_members http_get
    (MemberSearchCriteria.last_name search_criteria)
    (MemberSearchCriteria.state search_criteria)
    (scan_order (MemberSearchCriteria.congress_numbers search_criteria)) records
    (Some (congress, session, number, failures)) ->
  failures < 5 ->
  cap_reached max_votes records = false ->
  get_house_vote_members congress session number = Raise e ->
  is_APIError e = false ->
  ends_in (fun fuel => collect_member_votes get_house_vote_members http_get fuel
                         search_criteria max_votes)
          (Raise e)
  /\ (forall (fuel : nat) (votes : list VoteRecord.t),
        collect_member_votes get_house_vote_members http_get fuel search_criteria max_votes
        <> Some (Return votes))
  /\ (forall (fuel : nat) (cap : option Z) (e' : exn),
        collect_member_votes get_house_vote_members http_get fuel search_criteria cap
          = Some (Raise e') ->
        is_APIError e' = false).
Proof.
  intros Hscan Hf Hcap Hget He.
  assert (Hends : ends_in (fun fuel => collect_member_votes get_house_vote_members http_get
                                         fuel search_criteria max_votes) (Raise e)).
  { apply collect_ends.
    now apply (congresses_fault _ _ _ _ max_votes e congress session number failures _
                 Hf Hget He [] records). }
  repeat apply conj.
  - exact Hends.
  - intros fuel votes H. pose proof (collect_one_outcome _ _ _ _ _ _ _ Hends H).
    discriminate.
  - intros fuel cap e' H. apply congresses_of_collect in H.
    exact (congresses_raise _ _ _ _ _ _ _ _ _ H).
Qed.

(** *** The sample runs against the scan order *)

Definition sample_vote (congress number : Z) : VoteRecord.t :=
  VoteRecord.mk congress "2023-03-03" number "HR758" "Yea" "Q_SCRAPED" "Some Act"
    "https://clerk.house.gov/Votes/2023055".

Lemma sample_two_first_session :
  while_loop Sample.api_two Sample.site_page 20 118 1 "Doe" "TX" None scan_start
  = Some (Return (mk_scan [sample_vote 118 1; sample_vote 118 2] 8 5)).
Proof. vm_compute. reflexivity. Qed.

Lemma sample_two_second_session :
  while_loop Sample.api_two Sample.site_page 20 118 2 "Doe" "TX" (Some 1) scan_start
  = Some (Return (mk_scan [sample_vote 118 1] 2 0)).
Proof. vm_compute. reflexivity. Qed.

(** Two records in the first session of the 118th Congress, and a third one
    at the first vote of its second session. *)
Lemma sample_two_scan :
  scan_of Sample.api_two Sample.site_page "Doe" "TX" (scan_order [118; 119])
    ([sample_vote 118 1; sample_vote 118 2] ++ [sample_vote 118 1])
    (Some (118, 2, 2, 0)).
Proof.
  apply scan_next with (number := 8).
  - exact (scan_session_scanned _ _ _ _ _ _ _ _ _ sample_two_first_session).
  - apply scan_within.
    exact (scan_session_scanned _ _ _ _ _ _ _ _ _ sample_two_second_session).
Qed.

Lemma sample_malformed_first_session :
  while_loop Sample.api_malformed Sample.site_page 20 118 1 "Doe" "TX" (Some 1) scan_start
  = Some (Return (mk_scan [sample_vote 118 1] 2 0)).
Proof. vm_compute. reflexivity. Qed.

(** One record at the first vote; the answer for the second vote is the
    malformed one. *)
Lemma sample_malformed_scan :
  scan_of Sample.api_malformed Sample.site_page "Doe" "TX" (scan_order [118])
    [sample_vote 118 1] (Some (118, 1, 2, 0)).
Proof.
  apply scan_within.
  exact (scan_session_scanned _ _ _ _ _ _ _ _ _ sample_malformed_first_session).
Qed.

Lemma capped_collection_returns_exactly_cap_witness :
  (exists votes,
      ends_in (fun fuel => collect_member_votes Sample.api_two Sample.site_page fuel
                             Sample.doe_two (Some 3))
              (Return votes)
      /\ len votes = 3)
  /\ (exists votes,
         ends_in (fun fuel => collect_member_votes Sample.api_malformed Sample.site_page fuel
                                Sample.doe (Some 1))
                 (Return votes)
         /\ len votes = 1).
Proof.
  split.
  - destruct (capped_collection_returns_exactly_cap Sample.api_two Sample.site_page
                Sample.doe_two 3 _ _ ltac:(lia) sample_two_scan)
      as [(votes & Hv & Hl & _) _]; [cbn; lia|].
    exists votes. split; assumption.
  - destruct (capped_collection_returns_exactly_cap Sample.api_malformed Sample.site_page
                Sample.doe 1 _ _ ltac:(lia) sample_malformed_scan)
      as [(votes & Hv & Hl & _) _]; [cbn; lia|].
    exists votes. split; assumption.
Defined.

Lemma sample_one_first_session :
  while_loop Sample.api_one Sample.site_page 20 118 1 "Doe" "TX" None scan_start
  = Some (Return (mk_scan [sample_vote 118 1] 7 5)).
Proof. vm_compute. reflexivity. Qed.

Lemma sample_one_second_session :
  while_loop Sample.api_one Sample.site_page 20 118 2 "Doe" "TX" None scan_start
  = Some (Return (mk_scan [] 6 5)).
Proof. vm_compute. reflexivity. Qed.

Lemma sample_one_scan :
  scan_of Sample.api_one Sample.site_page "Doe" "TX" (scan_order [118])
    ([sample_vote 118 1] ++ [] ++ []) None.
Proof.
  apply scan_next with (number := 7).
  - exact (scan_session_scanned _ _ _ _ _ _ _ _ _ sample_one_first_session).
  - apply scan_next with (number := 6).
    + exact (scan_session_scanned _ _ _ _ _ _ _ _ _ sample_one_second_session).
    + constructor.
Qed.

Lemma zero_cap_is_no_cap_witness :
  ends_in (fun fuel => collect_member_votes Sample.api_one Sample.site_page fuel
                         Sample.doe (Some 0))
          (Return [sample_vote 118 1]).
Proof.
  exact (proj1 (proj1 (zero_cap_is_no_cap Sample.api_one Sample.site_page Sample.doe)
                  _ sample_one_scan)).
Defined.

Lemma collection_failure_atomicity_witness :
  ends_in (fun fuel => collect_member_votes Sample.api_malformed Sample.site_page fuel
                         Sample.doe None)
          (Raise sample_fault).
Proof.
  exact (proj1 (collection_failure_atomicity Sample.api_malformed Sample.site_page
                  Sample.doe None _ 118 1 2 0 sample_fault sample_malformed_scan
                  ltac:(lia) eq_refl eq_refl eq_refl)).
Defined.

(** * Further properties of the finished record and of the enricher *)

(** ** The date of the finished record *)

Lemma split_head_app (sep : ascii) (a rest : string) :
  Str.forallb (fun c => negb (c =? sep)%char) a = true ->
  Str.split_head sep (a ++ String sep rest)%string = a.
Proof.
  induction a as [|c a IH]; cbn [Str.forallb String.append Str.split_head].
  - now rewrite Ascii.eqb_refl.
  - rewrite andb_true_iff, negb_true_iff. intros [-> Ha]. now rewrite IH.
Qed.

Lemma digit_not_T (c : ascii) : Str.is_digit c = true -> (c =? "T")%char = false.
Proof.
  destruct c as [[] [] [] [] [] [] [] []]; vm_compute; intros H; try discriminate H;
    reflexivity.
Qed.

Lemma canonical_no_T (a : string) :
  canonical a -> Str.forallb (fun c => negb (c =? "T")%char) a = true.
Proof.
  intros [y1 y2 y3 y4 m1 m2 d1 d2]. unfold ymd. cbn [Str.forallb].
  rewrite (digit_not_T y1), (digit_not_T y2), (digit_not_T y3), (digit_not_T y4),
    (digit_not_T m1), (digit_not_T m2), (digit_not_T d1), (digit_not_T d2)
    by assumption.
  reflexivity.
Qed.

(** X7: the finished record carries the scraped date unless that date is
    [1900-01-01]; then it carries the part of the API's start date before the
    first [T] when that part is a zero-padded date, and [1900-01-01] when
    that part is not in the date format. *)
Theorem finished_record_date (http_get : string -> outcome string)
  (member_vote : APIVoteData.t) (scraped_details : ScrapedVoteDetails.t)
  (vote_record : VoteRecord.t) :
  extract_vote_details http_get (APIVoteData.source_data_url member_vote)
    = Return scraped_details ->
  finished_record http_get member_vote = Return vote_record ->
  (ScrapedVoteDetails.date scraped_details <> "1900-01-01" ->
   VoteRecord.date vote_record = ScrapedVoteDetails.date scraped_details)
  /\ (ScrapedVoteDetails.date scraped_details = "1900-01-01" ->
      forall api_date rest : string,
        canonical api_date ->
        APIVoteData.start_date member_vote = (api_date ++ String "T" rest)%string ->
        VoteRecord.date vote_record = api_date)
  /\ (ScrapedVoteDetails.date scraped_details = "1900-01-01" ->
      Re.match_whole date_format
        (Str.split_head "T" (APIVoteData.start_date member_vote)) = false ->
      VoteRecord.date vote_record = "1900-01-01").
Proof.
  intros Hd Hr.
  destruct (finished_record_inv _ _ _ Hr) as (d & url & Hd' & _ & ->).
  rewrite Hd in Hd'. injection Hd' as <-. cbn [VoteRecord.date].
  unfold merged_date, fallback_date.
  destruct (String.eqb_spec (ScrapedVoteDetails.date scraped_details) "1900-01-01")
    as [E|E]; repeat split; try congruence.
  - intros _ api_date rest Hc ->.
    rewrite split_head_app by now apply canonical_no_T.
    now rewrite canonical_date_format.
  - intros _ ->. exact E.
Qed.

Lemma finished_record_date_witness :
  VoteRecord.date (sample_record "2023-01-03" "Q_API" "") = "2023-01-03".
Proof.
  refine (proj1 (proj2 (finished_record_date Sample.site_down _ _ _
                          sample_details_down sample_record_down))
            eq_refl "2023-01-03" "12:28:00-05:00" _ eq_refl).
  now apply (canonical_ymd "2" "0" "2" "3" "0" "1" "0" "3").
Defined.

(** ** The derived address in general *)

Lemma try_down_top {A : Type} (lo n : nat) (k : nat -> option A) (r : A) :
  (lo <= n)%nat -> k n = Some r -> Re.try_down lo n k = Some r.
Proof.
  intros Hlo Hk. destruct n as [|n]; cbn [Re.try_down]; rewrite Hk.
  - destruct (Nat.ltb_spec 0 lo); [lia|reflexivity].
  - destruct (Nat.ltb_spec (S n) lo); [lia|reflexivity].
Qed.

Lemma take_app_length (g s : string) :
  Str.take (String.length g) (g ++ s)%string = g.
Proof. induction g as [|c g IH]; cbn; [now destruct s|now rewrite IH]. Qed.

Lemma drop_app_length (g s : string) :
  Str.drop (String.length g) (g ++ s)%string = s.
Proof. induction g as [|c g IH]; cbn; auto. Qed.

Lemma run_length_app (k : Re.cclass) (g s : string) :
  Str.forallb (Re.in_class k) g = true ->
  Re.run_length k (g ++ s)%string = (String.length g + Re.run_length k s)%nat.
Proof.
  induction g as [|c g IH]; cbn [Str.forallb String.append Re.run_length String.length];
    [reflexivity|].
  rewrite andb_true_iff. intros [-> Hg]. now rewrite IH.
Qed.

Lemma match_here_cons (a : Re.atom) (q : Re.pattern) (s : string) :
  Re.match_here (a :: q) s
  = Re.try_down (Re.a_min a) (Re.max_take a s)
      (fun n =>
         match Re.match_here q (Str.drop n s) with
         | Some (gs, rest) =>
             Some (if Re.a_group a then Str.take n s :: gs else gs, rest)
         | None => None
         end).
Proof. reflexivity. Qed.

(** An item that takes exactly [g] at its first try. *)
Lemma match_run (a : Re.atom) (q : Re.pattern) (g s : string)
  (gs : list string) (rest : string) :
  Re.max_take a (g ++ s)%string = String.length g ->
  (Re.a_min a <= String.length g)%nat ->
  Re.match_here q s = Some (gs, rest) ->
  Re.match_here (a :: q) (g ++ s)%string
  = Some (if Re.a_group a then g :: gs else gs, rest).
Proof.
  intros Hmax Hmin Hq. rewrite match_here_cons, Hmax.
  apply try_down_top; [exact Hmin|].
  now rewrite drop_app_length, take_app_length, Hq.
Qed.

Lemma match_lit (p : string) (q : Re.pattern) (s : string)
  (gs : list string) (rest : string) :
  Re.match_here q s = Some (gs, rest) ->
  Re.match_here (Re.lit p ++ q) (p ++ s)%string = Some (gs, rest).
Proof.
  intros Hq. induction p as [|c p IH]; cbn [Re.lit List.app String.append];
    [exact Hq|].
  apply (match_run (Re.mk_atom (Re.Chr c) 1 (Some 1%nat) false) _
           (String c "") (p ++ s)%string gs rest); [|cbn; lia|exact IH].
  unfold Re.max_take.
  cbn [Re.a_max Re.a_class String.append Re.run_length Re.in_class String.length].
  rewrite Ascii.eqb_refl. reflexivity.
Qed.

Lemma zfill_digits (width : nat) (s : string) :
  Str.forallb Str.is_digit s = true ->
  Str.zfill width s = (Str.repeat "0" (width - String.length s) ++ s)%string.
Proof.
  unfold Str.zfill. destruct s as [|c s]; cbn [Str.forallb].
  - intros _. cbn. induction (width - 0)%nat; cbn; congruence.
  - rewrite andb_true_iff. intros [Hc _].
    destruct (digit_facts c Hc) as (_ & Hm & _ & Hp). now rewrite Hm, Hp.
Qed.

Definition evs_address (year roll tail : string) : string :=
  ("https://clerk.house.gov/evs/" ++ year ++ "/roll" ++ roll ++ ".xml" ++ tail)%string.

Lemma search_evs_address (year roll tail : string) :
  String.length year = 4%nat -> Str.forallb Str.is_digit year = true ->
  roll <> "" -> Str.forallb Str.is_digit roll = true ->
  Re.search source_url_pattern (evs_address year roll tail) = Some [year; roll].
Proof.
  intros Hy4 Hy Hr0 Hr. unfold evs_address, source_url_pattern.
  assert (Hm : Re.match_here
                 (Re.lit "https://clerk.house.gov/evs/" ++ Re.group Re.Digit 4 4 ++
                  Re.lit "/roll" ++ Re.group_plus Re.Digit ++ Re.lit ".xml")
                 ("https://clerk.house.gov/evs/" ++ year ++ "/roll" ++ roll ++
                  ".xml" ++ tail)%string = Some ([year; roll], tail)).
  { apply match_lit.
    apply (match_run (Re.mk_atom Re.Digit 4 (Some 4%nat) true)); [|cbn; lia|].
    { unfold Re.max_take. cbn [Re.a_max Re.a_class].
      rewrite run_length_app by exact Hy. lia. }
    apply match_lit.
    apply (match_run (Re.mk_atom Re.Digit 1 None true)).
    { unfold Re.max_take. cbn [Re.a_max Re.a_class].
      rewrite run_length_app by exact Hr. cbn. lia. }
    { cbn. destruct roll; [contradiction|cbn; lia]. }
    rewrite <- (app_nil_r (Re.lit ".xml")).
    now apply match_lit. }
  cbn [String.append] in Hm |- *. cbn [Re.search]. now rewrite Hm.
Qed.

(** X8: for a reference [https://clerk.house.gov/evs/YYYY/rollN.xml], with
    anything after it, both derivations give
    [https://clerk.house.gov/Votes/YYYY] followed by [N] with zeros in front
    up to three characters; a roll number of three digits or more is kept as
    it is. *)
Theorem derived_address (year roll tail : string) :
  String.length year = 4%nat -> Str.forallb Str.is_digit year = true ->
  roll <> "" -> Str.forallb Str.is_digit roll = true ->
  let address :=
    ("https://clerk.house.gov/Votes/" ++ year
       ++ Str.repeat "0" (3 - String.length roll) ++ roll)%string in
  _generate_rcv_url (evs_address year roll tail) = Return address
  /\ _generate_roll_call_url (evs_address year roll tail) = Return address
  /\ ((3 <= String.length roll)%nat ->
      address = ("https://clerk.house.gov/Votes/" ++ year ++ roll)%string).
Proof.
  intros Hy4 Hy Hr0 Hr. cbn zeta.
  pose proof (search_evs_address year roll tail Hy4 Hy Hr0 Hr) as Hs.
  unfold _generate_rcv_url, _generate_roll_call_url. rewrite Hs.
  change (group 1 [year; roll]) with year. change (group 2 [year; roll]) with roll.
  cbn [try_except]. rewrite zfill_digits by exact Hr.
  repeat split.
  intros Hlen. replace (3 - String.length roll)%nat with 0%nat by lia. reflexivity.
Qed.

Lemma derived_address_witness :
  _generate_rcv_url "https://clerk.house.gov/evs/2024/roll7.xml"
  = Return "https://clerk.house.gov/Votes/2024007".
Proof.
  exact (proj1 (derived_address "2024" "7" "" eq_refl eq_refl
                  ltac:(discriminate) eq_refl)).
Defined.

(** X9: whenever the strict derivation of the enricher returns an address,
    the derivation of the orchestrator returns the same one: the address in
    a finished record is the address of the page that was scraped for it. *)
Theorem derivations_agree (source_data_url address : string) :
  _generate_rcv_url source_data_url = Return address ->
  _generate_roll_call_url source_data_url = Return address.
Proof.
  unfold _generate_rcv_url, _generate_roll_call_url.
  destruct (Str.nonempty source_data_url); cbn [negb]; [|discriminate].
  destruct (Re.search source_url_pattern source_data_url); [|discriminate].
  now intros [= <-].
Qed.

Lemma derivations_agree_witness :
  _generate_roll_call_url "https://clerk.house.gov/evs/2024/roll7.xml"
  = Return "https://clerk.house.gov/Votes/2024007".
Proof.
  apply derivations_agree. reflexivity.
Defined.

(** ** The extracted question and bill title *)

Lemma sapp_assoc (a b c : string) : ((a ++ b) ++ c = a ++ b ++ c)%string.
Proof. induction a as [|x a IH]; cbn; congruence. Qed.

Lemma sapp_nil_r (a : string) : (a ++ "")%string = a.
Proof. induction a as [|x a IH]; cbn; congruence. Qed.

Lemma rev_onto_app (s acc : string) : Str.rev_onto s acc = (Str.rev s ++ acc)%string.
Proof.
  unfold Str.rev. revert acc.
  induction s as [|c s IH]; intros acc; cbn [Str.rev_onto]; [reflexivity|].
  rewrite (IH (String c acc)), (IH (String c "")), sapp_assoc. reflexivity.
Qed.

Lemma rev_cons (c : ascii) (s : string) :
  Str.rev (String c s) = (Str.rev s ++ String c "")%string.
Proof. unfold Str.rev at 1. cbn [Str.rev_onto]. apply rev_onto_app. Qed.

Lemma rev_app (a b : string) : Str.rev (a ++ b) = (Str.rev b ++ Str.rev a)%string.
Proof.
  induction a as [|c a IH]; cbn [String.append].
  - now rewrite sapp_nil_r.
  - now rewrite !rev_cons, IH, sapp_assoc.
Qed.

Lemma rev_rev (s : string) : Str.rev (Str.rev s) = s.
Proof.
  induction s as [|c s IH]; [reflexivity|].
  now rewrite rev_cons, rev_app, IH.
Qed.

Lemma forallb_sapp (p : ascii -> bool) (a b : string) :
  Str.forallb p (a ++ b) = Str.forallb p a && Str.forallb p b.
Proof.
  induction a as [|c a IH]; cbn [String.append Str.forallb]; [reflexivity|].
  now rewrite IH, andb_assoc.
Qed.

Lemma forallb_rev (p : ascii -> bool) (s : string) :
  Str.forallb p (Str.rev s) = Str.forallb p s.
Proof.
  induction s as [|c s IH]; [reflexivity|].
  rewrite rev_cons, forallb_sapp, IH. cbn [Str.forallb].
  rewrite andb_true_r. apply andb_comm.
Qed.

Lemma forallb_lstrip (p : ascii -> bool) (s : string) :
  Str.forallb p s = true -> Str.forallb p (Str.lstrip s) = true.
Proof.
  induction s as [|c s IH]; cbn [Str.lstrip Str.forallb]; [auto|].
  rewrite andb_true_iff. intros [Hc Hs].
  destruct (Str.is_space c); [auto|]. cbn [Str.forallb]. now rewrite Hc, Hs.
Qed.

Lemma forallb_strip (p : ascii -> bool) (s : string) :
  Str.forallb p s = true -> Str.forallb p (Str.strip s) = true.
Proof.
  intros H. unfold Str.strip.
  rewrite forallb_rev. apply forallb_lstrip. rewrite forallb_rev.
  now apply forallb_lstrip.
Qed.

(** What [lstrip] takes away is made of blanks. *)
Lemma lstrip_split (s : string) :
  exists blanks, s = (blanks ++ Str.lstrip s)%string
                 /\ Str.forallb Str.is_space blanks = true.
Proof.
  induction s as [|c s (blanks & Hs & Hb)]; cbn [Str.lstrip].
  - now exists "".
  - destruct (Str.is_space c) eqn:Hc.
    + exists (String c blanks). cbn [String.append Str.forallb].
      rewrite Hc, Hb. split; [congruence|reflexivity].
    + now exists "".
Qed.

Lemma lstrip_length (s : string) : (String.length (Str.lstrip s) <= String.length s)%nat.
Proof.
  induction s as [|c s IH]; cbn [Str.lstrip]; [lia|].
  destruct (Str.is_space c); cbn [String.length]; lia.
Qed.

Lemma lstrip_fixed (c : ascii) (s : string) :
  Str.lstrip (String c s) = String c s <-> Str.is_space c = false.
Proof.
  cbn [Str.lstrip]. destruct (Str.is_space c); split; try congruence.
  intros H. pose proof (lstrip_length s) as Hl. rewrite H in Hl.
  cbn [String.length] in Hl. lia.
Qed.

Lemma lstrip_lstrip (s : string) : Str.lstrip (Str.lstrip s) = Str.lstrip s.
Proof.
  induction s as [|c s IH]; cbn [Str.lstrip]; [reflexivity|].
  destruct (Str.is_space c) eqn:Hc; [exact IH|]. now apply lstrip_fixed.
Qed.

(** Taking the blanks off the right end leaves the left end as it is. *)
Lemma lstrip_rstrip (t : string) :
  Str.lstrip t = t ->
  Str.lstrip (Str.rev (Str.lstrip (Str.rev t))) = Str.rev (Str.lstrip (Str.rev t)).
Proof.
  intros Ht.
  destruct (lstrip_split (Str.rev t)) as (blanks & Hs & _).
  apply (f_equal Str.rev) in Hs. rewrite rev_rev, rev_app in Hs.
  destruct (Str.rev (Str.lstrip (Str.rev t))) as [|c u]; [reflexivity|].
  apply lstrip_fixed. rewrite Hs in Ht. cbn [String.append] in Ht.
  now apply lstrip_fixed in Ht.
Qed.

Lemma strip_strip (s : string) : Str.strip (Str.strip s) = Str.strip s.
Proof.
  unfold Str.strip.
  rewrite (lstrip_rstrip (Str.lstrip s)) by apply lstrip_lstrip.
  now rewrite rev_rev, lstrip_lstrip.
Qed.

Lemma labelled_groups (head : string) (gs : list string) :
  groups_ok (labelled head) gs ->
  exists g, gs = [g] /\ Str.forallb (Re.in_class not_eol) g = true.
Proof.
  unfold labelled.
  induction head as [|c head IH]; cbn [Re.lit_i List.app groups_ok Re.a_group];
    [|exact IH].
  cbn [Re.star Re.group_plus List.app groups_ok Re.a_group].
  destruct gs as [|g [|g' gs]]; try tauto.
  - intros [(_ & _ & Hg) _]. now exists g.
  - intros [_ [=]].
Qed.

Definition is_label_pattern (p : Re.pattern) : Prop := exists head, p = labelled head.

Lemma first_stripped_group_clean (patterns : list Re.pattern) (html_content : string) :
  Forall is_label_pattern patterns ->
  let found := first_stripped_group patterns html_content in
  Str.forallb (Re.in_class not_eol) found = true /\ Str.strip found = found.
Proof.
  cbn zeta. induction 1 as [|p patterns [head ->] _ IH]; cbn [first_stripped_group];
    [now split|].
  destruct (Re.search (labelled head) html_content) as [gs|] eqn:Hs; [|exact IH].
  apply search_groups, labelled_groups in Hs. destruct Hs as (g & -> & Hg).
  change (group 1 [g]) with g.
  destruct (Str.nonempty (Str.strip g)); [|exact IH].
  split; [now apply forallb_strip | apply strip_strip].
Qed.

(** X10: the question and the bill title that the enricher extracts from a
    page never hold a line feed, a carriage return or a [<], and have no
    blank at either end. *)
Theorem extracted_text_is_clean (html_content : string) :
  let clean text :=
    Str.forallb (fun c => negb (existsb (Ascii.eqb c) ["010"; "013"; "<"]%char)) text
      = true
    /\ Str.strip text = text in
  clean (_extract_question html_content) /\ clean (_extract_bill_title html_content).
Proof.
  cbn zeta. unfold _extract_question, _extract_bill_title. split.
  - apply (first_stripped_group_clean question_patterns).
    unfold question_patterns. repeat constructor; eexists; reflexivity.
  - apply (first_stripped_group_clean bill_title_patterns).
    unfold bill_title_patterns. repeat constructor; eexists; reflexivity.
Qed.

(** ** What the date check accepts *)

Lemma canonical_newline_date_format (r : string) :
  canonical r -> Re.match_whole date_format (r ++ String "010" "") = true.
Proof.
  intros []. char_facts. unfold Re.match_whole, date_format, ymd.
  matcher. reflexivity.
Qed.

Lemma take_drop (m : nat) :
  forall s : string, (Str.take m s ++ Str.drop m s)%string = s.
Proof.
  induction m as [|m IH]; intros [|c s]; cbn [Str.take Str.drop String.append]; auto.
  now rewrite IH.
Qed.

(** The words that the items of a pattern took, in order. *)
Lemma match_here_words (p : Re.pattern) :
  forall (s : string) (gs : list string) (rest : string),
    Re.match_here p s = Some (gs, rest) ->
    exists ws, Forall2 group_ok p ws
               /\ s = (fold_right String.append rest ws)%string.
Proof.
  induction p as [|a p IH]; intros s gs rest.
  - cbn [Re.match_here]. intros [= _ <-]. exists []. split; [constructor|reflexivity].
  - rewrite match_here_cons. intros H.
    apply try_down_some in H. destruct H as (m & Hm & H).
    destruct (Re.match_here p (Str.drop m s)) as [[gs' rest']|] eqn:Hp; [|discriminate].
    injection H as _ <-. destruct (IH _ _ _ Hp) as (ws & Hws & Hs).
    exists (Str.take m s :: ws). split.
    + constructor; [|exact Hws].
      destruct (take_run (Re.a_class a) s m) as [Hc Hl].
      { pose proof (max_take_run a s). lia. }
      unfold group_ok. rewrite Hl. repeat split; [lia| |exact Hc].
      intros hi Hhi. pose proof (max_take_max a s hi Hhi). lia.
    + cbn [fold_right]. rewrite <- Hs. symmetry. apply take_drop.
Qed.

Lemma digits_two (g : string) (captured : bool) :
  group_ok (Re.mk_atom Re.Digit 2 (Some 2%nat) captured) g ->
  exists a b, Str.is_digit a = true /\ Str.is_digit b = true
              /\ g = String a (String b "").
Proof.
  intros (Hlo & Hhi & Hd). specialize (Hhi 2%nat eq_refl).
  cbn [Re.a_min Re.a_class Re.in_class] in *.
  destruct g as [|a [|b [|c g]]]; cbn [String.length] in *; try lia.
  cbn [Str.forallb] in Hd. rewrite !andb_true_iff in Hd.
  exists a, b. tauto.
Qed.

Lemma one_literal (c : ascii) (g : string) :
  group_ok (Re.mk_atom (Re.Chr c) 1 (Some 1%nat) false) g -> g = String c "".
Proof.
  intros (Hlo & Hhi & Hd). specialize (Hhi 1%nat eq_refl).
  cbn [Re.a_min Re.a_class Re.in_class] in *.
  destruct g as [|a [|b g]]; cbn [String.length] in *; try lia.
  cbn [Str.forallb] in Hd. rewrite andb_true_r in Hd.
  apply Ascii.eqb_eq in Hd. now subst.
Qed.

Lemma date_format_accepted (s : string) :
  Re.match_whole date_format s = true ->
  canonical s \/ exists r, canonical r /\ s = (r ++ String "010" "")%string.
Proof.
  unfold Re.match_whole.
  destruct (Re.match_here date_format s) as [[gs rest]|] eqn:Hm; [|discriminate].
  apply match_here_words in Hm. destruct Hm as (ws & Hws & ->).
  unfold date_format in Hws. cbn [Re.lit List.app] in Hws.
  repeat match goal with
         | H : Forall2 _ (_ :: _) _ |- _ => inversion H; clear H; subst
         | H : Forall2 _ [] _ |- _ => inversion H; clear H; subst
         end.
  repeat match goal with
         | H : group_ok (Re.mk_atom Re.Digit 4 _ _) _ |- _ =>
             apply digits_four in H; destruct H as (? & ? & ? & ? & ? & ? & ? & ? & ->)
         | H : group_ok (Re.mk_atom Re.Digit 2 _ _) _ |- _ =>
             apply digits_two in H; destruct H as (? & ? & ? & ? & ->)
         | H : group_ok (Re.mk_atom (Re.Chr _) _ _ _) _ |- _ =>
             apply one_literal in H; subst
         end.
  cbn [fold_right String.append].
  rewrite orb_true_iff. intros [Hrest|Hrest]; apply String.eqb_eq in Hrest;
    subst rest.
  - left. now apply canonical_ymd.
  - right.
    match goal with
    | |- exists r, _ /\ String ?a (String ?b (String ?c (String ?d (String _
           (String ?e (String ?f (String _ (String ?g (String ?h _))))))))) = _ =>
        exists (ymd a b c d e f g h)
    end.
    split; [now apply canonical_ymd|reflexivity].
Qed.

(** X11: the date check of [VoteRecord] and [ScrapedVoteDetails] accepts the
    strings of four digits, a hyphen, two digits, a hyphen and two digits,
    and the same followed by one line feed, and no other string: it does not
    ask for a real calendar date and it lets a final line feed through. *)
Theorem date_check_accepts (s : string) :
  Re.match_whole date_format s = true
  <-> canonical s \/ exists r, canonical r /\ s = (r ++ String "010" "")%string.
Proof.
  split; [apply date_format_accepted|].
  intros [Hc|(r & Hc & ->)];
    [now apply canonical_date_format | now apply canonical_newline_date_format].
Qed.

Example date_check_accepts_no_date :
  VoteRecord.validate (sample_record "2023-99-99" "Q" "") = Return tt.
Proof. reflexivity. Qed.

(** * Further properties of the data models *)

Definition is_ascii (c : ascii) : bool := (Str.code c <? 128)%N.

Lemma length_map (f : ascii -> ascii) (s : string) :
  String.length (Str.map f s) = String.length s.
Proof. induction s as [|c s IH]; cbn; congruence. Qed.

Lemma length_sapp (a b : string) :
  String.length (a ++ b) = (String.length a + String.length b)%nat.
Proof. induction a as [|c a IH]; cbn; congruence. Qed.

Lemma length_rev (s : string) : String.length (Str.rev s) = String.length s.
Proof.
  induction s as [|c s IH]; [reflexivity|].
  rewrite rev_cons, length_sapp, IH. cbn. lia.
Qed.

Lemma strip_length (s : string) : (String.length (Str.strip s) <= String.length s)%nat.
Proof.
  unfold Str.strip. rewrite length_rev.
  pose proof (lstrip_length (Str.rev (Str.lstrip s))) as H1.
  rewrite length_rev in H1. pose proof (lstrip_length s). lia.
Qed.

Lemma lstrip_no_space (s : string) :
  Str.forallb (fun c => negb (Str.is_space c)) s = true -> Str.lstrip s = s.
Proof.
  destruct s as [|c s]; [reflexivity|]. cbn [Str.forallb].
  rewrite andb_true_iff, negb_true_iff. intros [Hc _]. now apply lstrip_fixed.
Qed.

Lemma strip_no_space (s : string) :
  Str.forallb (fun c => negb (Str.is_space c)) s = true -> Str.strip s = s.
Proof.
  intros H. unfold Str.strip.
  rewrite (lstrip_no_space s H), lstrip_no_space by now rewrite forallb_rev.
  apply rev_rev.
Qed.

Lemma upper_char_not_lower (c : ascii) : Str.is_lower (Str.upper_char c) = false.
Proof. destruct c as [[] [] [] [] [] [] [] []]; reflexivity. Qed.

Lemma upper_no_lower (s : string) :
  Str.forallb (fun c => negb (Str.is_lower c)) (Str.upper s) = true.
Proof.
  induction s as [|c s IH]; [reflexivity|].
  cbn [Str.upper Str.map Str.forallb]. rewrite upper_char_not_lower. exact IH.
Qed.

(** X12: a search criteria value that was constructed keeps the list of
    congress numbers it was given, which is not empty and holds numbers of
    at least 1; its last name and state are the given ones without the
    blanks at their ends, the state in upper case; for a state given in
    ASCII the stored state has at most two characters, none of them a
    lower-case letter, and exactly two when the given state holds no blank. *)
Theorem search_criteria_invariants (last_name state : string) (congress_numbers : list Z)
  (search_criteria : MemberSearchCriteria.t) :
  MemberSearchCriteria.new last_name state congress_numbers = Return search_criteria ->
  Str.forallb is_ascii state = true ->
  MemberSearchCriteria.congress_numbers search_criteria = congress_numbers
  /\ congress_numbers <> []
  /\ Forall (fun congress => 1 <= congress) congress_numbers
  /\ MemberSearchCriteria.last_name search_criteria = Str.strip last_name
  /\ MemberSearchCriteria.state search_criteria = Str.upper (Str.strip state)
  /\ (String.length (MemberSearchCriteria.state search_criteria) <= 2)%nat
  /\ Str.forallb (fun c => negb (Str.is_lower c))
       (MemberSearchCriteria.state search_criteria) = true
  /\ (Str.forallb (fun c => negb (Str.is_space c)) state = true ->
      String.length (MemberSearchCriteria.state search_criteria) = 2%nat).
Proof.
  unfold MemberSearchCriteria.new. intros H _.
  destruct (Str.nonempty last_name); cbn [negb] in H; [|discriminate].
  destruct (Str.nonempty state); cbn [negb orb] in H; [|discriminate].
  destruct (Nat.eqb_spec (String.length state) 2) as [Hlen|]; cbn [negb] in H;
    [|discriminate].
  destruct congress_numbers as [|congress rest] eqn:Hcs; [discriminate|].
  rewrite <- Hcs in *.
  destruct (existsb (fun congress => congress <? 1) congress_numbers) eqn:Hall;
    [discriminate|].
  injection H as <-.
  cbn [MemberSearchCriteria.congress_numbers MemberSearchCriteria.last_name
       MemberSearchCriteria.state].
  repeat split.
  - rewrite Hcs. discriminate.
  - apply Forall_forall. intros congress' Hin.
    destruct (Z.ltb_spec congress' 1) as [Hlt|]; [|assumption].
    assert (existsb (fun congress => congress <? 1) congress_numbers = true);
      [|congruence].
    apply existsb_exists. exists congress'. split; [exact Hin|].
    now apply Z.ltb_lt.
  - unfold Str.upper. rewrite length_map. pose proof (strip_length state). lia.
  - apply upper_no_lower.
  - intros Hns. unfold Str.upper. now rewrite length_map, strip_no_space.
Qed.

Lemma search_criteria_invariants_witness :
  MemberSearchCriteria.state (MemberSearchCriteria.mk "Doe" "TX" [118]) = "TX".
Proof.
  exact (proj1 (proj2 (proj2 (proj2 (proj2
           (search_criteria_invariants " Doe" "tx" [118]
              (MemberSearchCriteria.mk "Doe" "TX" [118]) eq_refl eq_refl)))))).
Defined.

(** ** Finding the member *)

Lemma lower_upper_char (c : ascii) :
  is_ascii c = true -> Str.lower_char (Str.upper_char c) = Str.lower_char c.
Proof.
  destruct c as [[] [] [] [] [] [] [] []]; vm_compute; intros H; try discriminate H;
    reflexivity.
Qed.

Lemma upper_lower_char (c : ascii) :
  is_ascii c = true -> Str.upper_char (Str.lower_char c) = Str.upper_char c.
Proof.
  destruct c as [[] [] [] [] [] [] [] []]; vm_compute; intros H; try discriminate H;
    reflexivity.
Qed.

Lemma lower_upper (s : string) :
  Str.forallb is_ascii s = true -> Str.lower (Str.upper s) = Str.lower s.
Proof.
  induction s as [|c s IH]; cbn [Str.forallb]; [reflexivity|].
  rewrite andb_true_iff. intros [Hc Hs]. unfold Str.lower, Str.upper in *.
  cbn [Str.map]. now rewrite lower_upper_char, IH.
Qed.

Lemma upper_lower (s : string) :
  Str.forallb is_ascii s = true -> Str.upper (Str.lower s) = Str.upper s.
Proof.
  induction s as [|c s IH]; cbn [Str.forallb]; [reflexivity|].
  rewrite andb_true_iff. intros [Hc Hs]. unfold Str.lower, Str.upper in *.
  cbn [Str.map]. now rewrite upper_lower_char, IH.
Qed.

(** X13: the member that is found is the first entry of the answer whose
    last name and state are those asked for, letter case apart: no entry
    before it matches, [None] means that no entry matches, and for a name
    and a state asked for in ASCII their letter case makes no difference. *)
Theorem find_member_vote_first_match (api_vote_data : list APIVoteData.t)
  (last_name state : string) :
  let matches vote_data :=
    Str.lower (APIVoteData.last_name vote_data) = Str.lower last_name
    /\ Str.upper (APIVoteData.vote_state vote_data) = Str.upper state in
  (forall member_vote,
      _find_member_vote api_vote_data last_name state = Some member_vote ->
      exists before after,
        api_vote_data = before ++ member_vote :: after
        /\ matches member_vote
        /\ Forall (fun vote_data => ~ matches vote_data) before)
  /\ (_find_member_vote api_vote_data last_name state = None <->
      Forall (fun vote_data => ~ matches vote_data) api_vote_data)
  /\ (Str.forallb is_ascii last_name = true -> Str.forallb is_ascii state = true ->
      _find_member_vote api_vote_data (Str.upper last_name) (Str.lower state)
      = _find_member_vote api_vote_data last_name state).
Proof.
  cbn zeta.
  assert (Hm : forall v,
             APIVoteData.validate_for_member v last_name state = true <->
             Str.lower (APIVoteData.last_name v) = Str.lower last_name
             /\ Str.upper (APIVoteData.vote_state v) = Str.upper state).
  { intros v. unfold APIVoteData.validate_for_member.
    now rewrite andb_true_iff, !String.eqb_eq. }
  unfold _find_member_vote. repeat split.
  - induction api_vote_data as [|v data IH]; cbn [find]; [discriminate|].
    intros member_vote.
    destruct (APIVoteData.validate_for_member v last_name state) eqn:Hv.
    + intros [= <-]. exists [], data. repeat split; try apply Hm; auto.
    + intros H. destruct (IH _ H) as (before & after & -> & Hmatch & Hbefore).
      exists (v :: before), after. repeat split; try apply Hmatch.
      constructor; [|exact Hbefore]. rewrite <- Hm. congruence.
  - induction api_vote_data as [|v data IH]; cbn [find]; [constructor|].
    destruct (APIVoteData.validate_for_member v last_name state) eqn:Hv;
      [discriminate|].
    intros H. constructor; [rewrite <- Hm; congruence | auto].
  - induction 1 as [|v data Hv _ IH]; cbn [find]; [reflexivity|].
    rewrite <- Hm in Hv.
    destruct (APIVoteData.validate_for_member v last_name state); [|exact IH].
    now destruct Hv.
  - intros Hl Hs. induction api_vote_data as [|v data IH]; cbn [find]; [reflexivity|].
    rewrite IH. unfold APIVoteData.validate_for_member.
    now rewrite lower_upper, upper_lower.
Qed.

(** * Further properties of the fetcher *)

(** ** The attempts of one call *)

Lemma may_retry_before (max_retries attempt k : nat) :
  (attempt + S k < max_retries)%nat -> Fetcher.may_retry max_retries attempt = true.
Proof.
  intros H. unfold Fetcher.may_retry. apply Nat.ltb_lt. lia.
Qed.

Lemma may_retry_last (max_retries : nat) :
  Fetcher.may_retry max_retries (max_retries - 1) = false.
Proof.
  unfold Fetcher.may_retry. apply Nat.ltb_irrefl.
Qed.

Lemma attempt_retried (session_get : nat -> Fetcher.reply) (max_retries attempt left : nat) :
  Fetcher.retriable (session_get attempt) ->
  Fetcher.may_retry max_retries attempt = true ->
  Fetcher.attempts session_get max_retries attempt (S left)
    = Fetcher.attempts session_get max_retries (S attempt) left.
Proof.
  intros Hr Hm. cbn [Fetcher.attempts]. rewrite Hm.
  destruct (session_get attempt) as [r| | |]; cbn in Hr.
  - destruct Hr as [H429 [seconds Hs]]. now rewrite H429, Hs.
  - reflexivity.
  - reflexivity.
  - contradiction.
Qed.

(** Replies that are tried again are passed over. *)
Lemma attempts_skip (session_get : nat -> Fetcher.reply) (max_retries k : nat) :
  forall attempt left : nat,
    (attempt + k < max_retries)%nat ->
    (forall i : nat, (i < k)%nat -> Fetcher.retriable (session_get (attempt + i)%nat)) ->
    Fetcher.attempts session_get max_retries attempt (k + left)
      = Fetcher.attempts session_get max_retries (attempt + k)%nat left.
Proof.
  induction k as [|k IH]; intros attempt left Hlt Hr.
  - now rewrite Nat.add_0_r.
  - cbn [Nat.add]. rewrite attempt_retried.
    + rewrite IH.
      * f_equal. lia.
      * lia.
      * intros i Hi. replace (S attempt + i)%nat with (attempt + S i)%nat by lia.
        apply Hr. lia.
    + rewrite <- (Nat.add_0_r attempt). apply Hr. lia.
    + now apply may_retry_before with (k := k).
Qed.

Lemma attempts_same (g g' : nat -> Fetcher.reply) (max_retries : nat) :
  forall left attempt : nat,
    (forall i : nat, (attempt <= i < attempt + left)%nat -> g i = g' i) ->
    Fetcher.attempts g max_retries attempt left
      = Fetcher.attempts g' max_retries attempt left.
Proof.
  induction left as [|left IH]; intros attempt H; [reflexivity|].
  cbn [Fetcher.attempts]. rewrite <- (H attempt) by lia.
  rewrite (IH (S attempt)) by (intros i Hi; apply H; lia).
  reflexivity.
Qed.

Lemma attempts_return (g : nat -> Fetcher.reply) (max_retries : nat)
  (r : Fetcher.response) :
  forall left attempt : nat,
    Fetcher.attempts g max_retries attempt left = Return r ->
    exists i : nat,
      (attempt <= i < attempt + left)%nat
      /\ g i = Fetcher.Answer r
      /\ Fetcher.status_code r < 400
      /\ forall j : nat, (attempt <= j < i)%nat -> Fetcher.retriable (g j).
Proof.
  induction left as [|left IH]; intros attempt H; [discriminate|].
  cbn [Fetcher.attempts] in H.
  assert (Hnext : forall rep : Fetcher.reply, g attempt = rep -> Fetcher.retriable rep ->
            Fetcher.attempts g max_retries (S attempt) left = Return r ->
            exists i : nat,
              (attempt <= i < attempt + S left)%nat
              /\ g i = Fetcher.Answer r
              /\ Fetcher.status_code r < 400
              /\ forall j : nat, (attempt <= j < i)%nat -> Fetcher.retriable (g j)).
  { intros rep Hrep Hr Hrest. destruct (IH _ Hrest) as (i & Hi & Hg & Hs & Hbefore).
    exists i. repeat split; try assumption; try lia.
    intros j Hj. destruct (Nat.eq_dec j attempt) as [->|Hne].
    - now rewrite Hrep.
    - apply Hbefore. lia. }
  destruct (g attempt) as [a|m|m|e] eqn:Hg.
  - destruct (Z.eqb_spec (Fetcher.status_code a) 429) as [H429|H429].
    + destruct (Fetcher.retry_after a) as [seconds|e] eqn:Hs; [|discriminate].
      cbn [bind] in H. destruct (Fetcher.may_retry max_retries attempt); [|discriminate].
      apply (Hnext (Fetcher.Answer a) eq_refl); [|exact H].
      cbn. split; [exact H429|]. now exists seconds.
    + destruct (Z.eqb_spec (Fetcher.status_code a) 404).
      * destruct (Fetcher.error_data a); discriminate.
      * destruct (Z.leb_spec 400 (Fetcher.status_code a)).
        -- destruct (Fetcher.error_data a); discriminate.
        -- injection H as ->. exists attempt. repeat split; try assumption; try lia.
  - destruct (Fetcher.may_retry max_retries attempt); [|discriminate].
    now apply (Hnext (Fetcher.Timeout m) eq_refl).
  - destruct (Fetcher.may_retry max_retries attempt); [|discriminate].
    now apply (Hnext (Fetcher.ConnectionError m) eq_refl).
  - discriminate.
Qed.

Lemma request_error (g : nat -> Fetcher.reply) (max_retries k : nat)
  (r : Fetcher.response) (data : option string) :
  (k < max_retries)%nat ->
  (forall i : nat, (i < k)%nat -> Fetcher.retriable (g i)) ->
  g k = Fetcher.Answer r ->
  400 <= Fetcher.status_code r -> Fetcher.status_code r <> 429 ->
  Fetcher.error_data r = Return data ->
  Fetcher._make_request_with_retry g max_retries
    = Raise (APIError (if Fetcher.status_code r =? 404 then "Vote not found"
                       else Fetcher.status_message r data)
                      (Some (Fetcher.status_code r))).
Proof.
  intros Hk Hbefore Hg H400 H429 Hdata. unfold Fetcher._make_request_with_retry.
  replace max_retries with (k + S (max_retries - S k))%nat at 2 by lia.
  rewrite attempts_skip; [|lia|exact Hbefore].
  cbn [Nat.add Fetcher.attempts]. rewrite Hg.
  destruct (Z.eqb_spec (Fetcher.status_code r) 429) as [|_]; [contradiction|].
  rewrite Hdata.
  destruct (Z.eqb_spec (Fetcher.status_code r) 404) as [H404|_].
  - now rewrite H404.
  - destruct (Z.leb_spec 400 (Fetcher.status_code r)); [reflexivity|lia].
Qed.

Lemma request_exhausted (g : nat -> Fetcher.reply) (max_retries : nat) :
  (1 <= max_retries)%nat ->
  (forall i : nat, (i < max_retries)%nat -> Fetcher.retriable (g i)) ->
  Fetcher._make_request_with_retry g max_retries
    = match g (max_retries - 1)%nat with
      | Fetcher.Answer _ =>
          Raise (APIError "Rate limit exceeded after all retries" (Some 429))
      | Fetcher.Timeout _ =>
          Raise (APIError ("Request timed out after "
                             ++ Fetcher.str_int (Z.of_nat max_retries) ++ " attempts")%string
                          None)
      | Fetcher.ConnectionError _ =>
          Raise (APIError ("Connection failed after "
                             ++ Fetcher.str_int (Z.of_nat max_retries) ++ " attempts")%string
                          None)
      | Fetcher.Fails e => Raise e
      end.
Proof.
  intros Hn Hall. unfold Fetcher._make_request_with_retry.
  replace max_retries with (max_retries - 1 + 1)%nat at 2 by lia.
  rewrite attempts_skip; [|lia|intros i Hi; apply Hall; lia].
  cbn [Nat.add Fetcher.attempts]. rewrite may_retry_last.
  pose proof (Hall (max_retries - 1)%nat ltac:(lia)) as Hlast.
  destruct (g (max_retries - 1)%nat) as [r| | |]; cbn in Hlast; try reflexivity.
  destruct Hlast as [H429 [seconds Hs]]. now rewrite H429, Hs.
Qed.

(** X14.  One call sends at most [max_retries] requests: two services whose
    first [max_retries] replies are the same give the same result. *)
Theorem request_reads_first_replies (g g' : nat -> Fetcher.reply) (max_retries : nat) :
  (forall i : nat, (i < max_retries)%nat -> g i = g' i) ->
  Fetcher._make_request_with_retry g max_retries
    = Fetcher._make_request_with_retry g' max_retries.
Proof.
  intros H. apply attempts_same. intros i Hi. apply H. lia.
Qed.

(** X15.  A response that the request returns is the reply to one of the
    [max_retries] attempts, its status is below 400, and every attempt
    before it ended in a timeout, a connection error or a 429 answer. *)
Theorem returned_response_is_success (g : nat -> Fetcher.reply) (max_retries : nat)
  (r : Fetcher.response) :
  Fetcher._make_request_with_retry g max_retries = Return r ->
  exists i : nat,
    (i < max_retries)%nat
    /\ g i = Fetcher.Answer r
    /\ Fetcher.status_code r < 400
    /\ forall j : nat, (j < i)%nat -> Fetcher.retriable (g j).
Proof.
  intros H. destruct (attempts_return _ _ _ _ _ H) as (i & Hi & Hg & Hs & Hbefore).
  exists i. repeat split; try assumption; try lia.
  intros j Hj. apply Hbefore. lia.
Qed.



Definition sample_response (status : Z) : Fetcher.response :=
  Fetcher.mk_response status (Return 60) (Return None).

(** A timeout, a 429 answer, and then an answer with the given status. *)
Definition sample_replies (status : Z) (i : nat) : Fetcher.reply :=
  match i with
  | 0%nat => Fetcher.Timeout "read timed out"
  | 1%nat => Fetcher.Answer (sample_response 429)
  | _ => Fetcher.Answer (sample_response status)
  end.

Lemma sample_replies_retriable (status : Z) (i : nat) :
  (i < 2)%nat -> Fetcher.retriable (sample_replies status i).
Proof.
  intros Hi. destruct i as [|[|i]]; cbn; [exact I | split; [reflexivity | now exists 60] | lia].
Qed.

Lemma request_reads_first_replies_witness :
  Fetcher._make_request_with_retry (sample_replies 200) 2
    = Fetcher._make_request_with_retry (sample_replies 404) 2.
Proof.
  apply request_reads_first_replies.
  intros i Hi. destruct i as [|[|i]]; [reflexivity | reflexivity | lia].
Defined.

Lemma returned_response_is_success_witness :
  exists i : nat,
    (i < 3)%nat
    /\ sample_replies 200 i = Fetcher.Answer (sample_response 200)
    /\ Fetcher.status_code (sample_response 200) < 400
    /\ forall j : nat, (j < i)%nat -> Fetcher.retriable (sample_replies 200 j).
Proof.
  apply (returned_response_is_success (sample_replies 200) 3 (sample_response 200)).
  reflexivity.
Defined.



(** ** A collection over a service that cannot be reached *)

Section FailingFetcher.

Variable get_house_vote_members : Z -> Z -> Z -> outcome (list APIVoteData.t).
Variable http_get : string -> outcome string.
Variables (last_name state : string).

Hypothesis every_call_fails :
  forall congress session vote_number : Z,
    exists (message : string) (status_code : option Z),
      get_house_vote_members congress session vote_number
        = Raise (APIError message status_code).

Lemma failing_body (congress session : Z) (s : scan) :
  loop_body get_house_vote_members http_get congress session last_name state s
    = on_api_error s.
Proof.
  unfold loop_body.
  destruct (every_call_fails congress session (vote_number s)) as (m & c & ->).
  reflexivity.
Qed.

Lemma failing_loop (congress session : Z) (max_votes : option Z) (k : nat) :
  forall (s : scan) (fuel : nat),
    session_votes s = [] ->
    (Z.to_nat (max_consecutive_failures - consecutive_failures s) <= k)%nat ->
    (k < fuel)%nat ->
    exists s' : scan,
      while_loop get_house_vote_members http_get fuel congress session last_name state
        max_votes s = Some (Return s')
      /\ session_votes s' = [].
Proof.
  unfold max_consecutive_failures.
  induction k as [|k IH]; intros s [|fuel] Hvotes Hk Hfuel; try lia;
    cbn [while_loop]; unfold max_consecutive_failures;
    destruct (Z.ltb_spec (consecutive_failures s) 5) as [Hlt|Hge];
    try (exists s; now split); try lia.
  destruct (cap_reached max_votes (session_votes s)); [exists s; now split|].
  rewrite failing_body. unfold on_api_error, max_consecutive_failures.
  cbn [consecutive_failures session_votes vote_number].
  destruct (Z.leb_spec 5 (consecutive_failures s + 1)).
  - eexists. split; [reflexivity|exact Hvotes].
  - apply IH; cbn [consecutive_failures session_votes]; [exact Hvotes|lia|lia].
Qed.

Lemma failing_session (congress session : Z) (max_votes : option Z) (fuel : nat) :
  (5 < fuel)%nat ->
  _collect_session_votes get_house_vote_members http_get fuel congress session
    last_name state max_votes = Some (Return []).
Proof.
  intros Hfuel. unfold _collect_session_votes.
  destruct (failing_loop congress session max_votes 5 scan_start fuel)
    as (s' & -> & Hs'); [reflexivity|cbn; lia|exact Hfuel|].
  cbn [lift]. now rewrite Hs'.
Qed.

Lemma failing_sessions (congress : Z) (max_votes : option Z) (fuel : nat)
  (sessions : list Z) :
  (5 < fuel)%nat ->
  session_loop get_house_vote_members http_get fuel congress last_name state
    max_votes sessions [] = Some (Return []).
Proof.
  intros Hfuel. induction sessions as [|session rest IH]; [reflexivity|].
  cbn [session_loop]. destruct (cap_reached max_votes []); [reflexivity|].
  rewrite failing_session by exact Hfuel. exact IH.
Qed.

Lemma failing_congresses (max_votes : option Z) (fuel : nat) (congresses : list Z) :
  (5 < fuel)%nat ->
  congress_loop get_house_vote_members http_get fuel last_name state
    max_votes congresses [] = Some (Return []).
Proof.
  intros Hfuel. induction congresses as [|congress rest IH]; [reflexivity|].
  cbn [congress_loop]. destruct (cap_reached max_votes []) eqn:Hcap; [reflexivity|].
  unfold _collect_congress_votes. rewrite failing_sessions by exact Hfuel.
  cbn [app]. rewrite Hcap. exact IH.
Qed.

End FailingFetcher.

(** The fetcher of [congress_api.py] in the place of the orchestrator's
    [self.api_client]: [session_get congress session vote_number] gives the
    replies to the requests for one roll call. *)
Definition api_client (session_get : Z -> Z -> Z -> nat -> Fetcher.reply)
  (parse : Fetcher.response -> outcome (list APIVoteData.t))
  (congress session vote_number : Z) : outcome (list APIVoteData.t) :=
  Fetcher.get_house_vote_members (session_get congress session vote_number) parse.


